(** * Gold user-activity daily pipeline: a shallow embedding

    The development follows [airflow/dags/gold_user_activity_daily.py]:
    the six task functions of the DAG, the two query helpers and the
    ClickHouse statements they issue.  The analytical store is an external
    collaborator of the DAG; it is modelled here by the tables the
    statements name, with the relational meaning of each statement written
    out as a function on those tables.

    What the store does on its own is kept to what the module relies on:
    - [ALTER TABLE ... DELETE] is a mutation that runs in the background
      (the session settings of [CLICKHOUSE_CONFIG] do not make it
      synchronous): it concerns the rows present when it is issued, which
      stay readable until it is done, and it shows in [system.mutations]
      until then;
    - the destination is a ReplacingMergeTree, whose duplicates are
      collapsed by [FINAL] at read time and by [OPTIMIZE ... FINAL] on
      disk;
    - a join fills the columns of an unmatched right side with the
      defaults of their types, and keeps every match.

    What a run does not decide (whether the driver connects, whether a
    statement is accepted, how long a mutation takes, the store's clock)
    is an input of the run, the record [env]. *)

From Stdlib Require Import String Ascii DecimalString.
From Stdlib Require Import ZArith List Bool Lia Arith.
Import ListNotations.
Open Scope string_scope.
Open Scope list_scope.

(** ** Calendar dates and rendering of values *)

Module Calendar.

Record date := mkDate { year : Z; month : Z; day : Z }.

Definition date_eqb (a b : date) : bool :=
  ((year a =? year b) && (month a =? month b) && (day a =? day b))%Z.

(** Days since 1970-01-01 to a civil date (proleptic Gregorian). *)
Definition civil_from_days (days : Z) : date :=
  (let z := days + 719468 in
   let era := z / 146097 in
   let doe := z - era * 146097 in
   let yoe := (doe - doe / 1460 + doe / 36524 - doe / 146096) / 365 in
   let doy := doe - (365 * yoe + yoe / 4 - yoe / 100) in
   let mp := (5 * doy + 2) / 153 in
   let d := doy - (153 * mp + 2) / 5 + 1 in
   let m := if mp <? 10 then mp + 3 else mp - 9 in
   let y := yoe + era * 400 in
   mkDate (if m <=? 2 then y + 1 else y) m d)%Z.

Definition ms_per_day : Z := 86400000.

(** [toDate(event_timestamp)] for a millisecond timestamp. *)
Definition toDate (ts : Z) : date := civil_from_days (ts / ms_per_day).

(** [toYYYYMM], which is also what
    [datetime.strptime(ds, '%Y-%m-%d').strftime('%Y%m')] names. *)
Definition toYYYYMM (d : date) : Z := (year d * 100 + month d)%Z.

Definition digits (z : Z) : string := NilZero.string_of_int (Z.to_int z).
Definition str_nat (n : nat) : string := NilZero.string_of_uint (Nat.to_uint n).

Definition pad2 (z : Z) : string :=
  if (z <? 10)%Z then ("0" ++ digits z)%string else digits z.
Definition pad3 (z : Z) : string :=
  if (z <? 10)%Z then ("00" ++ digits z)%string
  else if (z <? 100)%Z then ("0" ++ digits z)%string else digits z.
Definition pad4 (z : Z) : string :=
  if (z <? 1000)%Z then ("0" ++ pad3 z)%string else digits z.

(** The [ds] macro: YYYY-MM-DD. *)
Definition date_str (d : date) : string :=
  (pad4 (year d) ++ "-" ++ pad2 (month d) ++ "-" ++ pad2 (day d))%string.

(** [str] of a Python datetime built from a millisecond timestamp. *)
Definition datetime_str (ts : Z) : string :=
  let tod := (ts mod ms_per_day)%Z in
  let frac := (tod mod 1000)%Z in
  let secs := (tod / 1000)%Z in
  (date_str (toDate ts) ++ " " ++ pad2 (secs / 3600) ++ ":"
     ++ pad2 ((secs / 60) mod 60) ++ ":" ++ pad2 (secs mod 60)
     ++ (if (frac =? 0)%Z then "" else "." ++ pad3 frac ++ "000"))%string.

End Calendar.
Export Calendar.

(** ** The tables *)

Module Schema.

(** [analytics.silver_events]: the event fact stream. *)
Record silver_event := mkEvent {
  se_event_timestamp : Z;      (* milliseconds since the epoch *)
  se_user_id : Z;
  se_event_type : string
}.

(** [analytics.silver_users]: the versioned user dimension.  A user has
    one row per version; the nullable display columns are options. *)
Record silver_user := mkUser {
  su_user_id : Z;
  su_full_name : option string;
  su_email : option string;
  su_is_deleted : Z;
  su__version : Z
}.

(** [analytics.gold_user_activity]: the columns of the INSERT ... SELECT,
    under the aliases the statement gives them. *)
Record gold_row := mkGold {
  activity_date : date;
  user_id : Z;
  event_count : nat;
  last_event_timestamp : Z;
  page_view_count : nat;
  click_count : nat;
  purchase_count : nat;
  search_count : nat;
  add_to_cart_count : nat;
  login_count : nat;
  user_full_name : string;
  user_email : string;
  user_is_active : Z;
  _computed_at : Z;
  _version : Z
}.

(** An [ALTER TABLE ... DELETE] that the store has accepted and not yet
    finished.  The rows it is going to remove stay readable until it is
    done; [mut_remaining] is the number of seconds the background work
    still needs. *)
Record mutation := mkMutation {
  mut_rows : list gold_row;
  mut_remaining : nat
}.

Record store := mkStore {
  silver_events : list silver_event;
  silver_users : list silver_user;
  gold_user_activity : list gold_row;   (* rows no pending delete targets *)
  mutations : list mutation             (* system.mutations with is_done = 0 *)
}.

End Schema.
Export Schema.

(** ** Relational meaning of the statements *)

Module Sql.

(** *** Aggregate functions *)

Definition uniq (ids : list Z) : nat := length (nodup Z.eq_dec ids).

Definition countIf {A} (p : A -> bool) (rows : list A) : nat :=
  length (filter p rows).

Definition min_of (l : list Z) : Z :=
  match l with [] => 0%Z | x :: t => fold_left Z.min t x end.

Definition max_of (l : list Z) : Z :=
  match l with [] => 0%Z | x :: t => fold_left Z.max t x end.

Definition sum_of (l : list nat) : nat := fold_right Nat.add 0 l.

(** [argMax(arg, val)]: the [arg] of the first row whose [val] is
    maximal. *)
Definition argMax_step {A} (best : option (A * Z)) (r : A * Z)
  : option (A * Z) :=
  match best with
  | None => Some r
  | Some (_, v) => if (v <? snd r)%Z then Some r else best
  end.

Definition argMax {A} (rows : list (A * Z)) : option A :=
  option_map fst (fold_left argMax_step rows None).

(** On a nullable [arg] the rows whose [arg] is NULL are skipped, and
    the result is NULL when none is left. *)
Definition argMax_nullable {A} (rows : list (option A * Z)) : option A :=
  argMax (flat_map (fun r => match fst r with
                             | Some a => [(a, snd r)]
                             | None => []
                             end) rows).

Definition coalesce (x : option string) (dflt : string) : string :=
  match x with Some s => s | None => dflt end.

(** *** The join of the insert statement *)

(** Columns of [su] on an event without a match: the defaults of their
    types (the session does not set [join_use_nulls]). *)
Definition su_default : silver_user :=
  mkUser 0 None None 0 0.

(** [silver_events AS se LEFT JOIN silver_users AS su
     ON se.user_id = su.user_id]: every event is paired with each row
    of the dimension that carries its user id, or with the defaults when
    there is none. *)
Definition left_join (evs : list silver_event) (us : list silver_user)
  : list (silver_event * silver_user) :=
  flat_map
    (fun se =>
       match filter (fun su => (se_user_id se =? su_user_id su)%Z) us with
       | [] => [(se, su_default)]
       | matches => map (pair se) matches
       end) evs.

Definition on_date (d : date) (se : silver_event) : bool :=
  date_eqb (toDate (se_event_timestamp se)) d.

Definition is_type (t : string) (r : silver_event * silver_user) : bool :=
  String.eqb (se_event_type (fst r)) t.

(** One output row of the SELECT: the aggregates over the group of
    joined rows [g] of user [u]. *)
Definition aggregate_group (d : date) (now : Z) (u : Z)
    (g : list (silver_event * silver_user)) : gold_row :=
  {| activity_date := d;
     user_id := u;
     event_count := length g;
     last_event_timestamp :=
       max_of (map (fun r => se_event_timestamp (fst r)) g);
     page_view_count := countIf (is_type "page_view") g;
     click_count := countIf (is_type "click") g;
     purchase_count := countIf (is_type "purchase") g;
     search_count := countIf (is_type "search") g;
     add_to_cart_count := countIf (is_type "add_to_cart") g;
     login_count := countIf (is_type "login") g;
     user_full_name :=
       coalesce (argMax_nullable
                   (map (fun r => (su_full_name (snd r), su__version (snd r))) g))
                "";
     user_email :=
       coalesce (argMax_nullable
                   (map (fun r => (su_email (snd r), su__version (snd r))) g))
                "";
     user_is_active :=
       match argMax (map (fun r => (su_is_deleted (snd r), su__version (snd r))) g) with
       | Some 0%Z => 1%Z
       | _ => 0%Z
       end;
     _computed_at := now;
     _version := now |}.

(** The rows the WHERE clause keeps. *)
Definition joined_on (d : date) (st : store)
  : list (silver_event * silver_user) :=
  filter (fun r => on_date d (fst r))
         (left_join (silver_events st) (silver_users st)).

Definition group_of (u : Z) (rows : list (silver_event * silver_user))
  : list (silver_event * silver_user) :=
  filter (fun r => (se_user_id (fst r) =? u)%Z) rows.

(** The SELECT of [insert_query]: one row per [(activity_date, user_id)]
    group, [now] being the value of [now64(3)] (so that
    [toUnixTimestamp64Milli(now64(3))] is [now] as well). *)
Definition select_aggregates (d : date) (now : Z) (st : store)
  : list gold_row :=
  let rows := joined_on d st in
  filter (fun r => (0 <? event_count r)%nat)
         (map (fun u => aggregate_group d now u (group_of u rows))
              (nodup Z.eq_dec (map (fun r => se_user_id (fst r)) rows))).

(** *** Reading the destination *)

Definition of_date (d : date) (r : gold_row) : bool :=
  date_eqb (activity_date r) d.

(** The DDL of [analytics.gold_user_activity] is not part of the module,
    and the spec takes a partition to be one calendar date.
    [optimize_table] names the partition by ['%Y%m'], an identifier that
    names a partition of the table only when the table is partitioned by
    [toYYYYMM(activity_date)]: the store of a run is taken to be such a
    table.  What is stated of the OPTIMIZE whatever the partitioning is
    stated over [optimize_parts], which takes the rows of the named
    partition as a parameter. *)
Definition in_partition (p : Z) (r : gold_row) : bool :=
  (toYYYYMM (activity_date r) =? p)%Z.

(** Every row a plain SELECT sees: those awaiting a pending delete,
    oldest first, then the others. *)
Definition gold_parts (st : store) : list gold_row :=
  flat_map mut_rows (mutations st) ++ gold_user_activity st.

(** Modelled from the spec: the DDL of [analytics.gold_user_activity] is
    not part of the module.  The destination has one row per (activity
    date, user identifier), so the sorting key is taken to be
    [(activity_date, user_id)]. *)
Definition same_key (a b : gold_row) : bool :=
  date_eqb (activity_date a) (activity_date b) && (user_id a =? user_id b)%Z.

(** ReplacingMergeTree with version column [_version]: of the rows of
    one key the one of highest version is kept, the last inserted among
    equal versions. *)
Fixpoint upsert (acc : list gold_row) (r : gold_row) : list gold_row :=
  match acc with
  | [] => [r]
  | a :: acc' =>
      if same_key a r
      then (if (_version a <=? _version r)%Z then r else a) :: acc'
      else a :: upsert acc' r
  end.

Definition replacing_merge (rows : list gold_row) : list gold_row :=
  fold_left upsert rows [].

(** No two rows of the list share a sorting key. *)
Fixpoint distinct_keys (l : list gold_row) : Prop :=
  match l with
  | [] => True
  | r :: l' => (forall a, In a l' -> same_key r a = false) /\ distinct_keys l'
  end.

(** [FROM analytics.gold_user_activity FINAL]. *)
Definition gold_final (st : store) : list gold_row :=
  replacing_merge (gold_parts st).

(** *** Background mutations *)

Definition settle (ms : list mutation) : list mutation :=
  filter (fun m => negb (mut_remaining m =? 0)%nat) ms.

(** One second of background work. *)
Definition tick (st : store) : store :=
  {| silver_events := silver_events st;
     silver_users := silver_users st;
     gold_user_activity := gold_user_activity st;
     mutations :=
       settle (map (fun m => mkMutation (mut_rows m) (pred (mut_remaining m)))
                   (mutations st)) |}.

(** *** The commands *)

(** [ALTER TABLE analytics.gold_user_activity DELETE WHERE activity_date
    = d]: the rows of the date present at that moment are handed to a
    mutation that needs [delay] seconds; with no delay they are gone at
    once. *)
Definition exec_delete (delay : nat) (d : date) (st : store) : store :=
  {| silver_events := silver_events st;
     silver_users := silver_users st;
     gold_user_activity :=
       filter (fun r => negb (of_date d r)) (gold_user_activity st);
     mutations :=
       mutations st
       ++ (if (delay =? 0)%nat then []
           else [mkMutation (filter (of_date d) (gold_user_activity st)) delay]) |}.

(** [INSERT INTO analytics.gold_user_activity SELECT ...]. *)
Definition exec_insert (now : Z) (d : date) (st : store) : store :=
  {| silver_events := silver_events st;
     silver_users := silver_users st;
     gold_user_activity := gold_user_activity st ++ select_aggregates d now st;
     mutations := mutations st |}.

(** [OPTIMIZE TABLE analytics.gold_user_activity PARTITION 'p' FINAL]:
    the parts of the monthly partition [p] are merged; rows that await a
    pending delete are not part of the merge. *)
Definition exec_optimize (p : Z) (st : store) : store :=
  {| silver_events := silver_events st;
     silver_users := silver_users st;
     gold_user_activity :=
       filter (fun r => negb (in_partition p r)) (gold_user_activity st)
       ++ replacing_merge (filter (in_partition p) (gold_user_activity st));
     mutations := mutations st |}.

(** The same statement on a table of any partitioning: [named r] tells
    whether row [r] lies in the partition the statement names. *)
Definition optimize_parts (named : gold_row -> bool) (st : store) : store :=
  {| silver_events := silver_events st;
     silver_users := silver_users st;
     gold_user_activity :=
       filter (fun r => negb (named r)) (gold_user_activity st)
       ++ replacing_merge (filter named (gold_user_activity st));
     mutations := mutations st |}.

(** A partition holds whole dates: the partition key is computed from
    [activity_date]. *)
Definition whole_dates (named : gold_row -> bool) : Prop :=
  forall a b, activity_date a = activity_date b -> named a = named b.

End Sql.
Export Sql.

(** ** The DAG *)

Module Dag.

(** *** Statements, failures and the run's world *)

(** The statements of the module, under the names of the variables that
    hold their text, with the parameters they are issued with. *)
Inductive statement :=
| events_query (target_date : date)
| users_query
| count_query (target_date : date)
| delete_query (target_date : date)
| wait_query
| insert_query (target_date : date)
| verify_query (target_date : date)
| optimize_query (partition : Z)
| source_query (target_date : date)
| dest_query (target_date : date).

Inductive task_name :=
| t_validate_source_data
| t_delete_existing_partition
| t_compute_aggregations
| t_optimize_table
| t_validate_results
| t_generate_report.

Inductive exn_class := AirflowException | ClickHouseError.

Record exn := mkExn { exn_kind : exn_class; exn_str : string }.

(** What the run does not control: whether the driver connects and
    whether the store accepts a statement (with the error text if not),
    how long the store needs for a delete mutation, and the store's
    clock at the insert. *)
Record env := mkEnv {
  connect_error : task_name -> option string;
  query_error : statement -> option string;
  mutation_delay : nat;
  now64 : Z
}.

Inductive level := INFO | WARNING | ERROR.

Inductive io := Issued (s : statement) | Slept (seconds : nat).

(** The dictionaries the tasks push to XCom. *)
Record source_validation := mkSourceValidation {
  sv_target_date : date;
  sv_event_count : nat;
  sv_unique_users : nat;
  sv_min_timestamp : option string;
  sv_max_timestamp : option string;
  sv_total_users_in_system : nat;
  sv_has_data : bool
}.

Record aggregation := mkAggregation {
  ag_target_date : date;
  ag_rows_inserted : nat;
  ag_total_events_aggregated : nat;
  ag_unique_users : nat
}.

Record final_check := mkFinalCheck {
  fv_target_date : date;
  fv_source_unique_users : nat;
  fv_destination_rows : nat;
  fv_destination_total_events : nat;
  fv_validation_passed : bool
}.

(** XCom of one run, one slot per (task, key) that the module uses. *)
Record run_context := mkContext {
  validation_result : option source_validation;
  deleted_rows : option nat;
  aggregation_result : option aggregation;
  final_validation : option final_check
}.

Definition empty_context : run_context := mkContext None None None None.

(** [log] keeps the logger's records, except those that echo the text
    of a statement or a whole dictionary. *)
Record world := mkWorld {
  db : store;
  xcom : run_context;
  log : list (level * string);
  trace : list io
}.

Inductive outcome (A : Type) :=
| Returned (a : A)
| Raised (e : exn).
Arguments Returned {A} a.
Arguments Raised {A} e.

(** A computation runs in a world and leaves one behind, also when it
    raises: what it did to the store before stays done. *)
Definition task (A : Type) : Type := world -> outcome A * world.

Definition ret {A} (a : A) : task A := fun w => (Returned a, w).

Definition bind {A B} (m : task A) (k : A -> task B) : task B :=
  fun w => match m w with
           | (Returned a, w') => k a w'
           | (Raised e, w') => (Raised e, w')
           end.

Definition raise {A} (e : exn) : task A := fun w => (Raised e, w).

(** [try: m except C as e: h e], [catches] telling the classes the
    clause names. *)
Definition try_except {A} (m : task A) (catches : exn_class -> bool)
    (h : exn -> task A) : task A :=
  fun w => match m w with
           | (Raised e, w') =>
               if catches (exn_kind e) then h e w' else (Raised e, w')
           | r => r
           end.

Definition except_Exception (c : exn_class) : bool := true.

Definition except_ClickHouseError (c : exn_class) : bool :=
  match c with ClickHouseError => true | AirflowException => false end.

Declare Scope task_scope.
Delimit Scope task_scope with task.
Notation "x <- m ;; k" := (bind m (fun x => k))
  (at level 61, m at next level, right associativity) : task_scope.
Notation "m ;; k" := (bind m (fun _ => k))
  (at level 61, right associativity) : task_scope.
Open Scope task_scope.

Definition update_db (f : store -> store) : task unit :=
  fun w => (Returned tt, mkWorld (f (db w)) (xcom w) (log w) (trace w)).

Definition update_xcom (f : run_context -> run_context) : task unit :=
  fun w => (Returned tt, mkWorld (db w) (f (xcom w)) (log w) (trace w)).

Definition logger (l : level) (msg : string) : task unit :=
  fun w => (Returned tt, mkWorld (db w) (xcom w) (log w ++ [(l, msg)]) (trace w)).

Definition record_io (e : io) : task unit :=
  fun w => (Returned tt, mkWorld (db w) (xcom w) (log w) (trace w ++ [e])).

(** [time.sleep(seconds)]: the store's background work goes on. *)
Definition time_sleep (seconds : nat) : task unit :=
  record_io (Slept seconds) ;;
  update_db (fun st => Nat.iter seconds tick st).

(** *** The driver *)

Definition row_type (s : statement) : Type :=
  match s with
  | events_query _ => (nat * nat * option Z * option Z)%type
  | users_query => nat
  | count_query _ => nat
  | wait_query => nat
  | verify_query _ => (nat * nat * nat)%type
  | source_query _ => nat
  | dest_query _ => (nat * nat)%type
  | delete_query _ | insert_query _ | optimize_query _ => unit
  end.

Definition event_times (d : date) (st : store) : list Z :=
  map se_event_timestamp (filter (on_date d) (silver_events st)).

Definition event_users (d : date) (st : store) : list Z :=
  map se_user_id (filter (on_date d) (silver_events st)).

(** Modelled from the spec: the view [analytics.v_silver_users_all] is
    not part of the module.  Its row count, the count of known dimension
    rows, is taken to be the number of distinct users of the dimension. *)
Definition known_users (st : store) : nat :=
  uniq (map su_user_id (silver_users st)).

(** The rows the store answers a SELECT with.  Each of the module's
    SELECTs is an aggregation without GROUP BY, so it answers with one
    row. *)
Definition select_rows (s : statement) (st : store) : list (row_type s) :=
  match s return list (row_type s) with
  | events_query d =>
      [ (List.length (event_times d st), uniq (event_users d st),
         Some (min_of (event_times d st)), Some (max_of (event_times d st))) ]
  | users_query => [ known_users st ]
  | count_query d => [ List.length (filter (of_date d) (gold_parts st)) ]
  | wait_query => [ List.length (mutations st) ]
  | verify_query d =>
      let rows := filter (of_date d) (gold_parts st) in
      [ (List.length rows, sum_of (map event_count rows), uniq (map user_id rows)) ]
  | source_query d => [ uniq (event_users d st) ]
  | dest_query d =>
      let rows := filter (of_date d) (gold_final st) in
      [ (List.length rows, sum_of (map event_count rows)) ]
  | delete_query _ | insert_query _ | optimize_query _ => []
  end.

(** What the store does on a command. *)
Definition apply_command (E : env) (s : statement) (st : store) : store :=
  match s with
  | delete_query d => exec_delete (mutation_delay E) d st
  | insert_query d => exec_insert (now64 E) d st
  | optimize_query p => exec_optimize p st
  | _ => st
  end.

Definition driver_error {A} (o : option string) (ok : task A) : task A :=
  match o with
  | Some msg => raise (mkExn ClickHouseError msg)
  | None => ok
  end.

(** [clickhouse_connect.get_client(...)]. *)
Definition get_client (E : env) (t : task_name) : task unit :=
  driver_error (connect_error E t) (ret tt).

(** [client.command(query, parameters=...)]. *)
Definition client_command (E : env) (s : statement) : task unit :=
  record_io (Issued s) ;;
  driver_error (query_error E s) (update_db (apply_command E s)).

(** [client.query(query, parameters=...)]. *)
Definition client_query (E : env) (s : statement) : task (list (row_type s)) :=
  record_io (Issued s) ;;
  driver_error (query_error E s) (fun w => (Returned (select_rows s (db w)), w)).

End Dag.
Export Dag.

(** ** The helpers and the six task functions *)

Module Tasks.

Definition first_row {R} (rows : list R) (otherwise : R) : R :=
  match rows with r :: _ => r | [] => otherwise end.

Definition nl : string := String (ascii_of_nat 10) EmptyString.

Definition str_bool (b : bool) : string := if b then "True" else "False".

Definition str_opt (o : option string) : string :=
  match o with Some s => s | None => "None" end.

Section WithContext.

Variable E : env.
Variable ds : date.          (* context['ds'] *)
Variable run_id : string.    (* context['run_id'] *)

Definition get_clickhouse_client (t : task_name) : task unit :=
  try_except
    (get_client E t ;;
     logger INFO "Successfully connected to ClickHouse")
    except_Exception
    (fun e =>
       logger ERROR ("Failed to connect to ClickHouse: " ++ exn_str e)%string ;;
       raise (mkExn AirflowException
                    ("ClickHouse connection failed: " ++ exn_str e)%string)).

Definition execute_query (s : statement) : task unit :=
  try_except
    (client_command E s ;;
     logger INFO "Query executed successfully")
    except_ClickHouseError
    (fun e =>
       logger ERROR ("ClickHouse query failed: " ++ exn_str e)%string ;;
       raise (mkExn AirflowException
                    ("Query execution failed: " ++ exn_str e)%string)).

Definition execute_query_with_result (s : statement)
  : task (list (row_type s)) :=
  try_except
    (result <- client_query E s ;;
     logger INFO ("Query returned " ++ str_nat (List.length result) ++ " rows")%string ;;
     ret result)
    except_ClickHouseError
    (fun e =>
       logger ERROR ("ClickHouse query failed: " ++ exn_str e)%string ;;
       raise (mkExn AirflowException
                    ("Query execution failed: " ++ exn_str e)%string)).

Definition validate_source_data : task source_validation :=
  logger INFO ("Validating source data for date: " ++ date_str ds)%string ;;
  get_clickhouse_client t_validate_source_data ;;
  events_result <- execute_query_with_result (events_query ds) ;;
  let '(event_count, unique_users, min_ts, max_ts) :=
    first_row events_result (0, 0, None, None) in
  users_result <- execute_query_with_result users_query ;;
  let user_count := first_row users_result 0 in
  let validation_result :=
    {| sv_target_date := ds;
       sv_event_count := event_count;
       sv_unique_users := unique_users;
       sv_min_timestamp := option_map datetime_str min_ts;
       sv_max_timestamp := option_map datetime_str max_ts;
       sv_total_users_in_system := user_count;
       sv_has_data := (0 <? event_count)%nat |} in
  (if (event_count =? 0)%nat
   then logger WARNING
          ("No events found for date " ++ date_str ds
           ++ ". DAG will continue but may produce empty results.")%string
   else ret tt) ;;
  update_xcom (fun x => mkContext (Some validation_result) (deleted_rows x)
                                  (aggregation_result x) (final_validation x)) ;;
  ret validation_result.

(** [for _ in range(n)]: poll, leave the loop when nothing is pending,
    sleep a second otherwise. *)
Fixpoint wait_for_mutations (n : nat) : task unit :=
  match n with
  | 0 => ret tt
  | S n' =>
      result <- execute_query_with_result wait_query ;;
      let pending := first_row result 0 in
      if (pending =? 0)%nat then ret tt
      else time_sleep 1 ;; wait_for_mutations n'
  end.

Definition delete_existing_partition : task unit :=
  logger INFO ("Deleting existing partition for date: " ++ date_str ds)%string ;;
  get_clickhouse_client t_delete_existing_partition ;;
  count_result <- execute_query_with_result (count_query ds) ;;
  let existing_count := first_row count_result 0 in
  logger INFO ("Found " ++ str_nat existing_count ++ " existing rows for date "
               ++ date_str ds)%string ;;
  (if (0 <? existing_count)%nat
   then
     execute_query (delete_query ds) ;;
     logger INFO ("Deleted " ++ str_nat existing_count ++ " rows for date "
                  ++ date_str ds)%string ;;
     wait_for_mutations 30
   else logger INFO "No existing data to delete") ;;
  update_xcom (fun x => mkContext (validation_result x) (Some existing_count)
                                  (aggregation_result x) (final_validation x)).

Definition compute_aggregations : task aggregation :=
  logger INFO ("Computing aggregations for date: " ++ date_str ds)%string ;;
  get_clickhouse_client t_compute_aggregations ;;
  execute_query (insert_query ds) ;;
  verify_result <- execute_query_with_result (verify_query ds) ;;
  let '(row_count, total_events, unique_users) :=
    first_row verify_result (0, 0, 0) in
  let aggregation_result :=
    {| ag_target_date := ds;
       ag_rows_inserted := row_count;
       ag_total_events_aggregated := total_events;
       ag_unique_users := unique_users |} in
  update_xcom (fun x => mkContext (validation_result x) (deleted_rows x)
                                  (Some aggregation_result) (final_validation x)) ;;
  ret aggregation_result.

Definition optimize_table : task unit :=
  logger INFO ("Optimizing gold_user_activity table for date: "
               ++ date_str ds)%string ;;
  get_clickhouse_client t_optimize_table ;;
  let partition := toYYYYMM ds in
  try_except
    (execute_query (optimize_query partition) ;;
     logger INFO ("Successfully optimized partition " ++ digits partition)%string)
    except_Exception
    (fun e =>
       logger WARNING ("Optimization warning (non-fatal): " ++ exn_str e)%string).

(** [(source_users == 0 and dest_rows == 0) or
     (source_users > 0 and dest_rows > 0)]. *)
Definition validation_passed (source_users dest_rows : nat) : bool :=
  ((source_users =? 0)%nat && (dest_rows =? 0)%nat)
  || ((0 <? source_users)%nat && (0 <? dest_rows)%nat).

Definition validate_results : task final_check :=
  logger INFO ("Validating results for date: " ++ date_str ds)%string ;;
  get_clickhouse_client t_validate_results ;;
  source_result <- execute_query_with_result (source_query ds) ;;
  let source_users := first_row source_result 0 in
  dest_result <- execute_query_with_result (dest_query ds) ;;
  let '(dest_rows, dest_events) := first_row dest_result (0, 0) in
  let validation_result :=
    {| fv_target_date := ds;
       fv_source_unique_users := source_users;
       fv_destination_rows := dest_rows;
       fv_destination_total_events := dest_events;
       fv_validation_passed := validation_passed source_users dest_rows |} in
  (if negb (validation_passed source_users dest_rows)
   then raise (mkExn AirflowException
                     ("Validation failed: Source had " ++ str_nat source_users
                      ++ " users but destination has " ++ str_nat dest_rows
                      ++ " rows")%string)
   else ret tt) ;;
  update_xcom (fun x => mkContext (Dag.validation_result x) (deleted_rows x)
                                  (aggregation_result x) (Some validation_result)) ;;
  ret validation_result.

(** [d.get(key, 'N/A')] on [xcom_pull(...) or {}]: the pushed
    dictionaries carry all their keys, so the default shows exactly
    when nothing was pushed. *)
Definition get_or_NA {R} (record : option R) (field : R -> string) : string :=
  match record with Some r => field r | None => "N/A" end.

Definition rule : string :=
  "================================================================================".
Definition dashes : string :=
  "--------------------------------------------------------------------------------".

Definition report_lines (x : run_context) : list string :=
  let validation := validation_result x in
  let deleted := match deleted_rows x with Some n => n | None => 0 end in
  let aggregation := aggregation_result x in
  let final := final_validation x in
  [ rule;
    "GOLD USER ACTIVITY DAILY - EXECUTION REPORT";
    rule;
    ("Execution Date: " ++ date_str ds)%string;
    ("Run ID: " ++ run_id)%string;
    dashes;
    "SOURCE DATA VALIDATION:";
    ("  - Events Found: "
       ++ get_or_NA validation (fun v => str_nat (sv_event_count v)))%string;
    ("  - Unique Users: "
       ++ get_or_NA validation (fun v => str_nat (sv_unique_users v)))%string;
    ("  - Time Range: "
       ++ get_or_NA validation (fun v => str_opt (sv_min_timestamp v))
       ++ " to "
       ++ get_or_NA validation (fun v => str_opt (sv_max_timestamp v)))%string;
    dashes;
    "PARTITION CLEANUP:";
    ("  - Rows Deleted: " ++ str_nat deleted)%string;
    dashes;
    "AGGREGATION RESULTS:";
    ("  - Rows Inserted: "
       ++ get_or_NA aggregation (fun a => str_nat (ag_rows_inserted a)))%string;
    ("  - Total Events Aggregated: "
       ++ get_or_NA aggregation
            (fun a => str_nat (ag_total_events_aggregated a)))%string;
    ("  - Unique Users: "
       ++ get_or_NA aggregation (fun a => str_nat (ag_unique_users a)))%string;
    dashes;
    "FINAL VALIDATION:";
    ("  - Validation Passed: "
       ++ get_or_NA final (fun f => str_bool (fv_validation_passed f)))%string;
    rule ].

(** The f-string: a line break, the lines, a line break and the
    indentation of the closing quotes. *)
Definition render_report (x : run_context) : string :=
  (nl ++ String.concat nl (report_lines x) ++ nl ++ "    ")%string.

Definition generate_report : task string :=
  fun w =>
    let report := render_report (xcom w) in
    (logger INFO report ;; ret report) w.

(** [start >> validate_task >> delete_task >> compute_task >>
     optimize_task >> validate_results_task >> report_task >> end]:
    one attempt of each task, a task starting only when the one
    before it has returned. *)
Definition dag_run : task string :=
  validate_source_data ;;
  delete_existing_partition ;;
  compute_aggregations ;;
  optimize_table ;;
  validate_results ;;
  generate_report.

End WithContext.

End Tasks.
Export Tasks.

(** ** What the statements of the claims observe *)

Module Observe.

(** The driver connects and the store accepts every statement. *)
Definition no_faults (E : env) : Prop :=
  (forall t, connect_error E t = None) /\ (forall s, query_error E s = None).

Definition is_returned {A} (o : outcome A) : bool :=
  match o with Returned _ => true | Raised _ => false end.

(** Polls of the mutation-status surface and sleeps in a trace. *)
Definition is_poll (e : io) : bool :=
  match e with Issued wait_query => true | _ => false end.


Definition count_io (p : io -> bool) (tr : list io) : nat :=
  List.length (filter p tr).

Definition cost (p : io -> bool) (e : io) : nat := if p e then 1 else 0.

Definition polls (tr : list io) : nat := count_io is_poll tr.


(** Whatever the world, the computation adds at most [n] entries of
    kind [p] to the trace, and never rewrites what is already there. *)
Definition emits_le {A} (p : io -> bool) (n : nat) (m : task A) : Prop :=
  forall w, exists ext,
    trace (snd (m w)) = trace w ++ ext /\ count_io p ext <= n.

(** What the polling loop of [n] attempts adds to the trace when its
    polls are answered. *)
Fixpoint wait_io (n : nat) (st : store) : list io :=
  match n with
  | 0 => []
  | S n' =>
      Issued wait_query
      :: (if (List.length (mutations st) =? 0)%nat then []
          else Slept 1 :: wait_io n' (tick st))
  end.

(** Mutations still pending after [t] seconds of background work. *)
Definition pending_after (st : store) (t : nat) : nat :=
  List.length (mutations (Nat.iter t tick st)).

(** The store after the polling loop of [n] attempts. *)
Fixpoint wait_db (n : nat) (st : store) : store :=
  match n with
  | 0 => st
  | S n' => if (List.length (mutations st) =? 0)%nat then st
            else wait_db n' (tick st)
  end.

(** The rows of a date that a plain SELECT sees. *)
Definition partition_rows (d : date) (st : store) : list gold_row :=
  filter (of_date d) (gold_parts st).

(** What [count_query] answers. *)
Definition existing_count (d : date) (st : store) : nat :=
  List.length (partition_rows d st).

(** A user's six per-category counts. *)
Definition category_totals (r : gold_row) : Z * (nat * nat * nat * nat * nat * nat) :=
  (user_id r,
   (page_view_count r, click_count r, purchase_count r,
    search_count r, add_to_cart_count r, login_count r)).

Definition category_sum (r : gold_row) : nat :=
  page_view_count r + click_count r + purchase_count r
  + search_count r + add_to_cart_count r + login_count r.

(** The events of a user on a date. *)
Definition user_events (d : date) (u : Z) (st : store) : list silver_event :=
  filter (fun se => on_date d se && (se_user_id se =? u)%Z) (silver_events st).

(** The two counts the validation step compares, and the invariant it
    checks on them. *)
Definition source_distinct_users (d : date) (st : store) : nat :=
  uniq (event_users d st).

Definition dest_rows (d : date) (st : store) : nat :=
  List.length (filter (of_date d) (gold_final st)).

Definition reconciled (source_count dest_count : nat) : Prop :=
  (source_count = 0 /\ dest_count = 0) \/ (source_count > 0 /\ dest_count > 0).

Definition raises {A} (o : outcome A) : Prop := exists e, o = Raised e.

(** Every exception the computation can end with satisfies [P]. *)
Definition raises_only {A} (P : exn -> Prop) (m : task A) : Prop :=
  forall w e w', m w = (Raised e, w') -> P e.

(** The three texts the module raises with. *)
Definition connectivity_text (e : exn) : bool :=
  String.prefix "ClickHouse connection failed: " (exn_str e).
Definition query_text (e : exn) : bool :=
  String.prefix "Query execution failed: " (exn_str e).
Definition mismatch_text (e : exn) : bool :=
  String.prefix "Validation failed: " (exn_str e).

Definition from_driver (e : exn) : Prop := exn_kind e = ClickHouseError.

Definition infra_failure (e : exn) : Prop :=
  exn_kind e = AirflowException
  /\ (connectivity_text e = true \/ query_text e = true).


(** A log record of level INFO. *)
Definition is_info (r : level * string) : Prop := fst r = INFO.



(** The six categories the destination has a column for. *)
Definition categories : list string :=
  ["page_view"; "click"; "purchase"; "search"; "add_to_cart"; "login"].

(** The rows of the dimension for a user. *)
Definition dimension_rows (u : Z) (st : store) : list silver_user :=
  filter (fun su => (u =? su_user_id su)%Z) (silver_users st).

(** A row without its two stamps. *)
Definition unstamped (r : gold_row) : gold_row :=
  mkGold (activity_date r) (user_id r) (event_count r) (last_event_timestamp r)
         (page_view_count r) (click_count r) (purchase_count r) (search_count r)
         (add_to_cart_count r) (login_count r) (user_full_name r) (user_email r)
         (user_is_active r) 0 0.

(** The store a run leaves when nothing fails. *)
Definition after_delete (E : env) (ds : date) (st : store) : store :=
  if (0 <? existing_count ds st)%nat
  then wait_db 30 (exec_delete (mutation_delay E) ds st)
  else st.

Definition run_db (E : env) (ds : date) (st : store) : store :=
  exec_optimize (toYYYYMM ds) (exec_insert (now64 E) ds (after_delete E ds st)).

(** Every mutation pending in the store needs at most [t] more seconds
    of background work. *)
Definition done_within (t : nat) (st : store) : Prop :=
  forall m, In m (mutations st) -> mut_remaining m <= t.

(** A statement removes or adds rows of the destination. *)
Definition is_mutation (s : statement) : bool :=
  match s with
  | delete_query _ | insert_query _ | optimize_query _ => true
  | _ => false
  end.

(** A statement of that kind which is not the delete or the insert of
    date [ds], nor the OPTIMIZE of the month of [ds]. *)
Definition unscoped_mutation (ds : date) (e : io) : bool :=
  match e with
  | Issued (delete_query d) | Issued (insert_query d) => negb (date_eqb d ds)
  | Issued (optimize_query p) => negb (p =? toYYYYMM ds)%Z
  | _ => false
  end.

(** The computation leaves [f] of the world as it was, whether it
    returns or raises. *)
Definition preserves {X A} (f : world -> X) (m : task A) : Prop :=
  forall w, f (snd (m w)) = f w.

(** Whenever the computation returns, the world it leaves satisfies [P]. *)
Definition on_return {A} (P : world -> Prop) (m : task A) : Prop :=
  forall w a w', m w = (Returned a, w') -> P w'.

(** The computation raised the connectivity failure for the driver's
    error [msg], logged it, and did nothing else. *)
Definition connection_abort {A} (msg : string) (w : world)
    (r : outcome A * world) : Prop :=
  fst r = Raised (mkExn AirflowException
                        ("ClickHouse connection failed: " ++ msg)%string)
  /\ db (snd r) = db w /\ xcom (snd r) = xcom w /\ trace (snd r) = trace w
  /\ In (ERROR, ("Failed to connect to ClickHouse: " ++ msg)%string)
        (log (snd r)).

Definition is_insert (s : statement) : bool :=
  match s with insert_query _ => true | _ => false end.

(** The environment [E], except that the store accepts the insert. *)
Definition insert_accepted (E : env) : env :=
  mkEnv (connect_error E)
        (fun s => match s with
                  | insert_query _ => None
                  | _ => query_error E s
                  end)
        (mutation_delay E) (now64 E).

(** A computation that raises has pushed nothing to XCom. *)
Definition pushes_nothing_on_raise {A} (m : task A) : Prop :=
  forall w e w', m w = (Raised e, w') -> xcom w' = xcom w.

(** [f] does not look at the log nor at the trace. *)
Definition ignores_io {X} (f : world -> X) : Prop :=
  forall w l t, f (mkWorld (db w) (xcom w) l t) = f w.

(** The two source tables. *)
Definition source_tables (w : world) : list silver_event * list silver_user :=
  (silver_events (db w), silver_users (db w)).

(** The XCom slots other than the one of a task. *)
Definition xcom_but_validation (w : world) :=
  (deleted_rows (xcom w), aggregation_result (xcom w), final_validation (xcom w)).
Definition xcom_but_deleted (w : world) :=
  (validation_result (xcom w), aggregation_result (xcom w),
   final_validation (xcom w)).
Definition xcom_but_aggregation (w : world) :=
  (validation_result (xcom w), deleted_rows (xcom w), final_validation (xcom w)).
Definition xcom_but_final (w : world) :=
  (validation_result (xcom w), deleted_rows (xcom w), aggregation_result (xcom w)).

End Observe.
Export Observe.

(** ** Sample data *)

Module Sample.

Definition jan15 : date := mkDate 2024 1 15.
Definition jan20 : date := mkDate 2024 1 20.

(** 2024-01-15 12:30:00 and 2024-01-20 12:30:00, in milliseconds. *)
Definition noon15 : Z := 1705321800000.
Definition noon20 : Z := 1705753800000.

(** An environment in which nothing fails and a delete is done at once. *)
Definition calm (now : Z) : env :=
  mkEnv (fun _ => None) (fun _ => None) 0 now.

(** The same with a store that needs [delay] seconds for a delete. *)
Definition slow (delay : nat) (now : Z) : env :=
  mkEnv (fun _ => None) (fun _ => None) delay now.

Definition fresh (st : store) : world := mkWorld st empty_context [] [].

(** Two users with events on 15 January; only user 1 is known to the
    dimension. *)
Definition two_users : store :=
  mkStore
    [ mkEvent noon15 1 "page_view"; mkEvent (noon15 + 5) 1 "click";
      mkEvent (noon15 + 7) 2 "login" ]
    [ mkUser 1 (Some "Ann") (Some "ann@example.com") 0 5 ]
    [] [].

(** A row left in the destination by earlier processing. *)
Definition stale_row (d : date) (u : Z) (v : Z) : gold_row :=
  mkGold d u 1 noon15 1 0 0 0 0 0 "" "" 1 v v.

(** No events at all, and one row of 15 January left behind. *)
Definition stale_only : store :=
  mkStore [] [] [stale_row jan15 9 1000] [].

(** The driver cannot connect. *)
Definition unreachable : env :=
  mkEnv (fun _ => Some "Connection refused") (fun _ => None) 0 0.

(** The store rejects the insert. *)
Definition rejecting : env :=
  mkEnv (fun _ => None)
        (fun s => match s with
                  | insert_query _ => Some "Memory limit exceeded"
                  | _ => None
                  end) 0 0.


(** The events of [two_users], and two versions of the row of user 5
    for 20 January in the destination. *)
Definition doubled : store :=
  mkStore (silver_events two_users) (silver_users two_users)
          [stale_row jan20 5 1000; stale_row jan20 5 2000] [].

(** The events of [two_users], and a row of 15 January left behind for
    a user who has no event that day. *)
Definition leftover : store :=
mkStore (silver_events two_users) (silver_users two_users)
        [stale_row jan15 9 1000] [].

(** The events of [two_users], a row of 15 January left behind for
    user 9, and one for user 7 in the hands of a delete that needs 20
    more seconds. *)
Definition draining : store :=
mkStore (silver_events two_users) (silver_users two_users)
        [stale_row jan15 9 1000] [mkMutation [stale_row jan15 7 900] 20].

(** The events of [two_users], and the row of user 9 in the hands of a
    delete that needs 45 more seconds. *)
Definition held : store :=
mkStore (silver_events two_users) (silver_users two_users)
        [] [mkMutation [stale_row jan15 9 1000] 45].


(** One event of user 1 on 15 January, of a type that is none of the
    six the destination has a column for. *)
Definition other_category : store :=
mkStore [ mkEvent noon15 1 "logout" ] [] [] [].

(** One page view by user 1 on 15 January; the dimension holds two
    versions of user 1, the second after a change of name. *)
Definition two_versions : store :=
mkStore
  [ mkEvent noon15 1 "page_view" ]
  [ mkUser 1 (Some "Ann") (Some "ann@example.com") 0 5;
    mkUser 1 (Some "Ann B") (Some "ann@example.com") 0 9 ]
  [] [].

End Sample.
Export Sample.

(** ** The scheduler's retries *)

Module Scheduler.

(** [DEFAULT_ARGS], the delays in seconds. *)
Definition retries : nat := 3.
Definition retry_delay : nat := 5 * 60.
Definition max_retry_delay : nat := 30 * 60.

(** What a later attempt of a task has of its own: its environment, and
    the seconds the scheduler lets pass before it. *)
Record attempt := mkAttempt { at_env : env; at_pause : nat }.

(** Between two attempts the store's background work goes on. *)
Definition pause (seconds : nat) : task unit :=
  update_db (fun st => Nat.iter seconds tick st).

(** The task function is called; when it raises and an attempt is left,
    it is called again after the pause, with the same context. *)
Fixpoint run_attempts {A} (callable : env -> task A) (E : env)
    (later : list attempt) : task A :=
  match later with
  | [] => callable E
  | a :: rest =>
      try_except (callable E) except_Exception
        (fun _ => pause (at_pause a) ;; run_attempts callable (at_env a) rest)
  end.

(** ['retries': 3]: at most three attempts after the first. *)
Definition with_retries {A} (callable : env -> task A) (E : env)
    (later : list attempt) : task A :=
  run_attempts callable E (firstn retries later).

(** The DAG with [default_args=DEFAULT_ARGS]: every task has the
    retries, [first] being the environment of the first attempts and
    [later t] the later attempts of task [t]. *)
Definition dag_run_retrying (first : env) (later : task_name -> list attempt)
    (ds : date) (run_id : string) : task string :=
  with_retries (fun E => validate_source_data E ds) first
               (later t_validate_source_data) ;;
  with_retries (fun E => delete_existing_partition E ds) first
               (later t_delete_existing_partition) ;;
  with_retries (fun E => compute_aggregations E ds) first
               (later t_compute_aggregations) ;;
  with_retries (fun E => optimize_table E ds) first (later t_optimize_table) ;;
  with_retries (fun E => validate_results E ds) first
               (later t_validate_results) ;;
  with_retries (fun _ => generate_report ds run_id) first
               (later t_generate_report).

Definition is_insert_io (e : io) : bool :=
  match e with Issued (insert_query _) => true | _ => false end.

Definition is_delete_io (e : io) : bool :=
  match e with Issued (delete_query _) => true | _ => false end.

Definition is_optimize_io (e : io) : bool :=
  match e with Issued (optimize_query _) => true | _ => false end.

(** The store accepts the insert and rejects the verification after it. *)
Definition verify_down : env :=
  mkEnv (fun _ => None)
        (fun s => match s with
                  | verify_query _ => Some "Timeout exceeded"
                  | _ => None
                  end) 0 noon20.

(** No events, and the row of 15 January in the hands of a delete that
    needs 100 more seconds. *)
Definition lagging : store :=
  mkStore [] [] [] [mkMutation [stale_row jan15 9 1000] 100].

End Scheduler.
Export Scheduler.

(** * Facts about the model *)

(** ** Dates *)

Example toDate_epoch : toDate 0 = mkDate 1970 1 1.
Proof. reflexivity. Qed.

Example toDate_2024 : toDate 1705321800000 = mkDate 2024 1 15.
Proof. reflexivity. Qed.

Example datetime_str_2024 :
  datetime_str 1705321800000 = "2024-01-15 12:30:00".
Proof. reflexivity. Qed.

Lemma date_eqb_eq (a b : date) : date_eqb a b = true <-> a = b.
Proof.
  unfold date_eqb; destruct a, b; simpl.
  rewrite !andb_true_iff, !Z.eqb_eq.
  split; [intros [[-> ->] ->]; reflexivity | intros H; injection H; auto].
Qed.

Lemma date_eqb_refl (a : date) : date_eqb a a = true.
Proof. apply date_eqb_eq; reflexivity. Qed.

Lemma date_eqb_neq (a b : date) : date_eqb a b = false <-> a <> b.
Proof.
  split.
  - intros H E; apply date_eqb_eq in E; congruence.
  - intros H; destruct (date_eqb a b) eqn:E; auto.
    apply date_eqb_eq in E; contradiction.
Qed.

Lemma date_eqb_sym (a b : date) : date_eqb a b = date_eqb b a.
Proof.
  unfold date_eqb.
  rewrite (Z.eqb_sym (year a)), (Z.eqb_sym (month a)), (Z.eqb_sym (day a)).
  reflexivity.
Qed.


(** ** The replacing merge *)

Section Merge.

Lemma same_key_date (a b : gold_row) :
  same_key a b = true -> activity_date a = activity_date b.
Proof.
  unfold same_key; intros H; apply andb_true_iff in H.
  apply date_eqb_eq; tauto.
Qed.

Lemma same_key_user (a b : gold_row) :
  same_key a b = true -> user_id a = user_id b.
Proof.
  unfold same_key; intros H; apply andb_true_iff in H.
  apply Z.eqb_eq; tauto.
Qed.

Lemma same_key_of_date d (a b : gold_row) :
  same_key a b = true -> of_date d a = of_date d b.
Proof. intros H; unfold of_date; rewrite (same_key_date _ _ H); reflexivity. Qed.

Lemma upsert_In acc r x : In x (upsert acc r) -> x = r \/ In x acc.
Proof.
  induction acc as [|a acc IH]; simpl.
  - intros [<-|[]]; auto.
  - destruct (same_key a r).
    + destruct (_version a <=? _version r)%Z; simpl; intuition.
    + simpl; intuition.
Qed.

Lemma upsert_keeps acc r a :
  In a acc -> same_key a r = false -> In a (upsert acc r).
Proof.
  induction acc as [|b acc IH]; simpl; [tauto|].
  intros [->|Hin] Hk.
  - rewrite Hk; simpl; auto.
  - destruct (same_key b r); simpl; auto.
Qed.

Lemma upsert_fresh acc r :
  (forall a, In a acc -> same_key a r = false) -> upsert acc r = acc ++ [r].
Proof.
  induction acc as [|a acc IH]; simpl; intros H; [reflexivity|].
  rewrite (H a (or_introl eq_refl)), IH; auto.
Qed.

Lemma upsert_not_nil acc r : upsert acc r <> [].
Proof.
  destruct acc as [|a acc]; simpl; [discriminate|].
  destruct (same_key a r); discriminate.
Qed.

Lemma filter_upsert d acc r :
  filter (of_date d) (upsert acc r)
  = if of_date d r then upsert (filter (of_date d) acc) r
    else filter (of_date d) acc.
Proof.
  induction acc as [|a acc IH]; simpl.
  - destruct (of_date d r); reflexivity.
  - destruct (same_key a r) eqn:Hk.
    + pose proof (same_key_of_date d _ _ Hk) as Hd.
      destruct (of_date d r) eqn:Hr; rewrite Hd.
      * simpl; rewrite Hk.
        destruct (_version a <=? _version r)%Z; simpl; rewrite ?Hr, ?Hd;
          reflexivity.
      * destruct (_version a <=? _version r)%Z; simpl; rewrite ?Hr, ?Hd;
          reflexivity.
    + simpl; rewrite IH.
      destruct (of_date d a) eqn:Ha, (of_date d r) eqn:Hr; simpl;
        rewrite ?Hk; reflexivity.
Qed.

Lemma filter_merge d l : forall acc,
  filter (of_date d) (fold_left upsert l acc)
  = fold_left upsert (filter (of_date d) l) (filter (of_date d) acc).
Proof.
  induction l as [|r l IH]; intros acc; simpl; [reflexivity|].
  rewrite IH, filter_upsert.
  destruct (of_date d r); reflexivity.
Qed.

Lemma filter_replacing_merge d l :
  filter (of_date d) (replacing_merge l)
  = replacing_merge (filter (of_date d) l).
Proof. apply filter_merge. Qed.

Lemma merge_not_nil l : forall acc,
  fold_left upsert l acc = [] -> l = [] /\ acc = [].
Proof.
  induction l as [|r l IH]; intros acc; simpl; [auto|].
  intros H; apply IH in H; destruct H as [_ H].
  exfalso; exact (upsert_not_nil _ _ H).
Qed.

Lemma replacing_merge_nil l : replacing_merge l = [] <-> l = [].
Proof.
  split; [intros H; apply (merge_not_nil _ _ H) | intros ->; reflexivity].
Qed.

Lemma same_key_sym a b : same_key a b = same_key b a.
Proof.
  unfold same_key; rewrite date_eqb_sym, Z.eqb_sym; reflexivity.
Qed.

Lemma distinct_keys_app l1 l2 :
  distinct_keys (l1 ++ l2) <->
  distinct_keys l1 /\ distinct_keys l2
  /\ (forall a b, In a l1 -> In b l2 -> same_key a b = false).
Proof.
  induction l1 as [|r l1 IH]; simpl.
  - intuition.
  - rewrite IH; split.
    + intros [H1 [H2 [H3 H4]]]; repeat split; auto.
      * intros a Ha; apply H1, in_or_app; auto.
      * intros a b [<-|Ha] Hb; [apply H1, in_or_app|]; auto.
    + intros [[H1 H2] [H3 H4]]; repeat split; auto.
      intros a Ha; apply in_app_or in Ha; destruct Ha; auto.
Qed.

Lemma merge_distinct l : forall acc,
  distinct_keys (acc ++ l) -> fold_left upsert l acc = acc ++ l.
Proof.
  induction l as [|r l IH]; intros acc H; simpl.
  - rewrite app_nil_r; reflexivity.
  - assert (Hr : upsert acc r = acc ++ [r]).
    { apply upsert_fresh; intros a Ha.
      apply distinct_keys_app in H; destruct H as [_ [_ H]].
      apply H; simpl; auto. }
    rewrite Hr, IH; rewrite <- app_assoc; simpl; auto.
Qed.

Lemma replacing_merge_distinct l :
  distinct_keys l -> replacing_merge l = l.
Proof. intros H; apply (merge_distinct l []); exact H. Qed.

Lemma distinct_keys_filter f l :
  distinct_keys l -> distinct_keys (filter f l).
Proof.
  induction l as [|r l IH]; simpl; [auto|].
  intros [H1 H2]; destruct (f r); simpl; auto.
  split; auto; intros a Ha; apply filter_In in Ha; apply H1; tauto.
Qed.

End Merge.

(** ** The SELECT of the insert *)

Section Aggregates.

Lemma left_join_fst evs us r :
  In r (left_join evs us) -> In (fst r) evs.
Proof.
  unfold left_join; intros H; apply in_flat_map in H.
  destruct H as [se [Hse Hr]].
  destruct (filter _ us) as [|m ms].
  - destruct Hr as [<-|[]]; exact Hse.
  - apply in_map_iff in Hr; destruct Hr as [su [<- _]]; exact Hse.
Qed.

Lemma left_join_covers evs us se :
  In se evs -> exists su, In (se, su) (left_join evs us).
Proof.
  intros H; unfold left_join.
  destruct (filter (fun su => (se_user_id se =? su_user_id su)%Z) us)
    as [|m ms] eqn:Hf.
  - exists su_default; apply in_flat_map; exists se; rewrite Hf; simpl; auto.
  - exists m; apply in_flat_map; exists se; rewrite Hf; simpl; auto.
Qed.

Lemma left_join_unmatched evs us r :
  In r (left_join evs us) ->
  (forall su, In su us -> su_user_id su <> se_user_id (fst r)) ->
  snd r = su_default.
Proof.
  unfold left_join; intros H Hno; apply in_flat_map in H.
  destruct H as [se [Hse Hr]].
  destruct (filter _ us) as [|m ms] eqn:Hf.
  - destruct Hr as [<-|[]]; reflexivity.
  - exfalso.
    assert (Hm : In m (filter (fun su => (se_user_id se =? su_user_id su)%Z) us))
      by (rewrite Hf; simpl; auto).
    apply filter_In in Hm; destruct Hm as [Hm1 Hm2].
    apply in_map_iff in Hr; destruct Hr as [su [<- _]]; simpl in Hno.
    apply Z.eqb_eq in Hm2; apply (Hno m Hm1); auto.
Qed.

Lemma joined_users d st u :
  In u (map (fun r => se_user_id (fst r)) (joined_on d st))
  <-> In u (event_users d st).
Proof.
  unfold joined_on, event_users; rewrite !in_map_iff; split.
  - intros [r [<- Hr]]; apply filter_In in Hr; destruct Hr as [Hr Hd].
    exists (fst r); split; auto.
    apply filter_In; split; auto.
    eapply left_join_fst; eauto.
  - intros [se [<- Hse]]; apply filter_In in Hse; destruct Hse as [Hse Hd].
    destruct (left_join_covers _ (silver_users st) _ Hse) as [su Hsu].
    exists (se, su); split; auto.
    apply filter_In; split; auto.
Qed.

Lemma group_of_nonempty u rows :
  In u (map (fun r => se_user_id (fst r)) rows) -> group_of u rows <> [].
Proof.
  intros H; apply in_map_iff in H; destruct H as [r [Hu Hr]].
  assert (In r (group_of u rows)).
  { apply filter_In; split; auto; apply Z.eqb_eq; auto. }
  intros E; rewrite E in H; exact H.
Qed.

Lemma select_aggregates_In d now st r :
  In r (select_aggregates d now st) <->
  exists u, In u (event_users d st)
            /\ r = aggregate_group d now u (group_of u (joined_on d st)).
Proof.
  unfold select_aggregates; rewrite filter_In, in_map_iff; split.
  - intros [[u [<- Hu]] _]; exists u; split; auto.
    apply joined_users; eapply nodup_In; eauto.
  - intros [u [Hu ->]]; split.
    + exists u; split; auto; apply nodup_In, joined_users; auto.
    + simpl; apply Nat.ltb_lt.
      apply joined_users, group_of_nonempty in Hu.
      destruct (group_of u (joined_on d st)); simpl; [congruence | lia].
Qed.

Lemma select_aggregates_date d now st r :
  In r (select_aggregates d now st) -> activity_date r = d.
Proof. intros H; apply select_aggregates_In in H; destruct H as [u [_ ->]]; reflexivity. Qed.


Lemma select_aggregates_of_date d now st :
  filter (of_date d) (select_aggregates d now st) = select_aggregates d now st.
Proof.
  apply forallb_filter_id, forallb_forall; intros r Hr.
  unfold of_date; rewrite (select_aggregates_date _ _ _ _ Hr).
  apply date_eqb_refl.
Qed.

Lemma filter_none {A} (f : A -> bool) l :
  (forall x, In x l -> f x = false) -> filter f l = [].
Proof.
  induction l as [|x l IH]; simpl; intros H; [reflexivity|].
  rewrite (H x (or_introl eq_refl)); apply IH; auto.
Qed.

Lemma select_aggregates_other_date d d' now st :
  d' <> d -> filter (of_date d') (select_aggregates d now st) = [].
Proof.
  intros Hd; apply filter_none; intros r Hr.
  unfold of_date; rewrite (select_aggregates_date _ _ _ _ Hr).
  apply date_eqb_neq; congruence.
Qed.

Lemma distinct_keys_by_user (f : Z -> gold_row) us :
  (forall u, user_id (f u) = u) -> NoDup us -> distinct_keys (map f us).
Proof.
  intros Hf; induction 1 as [|u us Hu Hnd IH]; simpl; auto.
  split; auto.
  intros a Ha; apply in_map_iff in Ha; destruct Ha as [v [<- Hv]].
  unfold same_key; rewrite !Hf.
  replace (u =? v)%Z with false; [apply andb_false_r|].
  symmetry; apply Z.eqb_neq; intros ->; contradiction.
Qed.

Lemma select_aggregates_distinct d now st :
  distinct_keys (select_aggregates d now st).
Proof.
  unfold select_aggregates; apply distinct_keys_filter.
  apply distinct_keys_by_user; [reflexivity | apply NoDup_nodup].
Qed.

End Aggregates.

(** ** Counting what a computation adds to the trace *)

Section TraceLogic.

Variable p : io -> bool.

Lemma count_io_app (a b : list io) :
  count_io p (a ++ b) = count_io p a + count_io p b.
Proof. unfold count_io; rewrite filter_app, length_app; reflexivity. Qed.

Lemma emits_weaken {A} n n' (m : task A) :
  emits_le p n m -> n <= n' -> emits_le p n' m.
Proof.
  intros Hm Hn w; destruct (Hm w) as [ext [E1 E2]].
  exists ext; split; [exact E1 | lia].
Qed.

Lemma emits_pure {A} (f : world -> outcome A) :
  emits_le p 0 (fun w => (f w, w)).
Proof. intros w; exists []; simpl; rewrite app_nil_r; auto. Qed.

Lemma emits_ret {A} (a : A) : emits_le p 0 (ret a).
Proof. apply (emits_pure (fun _ => Returned a)). Qed.

Lemma emits_raise {A} e : emits_le p 0 (@raise A e).
Proof. apply (emits_pure (fun _ => Raised e)). Qed.

Lemma emits_logger l msg : emits_le p 0 (logger l msg).
Proof. intros w; exists []; simpl; rewrite app_nil_r; auto. Qed.

Lemma emits_update_db f : emits_le p 0 (update_db f).
Proof. intros w; exists []; simpl; rewrite app_nil_r; auto. Qed.

Lemma emits_update_xcom f : emits_le p 0 (update_xcom f).
Proof. intros w; exists []; simpl; rewrite app_nil_r; auto. Qed.

Lemma emits_record_io e :
  emits_le p (if p e then 1 else 0) (record_io e).
Proof.
  intros w; exists [e]; split; [reflexivity|].
  unfold count_io; simpl; destruct (p e); simpl; lia.
Qed.

Lemma emits_bind {A B} n1 n2 (m : task A) (k : A -> task B) :
  emits_le p n1 m -> (forall a, emits_le p n2 (k a)) ->
  emits_le p (n1 + n2) (bind m k).
Proof.
  intros Hm Hk w; unfold bind.
  destruct (Hm w) as [e1 [E1 C1]].
  destruct (m w) as [[a|e] w1]; simpl in *.
  - destruct (Hk a w1) as [e2 [E2 C2]].
    exists (e1 ++ e2); rewrite E2, E1, app_assoc, count_io_app.
    split; [reflexivity | lia].
  - exists e1; split; [exact E1 | lia].
Qed.

Lemma emits_try_except {A} n1 n2 (m : task A) c (h : exn -> task A) :
  emits_le p n1 m -> (forall e, emits_le p n2 (h e)) ->
  emits_le p (n1 + n2) (try_except m c h).
Proof.
  intros Hm Hh w; unfold try_except.
  destruct (Hm w) as [e1 [E1 C1]].
  destruct (m w) as [[a|e] w1]; simpl in *.
  - exists e1; split; [exact E1 | lia].
  - destruct (c (exn_kind e)).
    + destruct (Hh e w1) as [e2 [E2 C2]].
      exists (e1 ++ e2); rewrite E2, E1, app_assoc, count_io_app.
      split; [reflexivity | lia].
    + exists e1; split; [exact E1 | lia].
Qed.

Lemma emits_driver_error {A} n o (ok : task A) :
  emits_le p n ok -> emits_le p n (driver_error o ok).
Proof.
  intros Hok; destruct o as [msg|]; simpl; [|exact Hok].
  eapply emits_weaken; [apply emits_raise | lia].
Qed.

Lemma emits_if {A} n1 n2 (b : bool) (m1 m2 : task A) :
  emits_le p n1 m1 -> emits_le p n2 m2 ->
  emits_le p (n1 + n2) (if b then m1 else m2).
Proof.
  intros H1 H2; destruct b;
    [eapply emits_weaken; [exact H1|lia] | eapply emits_weaken; [exact H2|lia]].
Qed.

End TraceLogic.

Ltac emits_step :=
  first
    [ apply emits_ret | apply emits_raise | apply emits_logger
    | apply emits_update_db | apply emits_update_xcom | apply emits_record_io
    | apply emits_driver_error
    | eapply emits_bind; [|intro]
    | eapply emits_try_except; [|intro]
    | match goal with
      | |- emits_le _ _ (if _ then _ else _) => eapply emits_if
      | |- emits_le _ _ (match ?x with _ => _ end) => destruct x
      end
    | apply emits_pure ].

Section TraceOfTasks.

Variable p : io -> bool.
Variable E : env.
Variable ds : date.

Lemma emits_get_clickhouse_client t :
  emits_le p 0 (get_clickhouse_client E t).
Proof.
  unfold get_clickhouse_client, get_client.
  eapply emits_weaken; [repeat emits_step | simpl; lia].
Qed.

Lemma emits_execute_query s :
  emits_le p (cost p (Issued s)) (execute_query E s).
Proof.
  unfold execute_query, client_command.
  eapply emits_weaken; [repeat emits_step | unfold cost; simpl; lia].
Qed.

Lemma emits_execute_query_with_result s :
  emits_le p (cost p (Issued s)) (execute_query_with_result E s).
Proof.
  unfold execute_query_with_result, client_query.
  eapply emits_weaken; [repeat emits_step | unfold cost; simpl; lia].
Qed.

Lemma emits_time_sleep n : emits_le p (cost p (Slept n)) (time_sleep n).
Proof.
  unfold time_sleep.
  eapply emits_weaken; [repeat emits_step | unfold cost; simpl; lia].
Qed.

Lemma emits_wait_for_mutations n :
  emits_le p (n * (cost p (Issued wait_query) + cost p (Slept 1)))
           (wait_for_mutations E n).
Proof.
  induction n as [|n IH]; simpl wait_for_mutations.
  - apply emits_ret.
  - eapply emits_weaken.
    + eapply emits_bind; [apply (emits_execute_query_with_result wait_query) | intro].
      eapply emits_if; [apply emits_ret|].
      eapply emits_bind; [apply emits_time_sleep | intro; apply IH].
    + simpl; lia.
Qed.

End TraceOfTasks.

Ltac emits_task :=
  repeat first
    [ apply emits_get_clickhouse_client
    | apply emits_execute_query
    | match goal with
      | |- emits_le ?p _ (execute_query_with_result ?E ?s) =>
          apply (emits_execute_query_with_result p E s)
      end
    | apply emits_wait_for_mutations
    | emits_step ].

Section TraceOfDag.

Variable p : io -> bool.
Variable E : env.
Variable ds : date.
Variable run_id : string.

Lemma emits_validate_source_data :
  emits_le p (cost p (Issued (events_query ds)) + cost p (Issued users_query))
           (validate_source_data E ds).
Proof.
  unfold validate_source_data.
  eapply emits_weaken; [emits_task | simpl; lia].
Qed.

Lemma emits_delete_existing_partition :
  emits_le p (cost p (Issued (count_query ds)) + cost p (Issued (delete_query ds))
              + 30 * (cost p (Issued wait_query) + cost p (Slept 1)))
           (delete_existing_partition E ds).
Proof.
  unfold delete_existing_partition.
  eapply emits_weaken; [emits_task | simpl; lia].
Qed.

Lemma emits_compute_aggregations :
  emits_le p (cost p (Issued (insert_query ds)) + cost p (Issued (verify_query ds)))
           (compute_aggregations E ds).
Proof.
  unfold compute_aggregations.
  eapply emits_weaken; [emits_task | simpl; lia].
Qed.

Lemma emits_optimize_table :
  emits_le p (cost p (Issued (optimize_query (toYYYYMM ds))))
           (optimize_table E ds).
Proof.
  unfold optimize_table.
  eapply emits_weaken; [emits_task | simpl; lia].
Qed.

Lemma emits_validate_results :
  emits_le p (cost p (Issued (source_query ds)) + cost p (Issued (dest_query ds)))
           (validate_results E ds).
Proof.
  unfold validate_results.
  eapply emits_weaken; [emits_task | simpl; lia].
Qed.

Lemma emits_generate_report :
  emits_le p 0 (generate_report ds run_id).
Proof.
  intros w; unfold generate_report.
  destruct (emits_logger p INFO (render_report ds run_id (xcom w)) w)
    as [ext [E1 E2]].
  exists ext; split; auto.
Qed.

End TraceOfDag.

(** ** The tasks when nothing fails *)

Ltac unfold_task :=
  unfold bind, try_except, get_clickhouse_client, execute_query,
    execute_query_with_result, get_client, client_command, client_query,
    driver_error, bind, ret, raise, logger, record_io, update_db, update_xcom.

Ltac run_task Hc Hq := unfold_task; rewrite ?Hc, ?Hq; simpl.

Section NoFaults.

Variable E : env.
Variable ds : date.
Hypothesis Hc : forall t, connect_error E t = None.
Hypothesis Hq : forall s, query_error E s = None.

Lemma wait_for_mutations_ok n : forall w,
  exists lg,
    wait_for_mutations E n w
    = (Returned tt,
       mkWorld (wait_db n (db w)) (xcom w) lg (trace w ++ wait_io n (db w))).
Proof.
  induction n as [|n IH]; intros w; simpl.
  - exists (log w); unfold ret; rewrite app_nil_r; destruct w; reflexivity.
  - run_task Hc Hq.
    destruct (List.length (mutations (db w)) =? 0)%nat.
    + eexists; reflexivity.
    + unfold time_sleep; run_task Hc Hq.
      match goal with |- context [wait_for_mutations E n ?w'] =>
        destruct (IH w') as [lg Hlg]; simpl in Hlg; rewrite Hlg end.
      simpl; rewrite <- !app_assoc; simpl.
      eexists; reflexivity.
Qed.

End NoFaults.

Arguments wait_for_mutations : simpl never.
Arguments wait_db : simpl never.
Arguments wait_io : simpl never.

Section NoFaultsTasks.

Variable E : env.
Variable ds : date.
Hypothesis Hc : forall t, connect_error E t = None.
Hypothesis Hq : forall s, query_error E s = None.

Lemma validate_source_data_ok w :
  exists v lg,
    validate_source_data E ds w
    = (Returned v,
       mkWorld (db w)
               (mkContext (Some v) (deleted_rows (xcom w))
                          (aggregation_result (xcom w)) (final_validation (xcom w)))
               lg (trace w ++ [Issued (events_query ds); Issued users_query])).
Proof.
  unfold validate_source_data; run_task Hc Hq.
  destruct (List.length (event_times ds (db w)) =? 0)%nat; simpl;
    rewrite <- ?app_assoc; simpl; do 2 eexists; reflexivity.
Qed.

Lemma delete_existing_partition_ok w :
  exists lg,
    delete_existing_partition E ds w
    = (Returned tt,
       mkWorld (if (0 <? existing_count ds (db w))%nat
                then wait_db 30 (exec_delete (mutation_delay E) ds (db w))
                else db w)
               (mkContext (validation_result (xcom w))
                          (Some (existing_count ds (db w)))
                          (aggregation_result (xcom w)) (final_validation (xcom w)))
               lg
               (trace w ++ Issued (count_query ds)
                  :: (if (0 <? existing_count ds (db w))%nat
                      then Issued (delete_query ds)
                           :: wait_io 30 (exec_delete (mutation_delay E) ds (db w))
                      else []))).
Proof.
  unfold delete_existing_partition; run_task Hc Hq.
  change (List.length (filter (of_date ds) (gold_parts (db w)))) with (existing_count ds (db w)).
  destruct (0 <? existing_count ds (db w))%nat; simpl.
  - run_task Hc Hq.
    match goal with |- context [wait_for_mutations E 30 ?w'] =>
      destruct (wait_for_mutations_ok E Hq 30 w') as [lg Hlg]; simpl in Hlg;
        rewrite Hlg end.
    simpl; rewrite <- !app_assoc; simpl.
    eexists; reflexivity.
  - eexists; reflexivity.
Qed.

Lemma compute_aggregations_ok w :
  exists a lg,
    compute_aggregations E ds w
    = (Returned a,
       mkWorld (exec_insert (now64 E) ds (db w))
               (mkContext (validation_result (xcom w)) (deleted_rows (xcom w))
                          (Some a) (final_validation (xcom w)))
               lg
               (trace w ++ [Issued (insert_query ds); Issued (verify_query ds)])).
Proof.
  unfold compute_aggregations; run_task Hc Hq.
  rewrite <- ?app_assoc; simpl; do 2 eexists; reflexivity.
Qed.

Lemma optimize_table_ok w :
  exists lg,
    optimize_table E ds w
    = (Returned tt,
       mkWorld (exec_optimize (toYYYYMM ds) (db w)) (xcom w) lg
               (trace w ++ [Issued (optimize_query (toYYYYMM ds))])).
Proof.
  unfold optimize_table; run_task Hc Hq.
  eexists; reflexivity.
Qed.

End NoFaultsTasks.

(** ** The validation step and the report *)

Section Validation.

Variable E : env.
Variable ds : date.

Lemma bind_returned {A B} (m : task A) (k : A -> task B) w b w' :
  bind m k w = (Returned b, w') ->
  exists a w1, m w = (Returned a, w1) /\ k a w1 = (Returned b, w').
Proof.
  unfold bind; destruct (m w) as [[a|e] w1]; [eauto | discriminate].
Qed.

(** What [validate_results] does when it connects and its two queries
    are answered. *)
Lemma validate_results_ok w :
  connect_error E t_validate_results = None ->
  query_error E (source_query ds) = None ->
  query_error E (dest_query ds) = None ->
  let source_users := uniq (event_users ds (db w)) in
  let dest := filter (of_date ds) (gold_final (db w)) in
  exists lg,
    validate_results E ds w
    = (if validation_passed source_users (List.length dest)
       then Returned (mkFinalCheck ds source_users (List.length dest)
                                   (sum_of (map event_count dest)) true)
       else Raised (mkExn AirflowException
              ("Validation failed: Source had " ++ str_nat source_users
               ++ " users but destination has " ++ str_nat (List.length dest)
               ++ " rows")%string),
       mkWorld (db w)
               (if validation_passed source_users (List.length dest)
                then mkContext (validation_result (xcom w)) (deleted_rows (xcom w))
                       (aggregation_result (xcom w))
                       (Some (mkFinalCheck ds source_users (List.length dest)
                                (sum_of (map event_count dest)) true))
                else xcom w)
               lg
               (trace w ++ [Issued (source_query ds); Issued (dest_query ds)])).
Proof.
  intros Hc Hq1 Hq2 source_users dest; unfold validate_results.
  unfold_task; rewrite Hc, Hq1; simpl; rewrite Hq2; simpl.
  fold source_users; fold dest.
  destruct (validation_passed source_users (List.length dest)) eqn:Hv; simpl;
    rewrite <- ?app_assoc; simpl; eexists; reflexivity.
Qed.

(** Whatever fails or not, the step returns only on a passed check,
    and leaves the store as it found it. *)
Lemma validate_results_returned w v w' :
  validate_results E ds w = (Returned v, w') ->
  db w' = db w
  /\ validation_passed (uniq (event_users ds (db w)))
       (List.length (filter (of_date ds) (gold_final (db w)))) = true.
Proof.
  destruct (connect_error E t_validate_results) as [m|] eqn:Hc;
    [unfold validate_results; unfold_task; rewrite Hc; simpl; discriminate|].
  destruct (query_error E (source_query ds)) as [m|] eqn:Hq1;
    [unfold validate_results; unfold_task; rewrite Hc, Hq1; simpl; discriminate|].
  destruct (query_error E (dest_query ds)) as [m|] eqn:Hq2;
    [unfold validate_results; unfold_task; rewrite Hc, Hq1; simpl;
     rewrite Hq2; simpl; discriminate|].
  destruct (validate_results_ok w Hc Hq1 Hq2) as [lg Hok]; rewrite Hok.
  destruct (validation_passed _ _); [|discriminate].
  intros Heq; injection Heq as _ <-; auto.
Qed.

Lemma generate_report_total run_id w :
  generate_report ds run_id w
  = (Returned (render_report ds run_id (xcom w)),
     mkWorld (db w) (xcom w)
             (log w ++ [(INFO, render_report ds run_id (xcom w))]) (trace w)).
Proof. reflexivity. Qed.

End Validation.

(** * The claims *)

(** ** C2: the reconciliation check *)

Lemma validation_passed_iff a b :
  validation_passed a b = true <-> reconciled a b.
Proof.
  unfold validation_passed, reconciled.
  rewrite orb_true_iff, !andb_true_iff, !Nat.eqb_eq, !Nat.ltb_lt.
  unfold gt; tauto.
Qed.

(** C2.  When the validation step connects and its two queries are
    answered, it raises if and only if the invariant
    [(source_distinct_users = 0 /\ dest_rows = 0) \/
     (source_distinct_users > 0 /\ dest_rows > 0)] fails on the store it
    reads, and what it raises then is the validation failure.  Whatever
    the environment, a run of the DAG that returns leaves a store on which
    the invariant holds: a violation makes the run fail. *)
Theorem reconciliation_raises_iff E ds run_id w :
  (connect_error E t_validate_results = None ->
   query_error E (source_query ds) = None ->
   query_error E (dest_query ds) = None ->
   (raises (fst (validate_results E ds w))
    <-> ~ reconciled (source_distinct_users ds (db w)) (dest_rows ds (db w)))
   /\ (forall e, fst (validate_results E ds w) = Raised e ->
       e = mkExn AirflowException
             ("Validation failed: Source had "
              ++ str_nat (source_distinct_users ds (db w))
              ++ " users but destination has " ++ str_nat (dest_rows ds (db w))
              ++ " rows")%string))
  /\ (forall report w',
        dag_run E ds run_id w = (Returned report, w') ->
        reconciled (source_distinct_users ds (db w')) (dest_rows ds (db w'))).
Proof.
  split.
  - intros Hc Hq1 Hq2.
    destruct (validate_results_ok E ds w Hc Hq1 Hq2) as [lg Hok].
    rewrite Hok; simpl.
    fold (source_distinct_users ds (db w)); fold (dest_rows ds (db w)).
    rewrite <- validation_passed_iff.
    destruct (validation_passed _ _); simpl; split.
    + split; [intros [e He]; discriminate | intros Hn; exfalso; auto].
    + intros e He; discriminate.
    + split; [intros _ Hn; discriminate | intros _; eexists; reflexivity].
    + intros e He; injection He as <-; reflexivity.
  - intros report w' Hrun; unfold dag_run in Hrun.
    apply bind_returned in Hrun; destruct Hrun as [? [w1 [_ Hrun]]].
    apply bind_returned in Hrun; destruct Hrun as [? [w2 [_ Hrun]]].
    apply bind_returned in Hrun; destruct Hrun as [? [w3 [_ Hrun]]].
    apply bind_returned in Hrun; destruct Hrun as [? [w4 [_ Hrun]]].
    apply bind_returned in Hrun; destruct Hrun as [v [w5 [Hval Hrep]]].
    apply validate_results_returned in Hval; destruct Hval as [Hdb Hpass].
    rewrite generate_report_total in Hrep; injection Hrep as _ <-; simpl.
    rewrite Hdb; apply validation_passed_iff; exact Hpass.
Qed.

Lemma reconciliation_raises_iff_witness :
  (raises (fst (validate_results (calm 0) jan15 (fresh two_users)))
   <-> ~ reconciled (source_distinct_users jan15 two_users)
                    (dest_rows jan15 two_users))
  /\ (exists report w',
        dag_run (calm 0) jan15 "manual" (fresh two_users) = (Returned report, w')
        /\ reconciled (source_distinct_users jan15 (db w')) (dest_rows jan15 (db w'))).
Proof.
  split.
  - apply (proj1 (reconciliation_raises_iff (calm 0) jan15 "manual" (fresh two_users)));
      reflexivity.
  - destruct (dag_run (calm 0) jan15 "manual" (fresh two_users)) as [[report|e] w'] eqn:Hrun;
      [|vm_compute in Hrun; discriminate].
    exists report, w'; split; [reflexivity|].
    exact (proj2 (reconciliation_raises_iff (calm 0) jan15 "manual" (fresh two_users))
                 report w' Hrun).
Defined.

(** ** C10: users the dimension does not know *)

Lemma argMax_nullable_all_null {A B} (f : B -> option A * Z) (g : list B) :
  (forall r, In r g -> fst (f r) = None) -> argMax_nullable (map f g) = None.
Proof.
  intros Hnull; unfold argMax_nullable.
  replace (flat_map _ (map f g)) with (@nil (A * Z)); [reflexivity|].
  induction g as [|r g IH]; simpl; [reflexivity|].
  rewrite (Hnull r (or_introl eq_refl)); simpl.
  apply IH; intros r' Hr'; apply Hnull; simpl; auto.
Qed.

Lemma group_unmatched d st u r :
  (forall su, In su (silver_users st) -> su_user_id su <> u) ->
  In r (group_of u (joined_on d st)) -> snd r = su_default.
Proof.
  intros Hno Hr; unfold group_of, joined_on in Hr.
  apply filter_In in Hr; destruct Hr as [Hr Hu].
  apply filter_In in Hr; destruct Hr as [Hr _].
  apply Z.eqb_eq in Hu.
  apply (left_join_unmatched _ _ _ Hr); rewrite Hu; exact Hno.
Qed.

(** C10.  A user with an event on the date and no row in the user
    dimension still gets an aggregate row from the SELECT of the insert,
    with [user_full_name] and [user_email] the empty string; when nothing
    fails, the compute step returns and that row is in the destination. *)
Theorem missing_dimension_default E ds w u :
  In u (event_users ds (db w)) ->
  (forall su, In su (silver_users (db w)) -> su_user_id su <> u) ->
  exists r,
    In r (select_aggregates ds (now64 E) (db w))
    /\ user_id r = u /\ activity_date r = ds
    /\ user_full_name r = "" /\ user_email r = ""
    /\ (no_faults E ->
        exists a w', compute_aggregations E ds w = (Returned a, w')
                     /\ In r (gold_user_activity (db w'))).
Proof.
  intros Hu Hno.
  exists (aggregate_group ds (now64 E) u (group_of u (joined_on ds (db w)))).
  assert (Hin : In (aggregate_group ds (now64 E) u (group_of u (joined_on ds (db w))))
                   (select_aggregates ds (now64 E) (db w))).
  { apply select_aggregates_In; exists u; auto. }
  repeat split; auto.
  - simpl; rewrite argMax_nullable_all_null; [reflexivity|].
    intros r Hr; simpl; rewrite (group_unmatched _ _ _ _ Hno Hr); reflexivity.
  - simpl; rewrite argMax_nullable_all_null; [reflexivity|].
    intros r Hr; simpl; rewrite (group_unmatched _ _ _ _ Hno Hr); reflexivity.
  - intros [Hc Hq].
    destruct (compute_aggregations_ok E ds Hc Hq w) as [a [lg Hok]].
    eexists; eexists; split; [exact Hok|].
    simpl; apply in_or_app; right; exact Hin.
Qed.

Lemma missing_dimension_default_witness :
  exists r,
    In r (select_aggregates jan15 (now64 (calm 9)) two_users)
    /\ user_id r = 2%Z /\ activity_date r = jan15
    /\ user_full_name r = "" /\ user_email r = ""
    /\ exists a w', compute_aggregations (calm 9) jan15 (fresh two_users) = (Returned a, w')
                    /\ In r (gold_user_activity (db w')).
Proof.
  destruct (missing_dimension_default (calm 9) jan15 (fresh two_users) 2%Z)
    as [r [H1 [H2 [H3 [H4 [H5 H6]]]]]].
  - vm_compute; auto.
  - intros su [<-|[]]; discriminate.
  - exists r.
    refine (conj H1 (conj H2 (conj H3 (conj H4 (conj H5 (H6 _)))))).
    split; reflexivity.
Defined.

(** ** C8: the report *)

(** C8, as amended.  The report compiler returns a report for every run
    context and changes neither the store nor the context.  When the
    source-validation, aggregation or final-validation record is missing,
    each of its fields renders as N/A; a missing deleted-rows record
    renders as 0. *)
Theorem report_total_with_markers ds run_id :
  (forall w,
      generate_report ds run_id w
      = (Returned (render_report ds run_id (xcom w)),
         mkWorld (db w) (xcom w)
                 (log w ++ [(INFO, render_report ds run_id (xcom w))]) (trace w)))
  /\ (forall d a f,
        let lines := report_lines ds run_id (mkContext None d a f) in
        nth_error lines 7 = Some "  - Events Found: N/A"
        /\ nth_error lines 8 = Some "  - Unique Users: N/A"
        /\ nth_error lines 9 = Some "  - Time Range: N/A to N/A")
  /\ (forall v d f,
        let lines := report_lines ds run_id (mkContext v d None f) in
        nth_error lines 15 = Some "  - Rows Inserted: N/A"
        /\ nth_error lines 16 = Some "  - Total Events Aggregated: N/A"
        /\ nth_error lines 17 = Some "  - Unique Users: N/A")
  /\ (forall v d a,
        nth_error (report_lines ds run_id (mkContext v d a None)) 20
        = Some "  - Validation Passed: N/A")
  /\ (forall v a f,
        nth_error (report_lines ds run_id (mkContext v None a f)) 12
        = Some "  - Rows Deleted: 0").
Proof.
  repeat split; reflexivity.
Qed.

(** C8 fails as stated: with nothing pushed, the deleted-rows line of the
    report carries no marker; the report is the one of a run that pushed a
    count of zero. *)
Lemma report_deleted_rows_unmarked :
  deleted_rows empty_context = None
  /\ nth_error (report_lines jan15 "manual" empty_context) 12
     = Some "  - Rows Deleted: 0"
  /\ nth_error (report_lines jan15 "manual" empty_context) 12
     <> Some "  - Rows Deleted: N/A"
  /\ render_report jan15 "manual" empty_context
     = render_report jan15 "manual" (mkContext None (Some 0) None None).
Proof.
  repeat split; try reflexivity.
  vm_compute; discriminate.
Qed.

(** ** C4: what the tasks raise *)

Section RaiseLogic.

Lemma raises_weaken {A} (P Q : exn -> Prop) (m : task A) :
  raises_only P m -> (forall e, P e -> Q e) -> raises_only Q m.
Proof. intros Hm HPQ w e w' Hr; eauto. Qed.

Lemma raises_ret {A} P (a : A) : raises_only P (ret a).
Proof. intros w e w' Hr; discriminate. Qed.

Lemma raises_logger P l msg : raises_only P (logger l msg).
Proof. intros w e w' Hr; discriminate. Qed.

Lemma raises_update_db P f : raises_only P (update_db f).
Proof. intros w e w' Hr; discriminate. Qed.

Lemma raises_update_xcom P f : raises_only P (update_xcom f).
Proof. intros w e w' Hr; discriminate. Qed.

Lemma raises_record_io P e : raises_only P (record_io e).
Proof. intros w e' w' Hr; discriminate. Qed.

Lemma raises_raise {A} (P : exn -> Prop) e : P e -> raises_only P (@raise A e).
Proof. intros HP w e' w' Hr; injection Hr as <- _; exact HP. Qed.

Lemma raises_bind {A B} P (m : task A) (k : A -> task B) :
  raises_only P m -> (forall a, raises_only P (k a)) ->
  raises_only P (bind m k).
Proof.
  intros Hm Hk w e w' Hr; unfold bind in Hr.
  destruct (m w) as [[a|e1] w1] eqn:Hmw.
  - exact (Hk a w1 e w' Hr).
  - injection Hr as <- <-; exact (Hm w e1 w1 Hmw).
Qed.

Lemma raises_try_except {A} P (m : task A) c (h : exn -> task A) :
  raises_only (fun e => c (exn_kind e) = false -> P e) m ->
  (forall e, raises_only P (h e)) ->
  raises_only P (try_except m c h).
Proof.
  intros Hm Hh w e w' Hr; unfold try_except in Hr.
  destruct (m w) as [[a|e1] w1] eqn:Hmw; [discriminate|].
  destruct (c (exn_kind e1)) eqn:Hc.
  - exact (Hh e1 w1 e w' Hr).
  - injection Hr as <- <-; exact (Hm w e1 w1 Hmw Hc).
Qed.

Lemma raises_driver_error {A} (P : exn -> Prop) o (ok : task A) :
  (forall msg, P (mkExn ClickHouseError msg)) -> raises_only P ok ->
  raises_only P (driver_error o ok).
Proof.
  intros HP Hok; destruct o as [msg|]; simpl; [apply raises_raise, HP | exact Hok].
Qed.

Lemma raises_if {A} P (b : bool) (m1 m2 : task A) :
  raises_only P m1 -> raises_only P m2 -> raises_only P (if b then m1 else m2).
Proof. destruct b; auto. Qed.

End RaiseLogic.

Ltac raises_step :=
  first
    [ apply raises_ret | apply raises_logger | apply raises_update_db
    | apply raises_update_xcom | apply raises_record_io
    | apply raises_bind; [|intro]
    | apply raises_if
    | match goal with
      | |- raises_only _ (match ?x with _ => _ end) => destruct x
      end ].

Section RaisesOfTasks.

Variable E : env.
Variable ds : date.

Lemma prefix_append (pre rest : string) :
  String.prefix pre (pre ++ rest)%string = true.
Proof.
  induction pre as [|a pre IH]; simpl.
  - destruct rest; reflexivity.
  - destruct (ascii_dec a a); [exact IH | contradiction].
Qed.

Lemma raises_get_clickhouse_client t :
  raises_only infra_failure (get_clickhouse_client E t).
Proof.
  unfold get_clickhouse_client.
  apply raises_try_except; [intros w e w' _ Hf; discriminate|].
  intros e; apply raises_bind; [apply raises_logger | intro].
  apply raises_raise; split; [reflexivity | left; apply prefix_append].
Qed.

Lemma raises_execute_query s :
  raises_only infra_failure (execute_query E s).
Proof.
  unfold execute_query, client_command.
  apply raises_try_except.
  - apply raises_weaken with (P := from_driver);
      [|intros e He; unfold from_driver in He; rewrite He; discriminate].
    repeat raises_step.
    apply raises_driver_error; [reflexivity | apply raises_update_db].
  - intros e; apply raises_bind; [apply raises_logger | intro].
    apply raises_raise; split; [reflexivity | right; apply prefix_append].
Qed.

Lemma raises_execute_query_with_result s :
  raises_only infra_failure (execute_query_with_result E s).
Proof.
  unfold execute_query_with_result, client_query.
  apply raises_try_except.
  - apply raises_weaken with (P := from_driver);
      [|intros e He; unfold from_driver in He; rewrite He; discriminate].
    repeat raises_step.
    apply raises_driver_error; [reflexivity|].
    intros w e w' Hr; discriminate.
  - intros e; apply raises_bind; [apply raises_logger | intro].
    apply raises_raise; split; [reflexivity | right; apply prefix_append].
Qed.

Lemma raises_wait_for_mutations n :
  raises_only infra_failure (wait_for_mutations E n).
Proof.
  induction n as [|n IH]; unfold wait_for_mutations; fold wait_for_mutations.
  - apply raises_ret.
  - apply raises_bind; [apply raises_execute_query_with_result | intro].
    apply raises_if; [apply raises_ret|].
    unfold time_sleep; repeat raises_step; exact IH.
Qed.

End RaisesOfTasks.

Ltac raises_task :=
  repeat first
    [ apply raises_wait_for_mutations
    | apply raises_get_clickhouse_client
    | apply raises_execute_query
    | apply raises_execute_query_with_result
    | raises_step ].

Section RaisesOfDag.

Variable E : env.
Variable ds : date.
Variable run_id : string.

Lemma raises_validate_source_data :
  raises_only infra_failure (validate_source_data E ds).
Proof. unfold validate_source_data; raises_task. Qed.

Lemma raises_delete_existing_partition :
  raises_only infra_failure (delete_existing_partition E ds).
Proof.
  unfold delete_existing_partition; raises_task.
Qed.

Lemma raises_compute_aggregations :
  raises_only infra_failure (compute_aggregations E ds).
Proof. unfold compute_aggregations; raises_task. Qed.

Lemma raises_optimize_table :
  raises_only infra_failure (optimize_table E ds).
Proof.
  unfold optimize_table; raises_task.
  apply raises_try_except; [intros w e w' _ Hf; discriminate|].
  intros e; apply raises_logger.
Qed.

Lemma bind_raised {A B} (m : task A) (k : A -> task B) w e w' :
  bind m k w = (Raised e, w') ->
  m w = (Raised e, w')
  \/ exists a w1, m w = (Returned a, w1) /\ k a w1 = (Raised e, w').
Proof.
  unfold bind; destruct (m w) as [[a|e1] w1]; intros Hr;
    [right; eauto | left; injection Hr as <- <-; reflexivity].
Qed.

(** What [validate_results] can end with. *)
Lemma validate_results_raised w e w' :
  validate_results E ds w = (Raised e, w') ->
  infra_failure e
  \/ (db w' = db w
      /\ ~ reconciled (source_distinct_users ds (db w)) (dest_rows ds (db w))
      /\ e = mkExn AirflowException
               ("Validation failed: Source had "
                ++ str_nat (source_distinct_users ds (db w))
                ++ " users but destination has " ++ str_nat (dest_rows ds (db w))
                ++ " rows")%string).
Proof.
  intros Hr.
  destruct (connect_error E t_validate_results) as [m|] eqn:Hc.
  { left; unfold validate_results in Hr.
    apply bind_raised in Hr; destruct Hr as [Hr|[? [? [_ Hr]]]]; [discriminate|].
    apply bind_raised in Hr; destruct Hr as [Hr|[? [? [Hok _]]]].
    - exact (raises_get_clickhouse_client E _ _ _ _ Hr).
    - revert Hok; unfold_task; rewrite Hc; simpl; discriminate. }
  destruct (query_error E (source_query ds)) as [m|] eqn:Hq1.
  { left; revert Hr; unfold validate_results; unfold_task.
    rewrite Hc, Hq1; simpl; intros Hr; injection Hr as <- _.
    split; [reflexivity | right; exact (prefix_append "Query execution failed: " m)]. }
  destruct (query_error E (dest_query ds)) as [m|] eqn:Hq2.
  { left; revert Hr; unfold validate_results; unfold_task.
    rewrite Hc, Hq1; simpl; rewrite Hq2; simpl; intros Hr; injection Hr as <- _.
    split; [reflexivity | right; exact (prefix_append "Query execution failed: " m)]. }
  right.
  destruct (validate_results_ok E ds w Hc Hq1 Hq2) as [lg Hok].
  rewrite Hok in Hr; clear Hok.
  unfold source_distinct_users, dest_rows.
  destruct (validation_passed _ _) eqn:Hv; [discriminate|].
  injection Hr as <- <-; repeat split.
  intros Hrec; apply validation_passed_iff in Hrec.
  unfold source_distinct_users, dest_rows in Hrec; congruence.
Qed.

Lemma prefix_head a pre c s :
  String.prefix (String a pre) (String c s) = true -> c = a.
Proof.
  intros Hp.
  change ((if ascii_dec a c then String.prefix pre s else false) = true) in Hp.
  destruct (ascii_dec a c); [auto | discriminate Hp].
Qed.

Lemma infra_not_mismatch e : infra_failure e -> mismatch_text e = false.
Proof.
  unfold infra_failure, connectivity_text, query_text, mismatch_text.
  intros [_ [Hp|Hp]]; destruct (exn_str e) as [|c s]; try discriminate Hp;
    apply prefix_head in Hp; subst c; reflexivity.
Qed.

End RaisesOfDag.

(** C4, as amended.  Every failure a run of the DAG ends with has the
    same kind, [AirflowException].  It is told apart by its text only:
    either the text starts with the connectivity or the query prefix and
    not with the validation prefix, or it starts with the validation
    prefix, and then the reconciliation invariant fails on the store the
    run leaves. *)
Theorem failures_share_one_kind E ds run_id w e w' :
  dag_run E ds run_id w = (Raised e, w') ->
  exn_kind e = AirflowException
  /\ ((mismatch_text e = false
       /\ (connectivity_text e = true \/ query_text e = true))
      \/ (mismatch_text e = true
          /\ ~ reconciled (source_distinct_users ds (db w')) (dest_rows ds (db w')))).
Proof.
  assert (Hinfra : infra_failure e ->
            exn_kind e = AirflowException
            /\ ((mismatch_text e = false
                 /\ (connectivity_text e = true \/ query_text e = true))
                \/ (mismatch_text e = true
                    /\ ~ reconciled (source_distinct_users ds (db w'))
                                    (dest_rows ds (db w'))))).
  { intros Hi; split; [apply Hi|].
    left; split; [apply infra_not_mismatch; exact Hi | apply Hi]. }
  unfold dag_run; intros Hr.
  apply bind_raised in Hr; destruct Hr as [Hr|[? [w1 [_ Hr]]]];
    [exact (Hinfra (raises_validate_source_data E ds _ _ _ Hr))|].
  apply bind_raised in Hr; destruct Hr as [Hr|[? [w2 [_ Hr]]]];
    [exact (Hinfra (raises_delete_existing_partition E ds _ _ _ Hr))|].
  apply bind_raised in Hr; destruct Hr as [Hr|[? [w3 [_ Hr]]]];
    [exact (Hinfra (raises_compute_aggregations E ds _ _ _ Hr))|].
  apply bind_raised in Hr; destruct Hr as [Hr|[? [w4 [_ Hr]]]];
    [exact (Hinfra (raises_optimize_table E ds _ _ _ Hr))|].
  apply bind_raised in Hr; destruct Hr as [Hr|[? [w5 [_ Hr]]]].
  - apply validate_results_raised in Hr.
    destruct Hr as [Hi|[Hdb [Hrec He]]]; [exact (Hinfra Hi)|].
    subst e; split; [reflexivity|].
    right; split; [|rewrite Hdb; exact Hrec].
    reflexivity.
  - rewrite generate_report_total in Hr; discriminate Hr.
Qed.

Lemma failures_share_one_kind_witness :
  exists e w',
    dag_run (slow 100 0) jan15 "manual" (fresh stale_only) = (Raised e, w')
    /\ exn_kind e = AirflowException
    /\ ((mismatch_text e = false
         /\ (connectivity_text e = true \/ query_text e = true))
        \/ (mismatch_text e = true
            /\ ~ reconciled (source_distinct_users jan15 (db w'))
                            (dest_rows jan15 (db w')))).
Proof.
  destruct (dag_run (slow 100 0) jan15 "manual" (fresh stale_only))
    as [[report|e] w'] eqn:Hrun; [vm_compute in Hrun; discriminate|].
  exists e, w'; split; [reflexivity|].
  exact (failures_share_one_kind (slow 100 0) jan15 "manual" (fresh stale_only) e w' Hrun).
Defined.

(** C4 fails as stated: a reconciliation mismatch, a rejected statement
    and a refused connection end the run with failures of one and the
    same kind. *)
Lemma mismatch_kind_not_distinct :
  exists e_mismatch e_query e_connect,
    fst (dag_run (slow 100 0) jan15 "manual" (fresh stale_only)) = Raised e_mismatch
    /\ mismatch_text e_mismatch = true
    /\ fst (dag_run rejecting jan15 "manual" (fresh two_users)) = Raised e_query
    /\ query_text e_query = true
    /\ fst (dag_run unreachable jan15 "manual" (fresh two_users)) = Raised e_connect
    /\ connectivity_text e_connect = true
    /\ exn_kind e_mismatch = exn_kind e_query
    /\ exn_kind e_mismatch = exn_kind e_connect.
Proof.
  exists (mkExn AirflowException
            "Validation failed: Source had 0 users but destination has 1 rows"),
         (mkExn AirflowException "Query execution failed: Memory limit exceeded"),
         (mkExn AirflowException "ClickHouse connection failed: Connection refused").
  repeat split; vm_compute; reflexivity.
Qed.

(** ** C6: a failed OPTIMIZE *)

Section Maintenance.

Variable E : env.
Variable ds : date.

Lemma filter_nil_iff {A} (f : A -> bool) l :
  filter f l = [] <-> forall x, In x l -> f x = false.
Proof.
  split.
  - intros Hnil x Hx; destruct (f x) eqn:Hf; auto.
    assert (Hin : In x (filter f l)) by (apply filter_In; auto).
    rewrite Hnil in Hin; destruct Hin.
  - apply filter_none.
Qed.

Lemma replacing_merge_In l r : In r (replacing_merge l) -> In r l.
Proof.
  unfold replacing_merge.
  assert (Hgen : forall acc, In r (fold_left upsert l acc) -> In r acc \/ In r l).
  { induction l as [|x l IH]; intros acc Hr; simpl in *; auto.
    apply IH in Hr; destruct Hr as [Hr|Hr]; auto.
    apply upsert_In in Hr; destruct Hr as [->|Hr]; auto. }
  intros Hr; apply Hgen in Hr; destruct Hr as [[]|Hr]; exact Hr.
Qed.


Lemma dest_rows_zero d st : dest_rows d st = 0 <-> partition_rows d st = [].
Proof.
  unfold dest_rows, gold_final, partition_rows.
  rewrite filter_replacing_merge, length_zero_iff_nil.
  apply replacing_merge_nil.
Qed.


End Maintenance.

Section MaintenanceRun.

Variable E : env.
Variable ds : date.
Variable run_id : string.







End MaintenanceRun.



(** ** What the delete, the insert and the OPTIMIZE leave alone *)

Section Frame.

Variable E : env.
Variable ds : date.

Lemma emits_dag_run p run_id :
  emits_le p
    (cost p (Issued (events_query ds)) + cost p (Issued users_query)
     + (cost p (Issued (count_query ds)) + cost p (Issued (delete_query ds))
        + 30 * (cost p (Issued wait_query) + cost p (Slept 1)))
     + (cost p (Issued (insert_query ds)) + cost p (Issued (verify_query ds)))
     + cost p (Issued (optimize_query (toYYYYMM ds)))
     + (cost p (Issued (source_query ds)) + cost p (Issued (dest_query ds))))
    (dag_run E ds run_id).
Proof.
  unfold dag_run.
  eapply emits_weaken.
  - eapply emits_bind; [apply emits_validate_source_data | intro].
    eapply emits_bind; [apply emits_delete_existing_partition | intro].
    eapply emits_bind; [apply emits_compute_aggregations | intro].
    eapply emits_bind; [apply emits_optimize_table | intro].
    eapply emits_bind; [apply emits_validate_results | intro].
    apply emits_generate_report.
  - lia.
Qed.

Lemma count_io_zero p tr :
  count_io p tr = 0 -> forall e, In e tr -> p e = false.
Proof.
  unfold count_io; intros Hz e He.
  apply length_zero_iff_nil in Hz.
  exact (proj1 (filter_nil_iff p tr) Hz e He).
Qed.

Lemma filter_other_date d d' (l : list gold_row) :
  d' <> d -> filter (of_date d') (filter (of_date d) l) = [].
Proof.
  intros Hd; apply filter_none; intros r Hr; apply filter_In in Hr.
  destruct Hr as [_ Hr]; unfold of_date in *.
  apply date_eqb_eq in Hr; rewrite Hr; apply date_eqb_neq; congruence.
Qed.

Lemma filter_kept_date d d' (l : list gold_row) :
  d' <> d ->
  filter (of_date d') (filter (fun r => negb (of_date d r)) l)
  = filter (of_date d') l.
Proof.
  intros Hd; induction l as [|r l IH]; simpl; [reflexivity|].
  destruct (of_date d r) eqn:Hr; simpl.
  - rewrite IH; unfold of_date in *.
    apply date_eqb_eq in Hr; rewrite Hr.
    replace (date_eqb d d') with false; [reflexivity|].
    symmetry; apply date_eqb_neq; congruence.
  - rewrite IH; reflexivity.
Qed.

Lemma delete_frame delay d' st :
  d' <> ds -> partition_rows d' (exec_delete delay ds st) = partition_rows d' st.
Proof.
  intros Hd; unfold partition_rows, gold_parts; simpl.
  rewrite flat_map_app, !filter_app, filter_kept_date by exact Hd.
  destruct (delay =? 0)%nat; simpl; rewrite ?app_nil_r; [reflexivity|].
  rewrite filter_other_date by exact Hd; rewrite app_nil_r; reflexivity.
Qed.

Lemma insert_frame now d' st :
  d' <> ds -> partition_rows d' (exec_insert now ds st) = partition_rows d' st.
Proof.
  intros Hd; unfold partition_rows, gold_parts; simpl.
  rewrite !filter_app, select_aggregates_other_date by exact Hd.
  rewrite app_nil_r; reflexivity.
Qed.

Lemma in_partition_date p (r : gold_row) d :
  of_date d r = true -> in_partition p r = (toYYYYMM d =? p)%Z.
Proof.
  unfold of_date, in_partition; intros Hr; apply date_eqb_eq in Hr.
  rewrite Hr; reflexivity.
Qed.

Lemma filter_filter_date (f : gold_row -> bool) (b : bool) d l :
  (forall r, of_date d r = true -> f r = b) ->
  filter (of_date d) (filter f l)
  = if b then filter (of_date d) l else [].
Proof.
  intros Hf; induction l as [|r l IH]; simpl; [destruct b; reflexivity|].
  destruct (of_date d r) eqn:Hr.
  - rewrite (Hf r Hr); destruct b; simpl; rewrite ?Hr, IH; reflexivity.
  - destruct (f r); simpl; rewrite ?Hr, IH; reflexivity.
Qed.

(** What the OPTIMIZE of a month leaves of a date. *)
Lemma optimize_partition_rows p d st :
  filter (of_date d) (gold_user_activity (exec_optimize p st))
  = if (toYYYYMM d =? p)%Z
    then replacing_merge (filter (of_date d) (gold_user_activity st))
    else filter (of_date d) (gold_user_activity st).
Proof.
  simpl; rewrite filter_app, filter_replacing_merge.
  rewrite (filter_filter_date (in_partition p) (toYYYYMM d =? p)%Z)
    by (intros r Hr; apply in_partition_date; exact Hr).
  rewrite (filter_filter_date (fun r => negb (in_partition p r))
                              (negb (toYYYYMM d =? p)%Z))
    by (intros r Hr; rewrite (in_partition_date p r d Hr); reflexivity).
  destruct (toYYYYMM d =? p)%Z; simpl; rewrite ?app_nil_r; reflexivity.
Qed.

Lemma optimize_frame d' st :
  toYYYYMM d' <> toYYYYMM ds ->
  partition_rows d' (exec_optimize (toYYYYMM ds) st) = partition_rows d' st.
Proof.
  intros Hd; unfold partition_rows, gold_parts.
  rewrite !filter_app, optimize_partition_rows.
  replace (toYYYYMM d' =? toYYYYMM ds)%Z with false; [reflexivity|].
  symmetry; apply Z.eqb_neq; exact Hd.
Qed.

Lemma optimize_only_removes st r :
  In r (gold_parts (exec_optimize (toYYYYMM ds) st)) -> In r (gold_parts st).
Proof.
  unfold gold_parts; simpl; rewrite !in_app_iff.
  intros [Hr|[Hr|Hr]]; auto.
  - apply filter_In in Hr; tauto.
  - apply replacing_merge_In, filter_In in Hr; tauto.
Qed.

End Frame.

(** ** C5: the polling loop *)

Section Polling.


Lemma wait_db_S n st :
  wait_db (S n) st
  = if (List.length (mutations st) =? 0)%nat then st else wait_db n (tick st).
Proof. reflexivity. Qed.

Lemma pending_after_tick st t :
  pending_after (tick st) t = pending_after st (S t).
Proof. unfold pending_after; rewrite Nat.iter_succ_r; reflexivity. Qed.





End Polling.

Section PollingLog.

Variable E : env.
Variable ds : date.
Hypothesis Hc : forall t, connect_error E t = None.
Hypothesis Hq : forall s, query_error E s = None.

Lemma wait_for_mutations_S n :
  wait_for_mutations E (S n)
  = (result <- execute_query_with_result E wait_query ;;
     if (first_row result 0 =? 0)%nat then ret tt
     else time_sleep 1 ;; wait_for_mutations E n).
Proof. reflexivity. Qed.

Lemma wait_for_mutations_log n : forall w,
  exists ext,
    log (snd (wait_for_mutations E n w)) = log w ++ ext /\ Forall is_info ext.
Proof.
  induction n as [|n IH]; intros w.
  - exists []; simpl; rewrite app_nil_r; auto.
  - rewrite wait_for_mutations_S; run_task Hc Hq.
    destruct (List.length (mutations (db w)) =? 0)%nat.
    + eexists; split; [reflexivity|]; repeat constructor.
    + unfold time_sleep; run_task Hc Hq.
      match goal with |- context [wait_for_mutations E n ?w'] =>
        destruct (IH w') as [ext [Hext Hall]]; rewrite Hext end.
      simpl; rewrite <- app_assoc; eexists; split; [reflexivity|].
      constructor; [reflexivity | exact Hall].
Qed.

(** When nothing fails the delete step logs, and at level INFO only:
    no record tells a wait that ran out from one that did not. *)
Lemma delete_existing_partition_log w :
  exists ext,
    log (snd (delete_existing_partition E ds w)) = log w ++ ext
    /\ ext <> [] /\ Forall is_info ext.
Proof.
  unfold delete_existing_partition; run_task Hc Hq.
  destruct (0 <? List.length (filter (of_date ds) (gold_parts (db w))))%nat; simpl.
  - run_task Hc Hq.
    match goal with |- context [wait_for_mutations E 30 ?w'] =>
      destruct (wait_for_mutations_log 30 w') as [ext [Hext Hall]];
        destruct (wait_for_mutations_ok E Hq 30 w') as [lg Hok] end.
    rewrite Hok in Hext |- *; simpl in Hext |- *; rewrite Hext.
    rewrite <- !app_assoc; simpl.
    eexists; split; [reflexivity|]; split; [discriminate|].
    repeat (constructor; [reflexivity|]); exact Hall.
  - rewrite <- !app_assoc; simpl.
    eexists; split; [reflexivity|]; split; [discriminate|].
    repeat constructor.
Qed.

End PollingLog.

Section PollingRecords.

Variable E : env.
Variable ds : date.
Hypothesis Hc : forall t, connect_error E t = None.
Hypothesis Hq : forall s, query_error E s = None.




End PollingRecords.




(** ** Rows of one key and their versions *)

Section Versions.

Lemma same_key_trans a b c :
  same_key a b = true -> same_key b c = same_key a c.
Proof.
  intros Hab; unfold same_key.
  rewrite (same_key_date _ _ Hab), (same_key_user _ _ Hab); reflexivity.
Qed.

Lemma distinct_keys_upsert acc r :
  distinct_keys acc -> distinct_keys (upsert acc r).
Proof.
  induction acc as [|a acc IH]; simpl;
    [intros _; split; [intros ? [] | exact I]|].
  intros [Ha Hacc]; destruct (same_key a r) eqn:Hk.
  - destruct (_version a <=? _version r)%Z; simpl; split; auto.
    intros x Hx; rewrite (same_key_trans a r x Hk); auto.
  - simpl; split; auto.
    intros x Hx; apply upsert_In in Hx; destruct Hx as [->|Hx]; auto.
Qed.

Lemma distinct_keys_merge l : forall acc,
  distinct_keys acc -> distinct_keys (fold_left upsert l acc).
Proof.
  induction l as [|r l IH]; intros acc Hacc; simpl; auto.
  apply IH, distinct_keys_upsert, Hacc.
Qed.

Lemma distinct_keys_replacing_merge l : distinct_keys (replacing_merge l).
Proof. apply distinct_keys_merge; exact I. Qed.





End Versions.

(** ** What a merge keeps *)

Section MergeLaws.

Lemma same_key_refl a : same_key a a = true.
Proof. unfold same_key; rewrite date_eqb_refl, Z.eqb_refl; reflexivity. Qed.

(** Every key offered to the merge is a key of its result. *)
Lemma upsert_key_of acc r x :
  In x acc \/ x = r ->
  exists y, In y (upsert acc r) /\ same_key y x = true.
Proof.
  induction acc as [|a acc IH]; simpl.
  - intros [[]| ->]; exists r; split; [left; reflexivity | apply same_key_refl].
  - intros Hx; destruct (same_key a r) eqn:Hk.
    + destruct Hx as [[<-|Hx]| ->].
      * destruct (_version a <=? _version r)%Z.
        -- exists r; split; [left; reflexivity|].
           rewrite same_key_sym; exact Hk.
        -- exists a; split; [left; reflexivity | apply same_key_refl].
      * exists x; split; [right; exact Hx | apply same_key_refl].
      * destruct (_version a <=? _version r)%Z.
        -- exists r; split; [left; reflexivity | apply same_key_refl].
        -- exists a; split; [left; reflexivity | exact Hk].
    + destruct Hx as [[<-|Hx]|Hx].
      * exists a; split; [left; reflexivity | apply same_key_refl].
      * destruct (IH (or_introl Hx)) as [y [Hy Hyk]].
        exists y; split; [right; exact Hy | exact Hyk].
      * destruct (IH (or_intror Hx)) as [y [Hy Hyk]].
        exists y; split; [right; exact Hy | exact Hyk].
Qed.

Lemma merge_key_of l : forall acc x,
  In x acc \/ In x l ->
  exists y, In y (fold_left upsert l acc) /\ same_key y x = true.
Proof.
  induction l as [|r l IH]; intros acc x; simpl.
  - intros [Hx|[]]; exists x; split; [exact Hx | apply same_key_refl].
  - intros [Hx|[Hx|Hx]].
    + destruct (upsert_key_of acc r x (or_introl Hx)) as [y0 [Hy0 Hk0]].
      destruct (IH (upsert acc r) y0 (or_introl Hy0)) as [y [Hy Hk]].
      exists y; split; [exact Hy|].
      rewrite <- (same_key_trans y y0 x Hk); exact Hk0.
    + destruct (upsert_key_of acc r x (or_intror (eq_sym Hx))) as [y0 [Hy0 Hk0]].
      destruct (IH (upsert acc r) y0 (or_introl Hy0)) as [y [Hy Hk]].
      exists y; split; [exact Hy|].
      rewrite <- (same_key_trans y y0 x Hk); exact Hk0.
    + apply IH; right; exact Hx.
Qed.

(** Every row offered to the merge is out-ranked, or equalled, by a row
    of its key in the result. *)
Lemma upsert_dominates acc r x :
  In x acc \/ x = r ->
  exists y, In y (upsert acc r) /\ same_key y x = true
            /\ (_version x <= _version y)%Z.
Proof.
  induction acc as [|a acc IH]; simpl.
  - intros [[]| ->]; exists r.
    split; [left; reflexivity | split; [apply same_key_refl | lia]].
  - intros Hx; destruct (same_key a r) eqn:Hk.
    + destruct Hx as [[<-|Hx]| ->].
      * destruct (Z.leb_spec (_version a) (_version r)).
        -- exists r; split; [left; reflexivity|].
           split; [rewrite same_key_sym; exact Hk | lia].
        -- exists a; split; [left; reflexivity|].
           split; [apply same_key_refl | lia].
      * exists x; split; [right; exact Hx|].
        split; [apply same_key_refl | lia].
      * destruct (Z.leb_spec (_version a) (_version r)).
        -- exists r; split; [left; reflexivity|].
           split; [apply same_key_refl | lia].
        -- exists a; split; [left; reflexivity|].
           split; [exact Hk | lia].
    + destruct Hx as [[<-|Hx]|Hx].
      * exists a; split; [left; reflexivity|].
        split; [apply same_key_refl | lia].
      * destruct (IH (or_introl Hx)) as [y [Hy Hyk]].
        exists y; split; [right; exact Hy | exact Hyk].
      * destruct (IH (or_intror Hx)) as [y [Hy Hyk]].
        exists y; split; [right; exact Hy | exact Hyk].
Qed.

Lemma merge_dominates l : forall acc x,
  In x acc \/ In x l ->
  exists y, In y (fold_left upsert l acc) /\ same_key y x = true
            /\ (_version x <= _version y)%Z.
Proof.
  induction l as [|r l IH]; intros acc x; simpl.
  - intros [Hx|[]]; exists x.
    split; [exact Hx | split; [apply same_key_refl | lia]].
  - assert (Hstep : In x acc \/ x = r ->
              exists y, In y (fold_left upsert l (upsert acc r))
                        /\ same_key y x = true /\ (_version x <= _version y)%Z).
    { intros Hx.
      destruct (upsert_dominates acc r x Hx) as [y0 [Hy0 [Hk0 Hv0]]].
      destruct (IH (upsert acc r) y0 (or_introl Hy0)) as [y [Hy [Hk Hv]]].
      exists y; split; [exact Hy|].
      split; [rewrite <- (same_key_trans y y0 x Hk); exact Hk0 | lia]. }
    intros [Hx|[Hx|Hx]].
    + apply Hstep; left; exact Hx.
    + apply Hstep; right; symmetry; exact Hx.
    + apply IH; right; exact Hx.
Qed.

(** Two rows of one key offered in turn are worth the one that wins
    between them. *)
Lemma upsert_twice acc m b :
  same_key m b = true ->
  upsert (upsert acc m) b
  = upsert acc (if (_version m <=? _version b)%Z then b else m).
Proof.
  intros Hk; induction acc as [|c acc IH]; simpl.
  - rewrite Hk; reflexivity.
  - destruct (same_key c m) eqn:Hcm.
    + assert (Hcb : same_key c b = true)
        by (rewrite <- (same_key_trans c m b Hcm); exact Hk).
      destruct (Z.leb_spec (_version c) (_version m));
        destruct (Z.leb_spec (_version m) (_version b));
        simpl; rewrite ?Hk, ?Hcb, ?Hcm;
        repeat match goal with
               | |- context [(?u <=? ?v)%Z] => destruct (Z.leb_spec u v)
               end; try reflexivity; lia.
    + assert (Hcb : same_key c b = false).
      { rewrite same_key_sym, (same_key_trans m b c Hk), same_key_sym.
        exact Hcm. }
      destruct (Z.leb_spec (_version m) (_version b));
        simpl; rewrite ?Hcb, ?Hcm, IH;
        repeat match goal with
               | |- context [(?u <=? ?v)%Z] => destruct (Z.leb_spec u v)
               end; try reflexivity; lia.
Qed.

(** Rows of different keys can be offered in either order, when the key
    of one is in the table already. *)
Lemma upsert_comm acc x b :
  same_key x b = false ->
  (exists a, In a acc /\ same_key a b = true) ->
  upsert (upsert acc b) x = upsert (upsert acc x) b.
Proof.
  intros Hxb; induction acc as [|c acc IH]; intros [a [Ha Hab]];
    [destruct Ha|].
  simpl; destruct (same_key c b) eqn:Hcb.
  - assert (Hcx : same_key c x = false).
    { rewrite <- (same_key_trans c b x Hcb), same_key_sym; exact Hxb. }
    destruct (Z.leb_spec (_version c) (_version b)); simpl.
    + rewrite (same_key_sym b x), Hxb, Hcx; simpl; rewrite Hcb.
      destruct (Z.leb_spec (_version c) (_version b)); [reflexivity | lia].
    + rewrite Hcx; simpl; rewrite Hcb.
      destruct (Z.leb_spec (_version c) (_version b)); [lia | reflexivity].
  - destruct (same_key c x) eqn:Hcx.
    + destruct (Z.leb_spec (_version c) (_version x));
        repeat (simpl; rewrite ?Hcx, ?Hcb, ?Hxb);
        repeat match goal with
               | |- context [(?u <=? ?v)%Z] => destruct (Z.leb_spec u v)
               end; try reflexivity; try lia;
        repeat (simpl; rewrite ?Hcx, ?Hcb, ?Hxb); reflexivity.
    + repeat (simpl; rewrite ?Hcx, ?Hcb, ?Hxb).
      f_equal; apply IH.
      destruct Ha as [<-|Ha]; [rewrite Hab in Hcb; discriminate|].
      exists a; split; assumption.
Qed.

Lemma fold_upsert_comm l : forall acc b,
  (forall x, In x l -> same_key x b = false) ->
  (exists a, In a acc /\ same_key a b = true) ->
  fold_left upsert l (upsert acc b) = upsert (fold_left upsert l acc) b.
Proof.
  induction l as [|x l IH]; intros acc b Hl Hex; simpl; [reflexivity|].
  assert (Hxb : same_key x b = false) by (apply Hl; left; reflexivity).
  rewrite (upsert_comm acc x b Hxb Hex).
  apply IH; [intros y Hy; apply Hl; right; exact Hy|].
  destruct Hex as [a [Ha Hab]]; exists a; split; [|exact Hab].
  apply upsert_keeps; [exact Ha|].
  rewrite <- (same_key_trans a b x Hab), same_key_sym; exact Hxb.
Qed.

Lemma fold_upsert_one M : distinct_keys M -> forall acc b,
  fold_left upsert (upsert M b) acc = upsert (fold_left upsert M acc) b.
Proof.
  induction M as [|m M IH]; intros Hd acc b; simpl; [reflexivity|].
  destruct Hd as [Hm Hd]; destruct (same_key m b) eqn:Hk; simpl.
  - rewrite <- fold_upsert_comm.
    + rewrite (upsert_twice acc m b Hk); reflexivity.
    + intros x Hx.
      rewrite same_key_sym, (same_key_trans m b x Hk); apply Hm; exact Hx.
    + destruct (upsert_key_of acc m m (or_intror eq_refl)) as [y [Hy Hym]].
      exists y; split; [exact Hy|].
      rewrite <- (same_key_trans y m b Hym); exact Hk.
  - apply IH; exact Hd.
Qed.

(** Merging a list that was merged before is merging the list. *)
Lemma merge_absorbs B : forall acc,
  fold_left upsert (replacing_merge B) acc = fold_left upsert B acc.
Proof.
  induction B as [|b B IH] using rev_ind; intros acc; [reflexivity|].
  unfold replacing_merge in *; rewrite !fold_left_app; simpl.
  rewrite fold_upsert_one by (apply distinct_keys_merge; exact I).
  rewrite IH; reflexivity.
Qed.

Lemma replacing_merge_absorbs A B :
  replacing_merge (A ++ replacing_merge B) = replacing_merge (A ++ B).
Proof. unfold replacing_merge at 1 3; rewrite !fold_left_app; apply merge_absorbs. Qed.

End MergeLaws.

Section CompactionLaws.

Variable named : gold_row -> bool.

Lemma optimize_parts_adds_nothing st r :
  In r (gold_parts (optimize_parts named st)) -> In r (gold_parts st).
Proof.
  unfold gold_parts; simpl; rewrite !in_app_iff.
  intros [Hr|[Hr|Hr]]; auto.
  - apply filter_In in Hr; tauto.
  - apply replacing_merge_In, filter_In in Hr; tauto.
Qed.

(** A row that the compaction removes is superseded: a row of its key
    and of at least its version stays. *)
Lemma optimize_parts_supersedes st r :
  In r (gold_parts st) ->
  exists r', In r' (gold_parts (optimize_parts named st))
             /\ same_key r' r = true /\ (_version r <= _version r')%Z.
Proof.
  unfold gold_parts; simpl; intros Hr.
  apply in_app_or in Hr; destruct Hr as [Hr|Hr].
  - exists r; split; [apply in_or_app; left; exact Hr|].
    split; [apply same_key_refl | lia].
  - destruct (named r) eqn:Hn.
    + destruct (merge_dominates (filter named (gold_user_activity st)) [] r)
        as [y [Hy Hk]]; [right; apply filter_In; auto|].
      exists y; split; [|exact Hk].
      apply in_or_app; right; apply in_or_app; right; exact Hy.
    + exists r; split; [|split; [apply same_key_refl | lia]].
      apply in_or_app; right; apply in_or_app; left.
      apply filter_In; rewrite Hn; auto.
Qed.

Lemma optimize_parts_outside st d :
  (forall r, of_date d r = true -> named r = false) ->
  partition_rows d (optimize_parts named st) = partition_rows d st.
Proof.
  intros Hout; unfold partition_rows, gold_parts; simpl.
  rewrite !filter_app, filter_replacing_merge.
  rewrite (filter_filter_date named false) by exact Hout.
  rewrite (filter_filter_date (fun r => negb (named r)) true)
    by (intros r Hr; rewrite (Hout r Hr); reflexivity).
  rewrite app_nil_r; reflexivity.
Qed.

(** The deduplicated read of every date returns after the compaction
    what it returned before. *)
Lemma optimize_parts_final st d :
  whole_dates named ->
  filter (of_date d) (gold_final (optimize_parts named st))
  = filter (of_date d) (gold_final st).
Proof.
  intros Hwhole; unfold gold_final, gold_parts; simpl.
  rewrite !filter_replacing_merge, !filter_app, filter_replacing_merge.
  set (probe := mkGold d 0 0 0 0 0 0 0 0 0 "" "" 0 0 0).
  assert (Hb : forall r, of_date d r = true -> named r = named probe).
  { intros r Hr; apply Hwhole; apply date_eqb_eq; exact Hr. }
  rewrite (filter_filter_date named (named probe)) by exact Hb.
  rewrite (filter_filter_date (fun r => negb (named r)) (negb (named probe)))
    by (intros r Hr; rewrite (Hb r Hr); reflexivity).
  destruct (named probe); simpl.
  - apply replacing_merge_absorbs.
  - rewrite app_nil_r; reflexivity.
Qed.

End CompactionLaws.


Lemma in_partition_whole_dates p : whole_dates (in_partition p).
Proof. intros a b Hd; unfold in_partition; rewrite Hd; reflexivity. Qed.

(** ** C7: the scope of the mutations *)

(** C7, as amended.  The only statements a run issues that remove or add
    destination rows are the delete and the insert of the run's date and
    the OPTIMIZE of the partition named by the month of the date, the
    same statement for every date of the month.  The delete and the
    insert leave the rows of every other date as they are.  The OPTIMIZE,
    whatever rows the partition it names holds, adds no row, removes only
    rows that a row of the same key and of at least their version
    supersedes, leaves pending mutations and the rows of dates outside
    the named partition as they are and, the partition holding whole
    dates, leaves unchanged what the deduplicated read returns for every
    date. *)
Theorem mutations_scoped_to_partition E ds run_id :
  (forall w, exists ext,
      trace (snd (dag_run E ds run_id w)) = trace w ++ ext
      /\ forall s, In (Issued s) ext -> is_mutation s = true ->
           s = delete_query ds \/ s = insert_query ds
           \/ s = optimize_query (toYYYYMM ds))
  /\ (forall d, toYYYYMM d = toYYYYMM ds ->
        optimize_query (toYYYYMM d) = optimize_query (toYYYYMM ds))
  /\ (forall st d', d' <> ds ->
        partition_rows d' (apply_command E (delete_query ds) st)
        = partition_rows d' st
        /\ partition_rows d' (apply_command E (insert_query ds) st)
           = partition_rows d' st)
  /\ (forall p st,
        apply_command E (optimize_query p) st = optimize_parts (in_partition p) st
        /\ whole_dates (in_partition p))
  /\ (forall named st,
        (forall r, In r (gold_parts (optimize_parts named st)) ->
                   In r (gold_parts st))
        /\ (forall r, In r (gold_parts st) ->
              exists r', In r' (gold_parts (optimize_parts named st))
                         /\ same_key r' r = true
                         /\ (_version r <= _version r')%Z)
        /\ mutations (optimize_parts named st) = mutations st
        /\ (forall d, (forall r, of_date d r = true -> named r = false) ->
              partition_rows d (optimize_parts named st) = partition_rows d st)
        /\ (whole_dates named ->
            forall d, filter (of_date d) (gold_final (optimize_parts named st))
                      = filter (of_date d) (gold_final st))).
Proof.
  split; [|split; [|split; [|split]]].
  - intros w.
    destruct (emits_dag_run E ds (unscoped_mutation ds) run_id w) as [ext [Htr Hcount]].
    exists ext; split; [exact Htr|].
    assert (Hz : count_io (unscoped_mutation ds) ext = 0).
    { revert Hcount; unfold cost; simpl.
      rewrite date_eqb_refl, Z.eqb_refl; simpl; lia. }
    intros s Hs Hm; pose proof (count_io_zero _ _ Hz _ Hs) as Hsc.
    destruct s; simpl in Hm, Hsc; try discriminate Hm.
    + left; f_equal; apply date_eqb_eq.
      destruct (date_eqb target_date ds); [reflexivity | discriminate Hsc].
    + right; left; f_equal; apply date_eqb_eq.
      destruct (date_eqb target_date ds); [reflexivity | discriminate Hsc].
    + right; right; f_equal; apply Z.eqb_eq.
      destruct (partition =? toYYYYMM ds)%Z; [reflexivity | discriminate Hsc].
  - intros d Hd; rewrite Hd; reflexivity.
  - intros st d' Hd; split; [apply delete_frame | apply insert_frame]; exact Hd.
  - intros p st; split; [reflexivity | apply in_partition_whole_dates].
  - intros named st.
    split; [intros r; apply optimize_parts_adds_nothing|].
    split; [intros r; apply optimize_parts_supersedes|].
    split; [reflexivity|].
    split; [intros d; apply optimize_parts_outside|].
    intros Hwhole d; apply optimize_parts_final; exact Hwhole.
Qed.

Lemma mutations_scoped_to_partition_witness :
  partition_rows jan20 (apply_command (calm 0) (delete_query jan15) doubled)
  = partition_rows jan20 doubled
  /\ partition_rows jan20 (apply_command (calm 0) (insert_query jan15) doubled)
     = partition_rows jan20 doubled
  /\ filter (of_date jan20)
       (gold_final (apply_command (calm 0) (optimize_query (toYYYYMM jan15)) doubled))
     = filter (of_date jan20) (gold_final doubled)
  /\ (forall r, In r (gold_parts doubled) ->
        exists r',
          In r' (gold_parts
                   (apply_command (calm 0) (optimize_query (toYYYYMM jan15)) doubled))
          /\ same_key r' r = true /\ (_version r <= _version r')%Z).
Proof.
  pose proof (mutations_scoped_to_partition (calm 0) jan15 "manual")
    as [_ [_ [H1 [H2 H3]]]].
  assert (Hd : jan20 <> jan15) by discriminate.
  destruct (H2 (toYYYYMM jan15) doubled) as [Heq Hwhole].
  destruct (H3 (in_partition (toYYYYMM jan15)) doubled) as [_ [Hsup [_ [_ Hfin]]]].
  rewrite Heq.
  exact (conj (proj1 (H1 doubled jan20 Hd))
              (conj (proj2 (H1 doubled jan20 Hd))
                    (conj (Hfin Hwhole jan20) Hsup))).
Defined.

(** C7 fails as stated: the compaction is not scoped to the date.  A run
    for 15 January and a run for 20 January issue one and the same
    OPTIMIZE, which names the partition of January 2024; a partition that
    holds the rows of the one date and no others does not hold the rows
    of the other date and no others. *)
Lemma compaction_names_the_month :
  jan15 <> jan20
  /\ In (Issued (optimize_query 202401))
        (trace (snd (dag_run (calm noon20) jan15 "manual" (fresh doubled))))
  /\ In (Issued (optimize_query 202401))
        (trace (snd (dag_run (calm noon20) jan20 "manual" (fresh doubled))))
  /\ (forall named : gold_row -> bool,
        (forall r, named r = of_date jan15 r) ->
        exists r, named r <> of_date jan20 r).
Proof.
  split; [discriminate|].
  split; [vm_compute; auto 20|].
  split; [vm_compute; auto 20|].
  intros named H15; exists (stale_row jan15 9 1000).
  rewrite H15; vm_compute; discriminate.
Qed.

(** On a table partitioned by month, the compaction of a run for 15
    January removes a superseded row of 20 January. *)
Example compaction_touches_other_date :
  jan20 <> jan15
  /\ partition_rows jan20 doubled
     = [stale_row jan20 5 1000; stale_row jan20 5 2000]
  /\ partition_rows jan20
       (apply_command (calm noon20) (optimize_query (toYYYYMM jan15)) doubled)
     = [stale_row jan20 5 2000]
  /\ partition_rows jan20
       (db (snd (dag_run (calm noon20) jan15 "manual" (fresh doubled))))
     = [stale_row jan20 5 2000].
Proof.
  split; [discriminate|].
  repeat split; vm_compute; reflexivity.
Qed.



(** ** C1: running twice *)

Section RunTwice.

Variable E : env.
Variable ds : date.
Hypothesis Hc : forall t, connect_error E t = None.
Hypothesis Hq : forall s, query_error E s = None.

(** The whole run when nothing fails. *)
Lemma dag_run_ok run_id w :
  let st' := run_db E ds (db w) in
  let dest := filter (of_date ds) (gold_final st') in
  validation_passed (source_distinct_users ds st') (List.length dest) = true ->
  exists report w',
    dag_run E ds run_id w = (Returned report, w')
    /\ db w' = st'
    /\ final_validation (xcom w')
       = Some (mkFinalCheck ds (source_distinct_users ds st') (List.length dest)
                            (sum_of (map event_count dest)) true).
Proof.
  intros st' dest Hpass; unfold dag_run.
  unfold bind at 1.
  destruct (validate_source_data_ok E ds Hc Hq w) as [v [lg1 H1]]; rewrite H1.
  unfold bind at 1.
  match goal with |- context [delete_existing_partition E ds ?w1] =>
    destruct (delete_existing_partition_ok E ds Hc Hq w1) as [lg2 H2];
      rewrite H2 end.
  unfold bind at 1.
  match goal with |- context [compute_aggregations E ds ?w2] =>
    destruct (compute_aggregations_ok E ds Hc Hq w2) as [a [lg3 H3]];
      rewrite H3 end.
  unfold bind at 1.
  match goal with |- context [optimize_table E ds ?w3] =>
    destruct (optimize_table_ok E ds Hc Hq w3) as [lg4 H4]; rewrite H4 end.
  unfold bind at 1.
  match goal with |- context [validate_results E ds ?w4] =>
    destruct (validate_results_ok E ds w4 (Hc _) (Hq _) (Hq _)) as [lg5 H5];
      rewrite H5 end.
  simpl db.
  change (exec_optimize (toYYYYMM ds)
            (exec_insert (now64 E) ds
               (if (0 <? existing_count ds (db w))%nat
                then wait_db 30 (exec_delete (mutation_delay E) ds (db w))
                else db w))) with st'.
  fold dest.
  unfold source_distinct_users in Hpass; rewrite Hpass.
  rewrite generate_report_total.
  do 2 eexists; split; [reflexivity|]; split; reflexivity.
Qed.

End RunTwice.

Section CleanRecompute.

Lemma tick_tables st :
  silver_events (tick st) = silver_events st
  /\ silver_users (tick st) = silver_users st
  /\ gold_user_activity (tick st) = gold_user_activity st.
Proof. repeat split. Qed.

Lemma wait_db_tables n : forall st,
  silver_events (wait_db n st) = silver_events st
  /\ silver_users (wait_db n st) = silver_users st
  /\ gold_user_activity (wait_db n st) = gold_user_activity st.
Proof.
  induction n as [|n IH]; intros st; [repeat split|].
  rewrite wait_db_S.
  destruct (List.length (mutations st) =? 0)%nat; [repeat split|].
  destruct (IH (tick st)) as [H1 [H2 H3]]; rewrite H1, H2, H3; repeat split.
Qed.

Lemma wait_db_settled n : forall st,
  pending_after st n = 0 -> mutations (wait_db n st) = [].
Proof.
  induction n as [|n IH]; intros st Hz.
  - apply length_zero_iff_nil; exact Hz.
  - rewrite wait_db_S.
    destruct (List.length (mutations st) =? 0)%nat eqn:Hl.
    + apply length_zero_iff_nil, Nat.eqb_eq; exact Hl.
    + apply IH; rewrite pending_after_tick; exact Hz.
Qed.

(** Mutations that need at most [S t] seconds are done after [S t]
    seconds. *)
Lemma drained t : forall st,
  (forall m, In m (mutations st) -> mut_remaining m <= S t) ->
  mutations (Nat.iter (S t) tick st) = [].
Proof.
  induction t as [|t IH]; intros st Hle.
  - simpl; unfold settle; apply filter_none.
    intros m Hm; apply in_map_iff in Hm; destruct Hm as [m0 [<- Hm0]]; simpl.
    apply Hle in Hm0; destruct (mut_remaining m0) as [|[|k]]; simpl; auto; lia.
  - rewrite Nat.iter_succ_r; apply IH.
    intros m Hm; simpl in Hm; unfold settle in Hm.
    apply filter_In in Hm; destruct Hm as [Hm _].
    apply in_map_iff in Hm; destruct Hm as [m0 [<- Hm0]]; simpl.
    apply Hle in Hm0; lia.
Qed.

Lemma delete_drained delay d st :
  mutations st = [] -> delay <= 30 ->
  pending_after (exec_delete delay d st) 30 = 0.
Proof.
  intros Hm Hd; unfold pending_after; rewrite drained; [reflexivity|].
  simpl; rewrite Hm; simpl.
  destruct (delay =? 0)%nat; simpl; [tauto|].
  intros m [<-|[]]; simpl; lia.
Qed.

Lemma select_aggregates_silver d now st1 st2 :
  silver_events st1 = silver_events st2 ->
  silver_users st1 = silver_users st2 ->
  select_aggregates d now st1 = select_aggregates d now st2.
Proof.
  intros He Hu; unfold select_aggregates, joined_on; rewrite He, Hu; reflexivity.
Qed.

(** The delete phase when the store is done with the delete within the
    wait. *)
Lemma after_delete_clean E ds st :
  mutations st = [] -> mutation_delay E <= 30 ->
  mutations (after_delete E ds st) = []
  /\ filter (of_date ds) (gold_user_activity (after_delete E ds st)) = []
  /\ silver_events (after_delete E ds st) = silver_events st
  /\ silver_users (after_delete E ds st) = silver_users st.
Proof.
  intros Hm Hd; unfold after_delete.
  destruct (0 <? existing_count ds st)%nat eqn:Hx.
  - destruct (wait_db_tables 30 (exec_delete (mutation_delay E) ds st))
      as [H1 [H2 H3]].
    rewrite H1, H2, H3, wait_db_settled by (apply delete_drained; assumption).
    repeat split; simpl.
    apply filter_none; intros r Hr; apply filter_In in Hr.
    destruct Hr as [_ Hr]; apply negb_true_iff; exact Hr.
  - repeat split; [exact Hm|].
    apply Nat.ltb_ge in Hx.
    unfold existing_count, partition_rows, gold_parts in Hx.
    rewrite Hm in Hx; simpl in Hx.
    apply length_zero_iff_nil; lia.
Qed.

(** What a run leaves of the date then: the rows of its own insert. *)
Lemma run_db_clean E ds st :
  mutations st = [] -> mutation_delay E <= 30 ->
  mutations (run_db E ds st) = []
  /\ silver_events (run_db E ds st) = silver_events st
  /\ silver_users (run_db E ds st) = silver_users st
  /\ partition_rows ds (run_db E ds st) = select_aggregates ds (now64 E) st
  /\ filter (of_date ds) (gold_final (run_db E ds st))
     = select_aggregates ds (now64 E) st.
Proof.
  intros Hm Hd.
  destruct (after_delete_clean E ds st Hm Hd) as [H1 [H2 [H3 H4]]].
  assert (Hparts : partition_rows ds (run_db E ds st)
                   = select_aggregates ds (now64 E) st).
  { unfold partition_rows, gold_parts, run_db.
    change (mutations (exec_optimize _ (exec_insert _ _ ?s))) with (mutations s).
    rewrite H1; simpl flat_map; rewrite app_nil_l.
    rewrite optimize_partition_rows, Z.eqb_refl.
    simpl gold_user_activity; rewrite filter_app, H2, app_nil_l.
    rewrite select_aggregates_of_date.
    rewrite replacing_merge_distinct by apply select_aggregates_distinct.
    apply select_aggregates_silver; assumption. }
  repeat split; try assumption.
  unfold gold_final; rewrite filter_replacing_merge.
  change (filter (of_date ds) (gold_parts (run_db E ds st)))
    with (partition_rows ds (run_db E ds st)).
  rewrite Hparts; apply replacing_merge_distinct, select_aggregates_distinct.
Qed.

End CleanRecompute.

Section RowCount.

Lemma nodup_same_length (l1 l2 : list Z) :
  (forall u, In u l1 <-> In u l2) ->
  List.length (nodup Z.eq_dec l1) = List.length (nodup Z.eq_dec l2).
Proof.
  intros Hsame; apply Nat.le_antisymm;
    apply NoDup_incl_length; try apply NoDup_nodup;
    intros u Hu; apply nodup_In; apply nodup_In in Hu; apply Hsame; exact Hu.
Qed.

Lemma having_always d now st :
  select_aggregates d now st
  = map (fun u => aggregate_group d now u (group_of u (joined_on d st)))
        (nodup Z.eq_dec (map (fun r => se_user_id (fst r)) (joined_on d st))).
Proof.
  unfold select_aggregates; apply forallb_filter_id, forallb_forall.
  intros r Hr; apply in_map_iff in Hr; destruct Hr as [u [<- Hu]]; simpl.
  apply nodup_In, group_of_nonempty in Hu.
  destruct (group_of u (joined_on d st)); [congruence | reflexivity].
Qed.

(** One row per distinct user with an event on the date. *)
Lemma select_aggregates_length d now st :
  List.length (select_aggregates d now st) = source_distinct_users d st.
Proof.
  rewrite having_always, length_map.
  unfold source_distinct_users, uniq; apply nodup_same_length.
  intros u; apply joined_users.
Qed.

Lemma select_aggregates_users d now st :
  NoDup (map user_id (select_aggregates d now st))
  /\ forall u, In u (map user_id (select_aggregates d now st))
               <-> In u (event_users d st).
Proof.
  rewrite having_always, map_map; simpl; rewrite map_id; split.
  - apply NoDup_nodup.
  - intros u; rewrite nodup_In; apply joined_users.
Qed.

Lemma select_aggregates_unstamped d now st :
  map unstamped (select_aggregates d now st) = select_aggregates d 0 st.
Proof. rewrite !having_always, map_map; reflexivity. Qed.

End RowCount.

Section TwoRuns.

Lemma validation_passed_same n : validation_passed n n = true.
Proof. unfold validation_passed; destruct n; reflexivity. Qed.

Lemma source_distinct_users_silver d st1 st2 :
  silver_events st1 = silver_events st2 ->
  source_distinct_users d st1 = source_distinct_users d st2.
Proof.
  intros He; unfold source_distinct_users, event_users; rewrite He; reflexivity.
Qed.

(** A run in which nothing fails and the store is done with the delete
    within the wait. *)
Lemma clean_run E ds run_id w :
  no_faults E -> mutations (db w) = [] -> mutation_delay E <= 30 ->
  exists report w',
    dag_run E ds run_id w = (Returned report, w')
    /\ mutations (db w') = []
    /\ silver_events (db w') = silver_events (db w)
    /\ silver_users (db w') = silver_users (db w)
    /\ partition_rows ds (db w') = select_aggregates ds (now64 E) (db w)
    /\ final_validation (xcom w')
       = Some (mkFinalCheck ds (source_distinct_users ds (db w))
                 (source_distinct_users ds (db w))
                 (sum_of (map event_count (select_aggregates ds (now64 E) (db w))))
                 true).
Proof.
  intros [Hc Hq] Hm Hd.
  destruct (run_db_clean E ds (db w) Hm Hd) as [H1 [H2 [H3 [H4 H5]]]].
  assert (Hsrc : source_distinct_users ds (run_db E ds (db w))
                 = source_distinct_users ds (db w))
    by (apply source_distinct_users_silver; exact H2).
  destruct (dag_run_ok E ds Hc Hq run_id w) as [report [w' [Hrun [Hdb Hfv]]]].
  { rewrite H5, select_aggregates_length, Hsrc; apply validation_passed_same. }
  exists report, w'; rewrite Hdb; repeat split; try assumption.
  rewrite Hfv, H5, select_aggregates_length, Hsrc; reflexivity.
Qed.

Lemma category_totals_unstamped l :
  map category_totals (map unstamped l) = map category_totals l.
Proof. rewrite map_map; reflexivity. Qed.

Lemma event_count_unstamped l :
  map event_count (map unstamped l) = map event_count l.
Proof. rewrite map_map; reflexivity. Qed.

End TwoRuns.

Section SettledWithinWait.

Lemma delete_settles delay d st :
  done_within 30 st -> delay <= 30 ->
  pending_after (exec_delete delay d st) 30 = 0.
Proof.
  intros Hm Hd; unfold pending_after; rewrite drained; [reflexivity|].
  simpl; intros m Hin; apply in_app_or in Hin; destruct Hin as [Hin|Hin].
  - apply Hm; exact Hin.
  - destruct (delay =? 0)%nat; [destruct Hin|].
    destruct Hin as [<-|[]]; simpl; lia.
Qed.

(** The delete phase when every pending mutation and the delete itself
    are done within the wait: no row of the date is left to read. *)
Lemma after_delete_settled E ds st :
  done_within 30 st -> mutation_delay E <= 30 ->
  partition_rows ds (after_delete E ds st) = []
  /\ done_within 30 (after_delete E ds st)
  /\ silver_events (after_delete E ds st) = silver_events st
  /\ silver_users (after_delete E ds st) = silver_users st.
Proof.
  intros Hm Hd; unfold after_delete.
  destruct (0 <? existing_count ds st)%nat eqn:Hx.
  - destruct (wait_db_tables 30 (exec_delete (mutation_delay E) ds st))
      as [H1 [H2 H3]].
    assert (Hmut : mutations (wait_db 30 (exec_delete (mutation_delay E) ds st)) = [])
      by (apply wait_db_settled, delete_settles; assumption).
    split; [|split; [|split; assumption]].
    + unfold partition_rows, gold_parts; rewrite Hmut, H3; simpl.
      apply filter_none; intros r Hr; apply filter_In in Hr.
      destruct Hr as [_ Hr]; apply negb_true_iff; exact Hr.
    + intros m Hin; rewrite Hmut in Hin; destruct Hin.
  - split; [|split; [exact Hm | split; reflexivity]].
    apply Nat.ltb_ge in Hx; unfold existing_count in Hx.
    apply length_zero_iff_nil; lia.
Qed.

(** What a run leaves of the date then: the rows of its own insert, for
    the plain read and for the deduplicated one. *)
Lemma run_db_settled E ds st :
  done_within 30 st -> mutation_delay E <= 30 ->
  partition_rows ds (run_db E ds st) = select_aggregates ds (now64 E) st
  /\ filter (of_date ds) (gold_final (run_db E ds st))
     = select_aggregates ds (now64 E) st
  /\ done_within 30 (run_db E ds st)
  /\ silver_events (run_db E ds st) = silver_events st
  /\ silver_users (run_db E ds st) = silver_users st.
Proof.
  intros Hm Hd.
  destruct (after_delete_settled E ds st Hm Hd) as [H1 [H2 [H3 H4]]].
  assert (Hparts : partition_rows ds (run_db E ds st)
                   = select_aggregates ds (now64 E) st).
  { unfold partition_rows, gold_parts in H1 |- *.
    rewrite filter_app in H1 |- *.
    apply app_eq_nil in H1; destruct H1 as [Hp Hg].
    unfold run_db.
    change (mutations (exec_optimize _ (exec_insert _ _ ?s))) with (mutations s).
    rewrite Hp, app_nil_l.
    rewrite optimize_partition_rows, Z.eqb_refl.
    simpl gold_user_activity; rewrite filter_app, Hg, app_nil_l.
    rewrite select_aggregates_of_date.
    rewrite replacing_merge_distinct by apply select_aggregates_distinct.
    apply select_aggregates_silver; assumption. }
  split; [exact Hparts|].
  split; [|split; [exact H2 | split; assumption]].
  unfold gold_final; rewrite filter_replacing_merge.
  change (filter (of_date ds) (gold_parts (run_db E ds st)))
    with (partition_rows ds (run_db E ds st)).
  rewrite Hparts; apply replacing_merge_distinct, select_aggregates_distinct.
Qed.

(** A run in which nothing fails and every delete mutation, pending at
    the start or issued by the run, is done within the wait. *)
Lemma settled_run E ds run_id w :
  no_faults E -> done_within 30 (db w) -> mutation_delay E <= 30 ->
  exists report w',
    dag_run E ds run_id w = (Returned report, w')
    /\ done_within 30 (db w')
    /\ silver_events (db w') = silver_events (db w)
    /\ silver_users (db w') = silver_users (db w)
    /\ partition_rows ds (db w') = select_aggregates ds (now64 E) (db w)
    /\ filter (of_date ds) (gold_final (db w'))
       = select_aggregates ds (now64 E) (db w)
    /\ final_validation (xcom w')
       = Some (mkFinalCheck ds (source_distinct_users ds (db w))
                 (source_distinct_users ds (db w))
                 (sum_of (map event_count (select_aggregates ds (now64 E) (db w))))
                 true).
Proof.
  intros [Hc Hq] Hm Hd.
  destruct (run_db_settled E ds (db w) Hm Hd) as [H1 [H2 [H3 [H4 H5]]]].
  assert (Hsrc : source_distinct_users ds (run_db E ds (db w))
                 = source_distinct_users ds (db w))
    by (apply source_distinct_users_silver; exact H4).
  destruct (dag_run_ok E ds Hc Hq run_id w) as [report [w' [Hrun [Hdb Hfv]]]].
  { rewrite H2, select_aggregates_length, Hsrc; apply validation_passed_same. }
  exists report, w'; rewrite Hdb.
  refine (conj Hrun (conj H3 (conj H4 (conj H5 (conj H1 (conj H2 _)))))).
  rewrite Hfv, H2, select_aggregates_length, Hsrc; reflexivity.
Qed.

End SettledWithinWait.

(** C1, as amended.  Take two runs for the same date, one after the
    other on an unchanged source, in which nothing fails and every delete
    mutation on the destination, pending when the first run starts or
    issued by a run, needs at most 30 seconds, so that the delete phase
    has removed the rows of the date before the insert.  Both return;
    after each the rows of the date are the ones its own insert wrote,
    and the two generations agree in everything except the two stamps:
    same row count, same per-category counts per user, and the same
    validation record with a passed check. *)
Theorem idempotent_recompute E1 E2 ds id1 id2 w :
  no_faults E1 -> no_faults E2 ->
  done_within 30 (db w) ->
  mutation_delay E1 <= 30 -> mutation_delay E2 <= 30 ->
  exists report1 w1 report2 w2,
    dag_run E1 ds id1 w = (Returned report1, w1)
    /\ dag_run E2 ds id2 (fresh (db w1)) = (Returned report2, w2)
    /\ partition_rows ds (db w1) = select_aggregates ds (now64 E1) (db w)
    /\ partition_rows ds (db w2) = select_aggregates ds (now64 E2) (db w)
    /\ map unstamped (partition_rows ds (db w1))
       = map unstamped (partition_rows ds (db w2))
    /\ List.length (partition_rows ds (db w1))
       = List.length (partition_rows ds (db w2))
    /\ map category_totals (partition_rows ds (db w1))
       = map category_totals (partition_rows ds (db w2))
    /\ final_validation (xcom w1) = final_validation (xcom w2)
    /\ option_map fv_validation_passed (final_validation (xcom w1)) = Some true.
Proof.
  intros Hf1 Hf2 Hm Hd1 Hd2.
  destruct (settled_run E1 ds id1 w Hf1 Hm Hd1)
    as [report1 [w1 [Hrun1 [Hm1 [He1 [Hu1 [Hp1 [_ Hfv1]]]]]]]].
  destruct (settled_run E2 ds id2 (fresh (db w1)) Hf2 Hm1 Hd2)
    as [report2 [w2 [Hrun2 [Hm2 [He2 [Hu2 [Hp2 [_ Hfv2]]]]]]]].
  simpl db in *.
  assert (Hsel : select_aggregates ds (now64 E2) (db w1)
                 = select_aggregates ds (now64 E2) (db w))
    by (apply select_aggregates_silver; assumption).
  assert (Hsrc : source_distinct_users ds (db w1) = source_distinct_users ds (db w))
    by (apply source_distinct_users_silver; assumption).
  rewrite Hsel in Hp2, Hfv2; rewrite Hsrc in Hfv2.
  assert (Hun : map unstamped (partition_rows ds (db w1))
                = map unstamped (partition_rows ds (db w2)))
    by (rewrite Hp1, Hp2, !select_aggregates_unstamped; reflexivity).
  exists report1, w1, report2, w2.
  refine (conj Hrun1 (conj Hrun2 (conj Hp1 (conj Hp2 (conj Hun _))))).
  split; [rewrite <- (length_map unstamped), Hun, length_map; reflexivity|].
  split; [rewrite <- category_totals_unstamped, Hun, category_totals_unstamped;
          reflexivity|].
  split; [|rewrite Hfv1; reflexivity].
  rewrite Hfv1, Hfv2; do 2 f_equal.
  rewrite <- (event_count_unstamped (select_aggregates ds (now64 E1) (db w))).
  rewrite <- (event_count_unstamped (select_aggregates ds (now64 E2) (db w))).
  rewrite !select_aggregates_unstamped; reflexivity.
Qed.

Lemma idempotent_recompute_witness :
  exists report1 w1 report2 w2,
    dag_run (slow 10 noon20) jan15 "first" (fresh draining) = (Returned report1, w1)
    /\ dag_run (slow 20 (noon20 + 1)) jan15 "second" (fresh (db w1))
       = (Returned report2, w2)
    /\ partition_rows jan15 (db w1) = select_aggregates jan15 noon20 draining
    /\ partition_rows jan15 (db w2) = select_aggregates jan15 (noon20 + 1) draining
    /\ map unstamped (partition_rows jan15 (db w1))
       = map unstamped (partition_rows jan15 (db w2))
    /\ List.length (partition_rows jan15 (db w1))
       = List.length (partition_rows jan15 (db w2))
    /\ map category_totals (partition_rows jan15 (db w1))
       = map category_totals (partition_rows jan15 (db w2))
    /\ final_validation (xcom w1) = final_validation (xcom w2)
    /\ option_map fv_validation_passed (final_validation (xcom w1)) = Some true.
Proof.
  apply (idempotent_recompute (slow 10 noon20) (slow 20 (noon20 + 1)) jan15
           "first" "second" (fresh draining)).
  - split; reflexivity.
  - split; reflexivity.
  - intros m [<-|[]]; simpl; lia.
  - simpl; lia.
  - simpl; lia.
Defined.

(** C1 fails as stated.  A first run in which the store needs 45 seconds
    for the delete inserts while the row left behind for user 9 is still
    readable; the second run finds that delete done.  Both runs return
    with a passed check, and the date has three rows after the first and
    two after the second, for the plain read and for the deduplicated
    one.  The same happens when the runs' own deletes are done at once
    and the row of user 9 is in the hands of a delete that was pending
    for 45 more seconds when the first run started. *)
Lemma recompute_not_idempotent_when_delete_lags :
  (let first := dag_run (slow 45 noon20) jan15 "first" (fresh leftover) in
   let second :=
     dag_run (calm (noon20 + 1)) jan15 "second" (fresh (db (snd first))) in
   is_returned (fst first) = true /\ is_returned (fst second) = true
   /\ silver_events (db (snd first)) = silver_events leftover
   /\ List.length (partition_rows jan15 (db (snd first))) = 3
   /\ List.length (partition_rows jan15 (db (snd second))) = 2
   /\ dest_rows jan15 (db (snd first)) = 3
   /\ dest_rows jan15 (db (snd second)) = 2
   /\ In (stale_row jan15 9 1000) (partition_rows jan15 (db (snd first))))
  /\ (let first := dag_run (calm noon20) jan15 "first" (fresh held) in
      let second :=
        dag_run (calm (noon20 + 1)) jan15 "second" (fresh (db (snd first))) in
      is_returned (fst first) = true /\ is_returned (fst second) = true
      /\ List.length (partition_rows jan15 (db (snd first))) = 3
      /\ List.length (partition_rows jan15 (db (snd second))) = 2
      /\ dest_rows jan15 (db (snd first)) = 3
      /\ dest_rows jan15 (db (snd second)) = 2).
Proof.
  split.
  - intros first second.
    split; [vm_compute; reflexivity|].
    split; [vm_compute; reflexivity|].
    split; [vm_compute; reflexivity|].
    split; [vm_compute; reflexivity|].
    split; [vm_compute; reflexivity|].
    split; [vm_compute; reflexivity|].
    split; [vm_compute; reflexivity|].
    vm_compute; left; reflexivity.
  - intros first second.
    split; [vm_compute; reflexivity|].
    split; [vm_compute; reflexivity|].
    split; [vm_compute; reflexivity|].
    split; [vm_compute; reflexivity|].
    split; [vm_compute; reflexivity|].
    vm_compute; reflexivity.
Qed.

(** ** C9: the stamps of a recompute *)

Section Recompute.









End Recompute.




(** ** C3: what the aggregation counts *)

Section NoLoss.

Lemma countIf_cons t (r : silver_event * silver_user) g :
  countIf (is_type t) (r :: g)
  = (if String.eqb (se_event_type (fst r)) t then 1 else 0)
    + countIf (is_type t) g.
Proof.
  unfold countIf, is_type; simpl.
  destruct (String.eqb (se_event_type (fst r)) t); reflexivity.
Qed.

Lemma category_sum_group d now u g :
  (forall r, In r g -> In (se_event_type (fst r)) categories) ->
  category_sum (aggregate_group d now u g) = event_count (aggregate_group d now u g).
Proof.
  unfold category_sum; simpl.
  induction g as [|r g IH]; intros Hcat; [reflexivity|].
  assert (IH' := IH (fun x Hx => Hcat x (or_intror Hx))); clear IH.
  assert (Hr := Hcat r (or_introl eq_refl)).
  rewrite !countIf_cons; simpl List.length.
  unfold categories in Hr; simpl in Hr.
  destruct Hr as [Hr|[Hr|[Hr|[Hr|[Hr|[Hr|[]]]]]]]; rewrite <- Hr; simpl; lia.
Qed.

Lemma filter_all {A} (f : A -> bool) (b : bool) l :
  (forall x, In x l -> f x = b) -> filter f l = if b then l else [].
Proof.
  intros Hall; induction l as [|x l IH]; simpl; [destruct b; reflexivity|].
  rewrite (Hall x (or_introl eq_refl)), IH by (intros y Hy; apply Hall; simpl; auto).
  destruct b; reflexivity.
Qed.

(** With at most one row of the dimension for the user, the join has one
    row per event of the user. *)
Lemma group_length_single d u st :
  List.length (dimension_rows u st) <= 1 ->
  List.length (group_of u (joined_on d st)) = List.length (user_events d u st).
Proof.
  intros Hone; unfold group_of, joined_on, user_events.
  induction (silver_events st) as [|se evs IH]; [reflexivity|].
  replace (left_join (se :: evs) (silver_users st))
    with (left_join [se] (silver_users st) ++ left_join evs (silver_users st))
    by (unfold left_join; simpl; rewrite app_nil_r; reflexivity).
  rewrite !filter_app, length_app, IH; clear IH.
  assert (Hfst : forall r, In r (left_join [se] (silver_users st)) -> fst r = se).
  { intros r Hr; apply left_join_fst in Hr; destruct Hr as [<-|[]]; reflexivity. }
  rewrite (filter_all (fun r => on_date d (fst r)) (on_date d se))
    by (intros r Hr; rewrite (Hfst r Hr); reflexivity).
  replace (filter (fun e => on_date d e && (se_user_id e =? u)%Z) (se :: evs))
    with ((if on_date d se && (se_user_id se =? u)%Z then [se] else [])
          ++ filter (fun e => on_date d e && (se_user_id e =? u)%Z) evs)
    by (simpl; destruct (on_date d se && (se_user_id se =? u)%Z); reflexivity).
  rewrite length_app; f_equal.
  destruct (on_date d se); simpl andb; [|reflexivity].
  rewrite (filter_all (fun r => (se_user_id (fst r) =? u)%Z) (se_user_id se =? u)%Z)
    by (intros r Hr; rewrite (Hfst r Hr); reflexivity).
  destruct (se_user_id se =? u)%Z eqn:Hu; [|reflexivity].
  apply Z.eqb_eq in Hu; subst u; unfold dimension_rows in Hone.
  unfold left_join; simpl; rewrite app_nil_r.
  destruct (filter _ (silver_users st)) as [|m [|m' ms]]; simpl in Hone |- *; lia.
Qed.

End NoLoss.

Lemma group_events d u st r :
  In r (group_of u (joined_on d st)) -> In (fst r) (user_events d u st).
Proof.
  unfold group_of, joined_on, user_events; intros Hr.
  apply filter_In in Hr; destruct Hr as [Hr Hu].
  apply filter_In in Hr; destruct Hr as [Hr Hd].
  apply filter_In; split; [eapply left_join_fst; eauto|].
  rewrite Hd, Hu; reflexivity.
Qed.

(** C3, as amended.  On a date with N distinct users that have an
    event, a run in which nothing fails and every delete mutation on the
    destination, pending at the start or issued by the run, needs at most
    30 seconds returns and leaves exactly N rows of the date, one per
    such user, for the plain read and for the deduplicated one; and in
    the row of every user whose events of the date are all of the six
    categories, the six per-category counts add up to the row's total
    event count. *)
Theorem no_loss_aggregation E ds run_id w :
  no_faults E -> done_within 30 (db w) -> mutation_delay E <= 30 ->
  exists report w',
    dag_run E ds run_id w = (Returned report, w')
    /\ List.length (partition_rows ds (db w')) = source_distinct_users ds (db w)
    /\ dest_rows ds (db w') = source_distinct_users ds (db w)
    /\ NoDup (map user_id (partition_rows ds (db w')))
    /\ (forall u, In u (map user_id (partition_rows ds (db w')))
                  <-> In u (event_users ds (db w)))
    /\ (forall r, In r (partition_rows ds (db w')) ->
          (forall se, In se (user_events ds (user_id r) (db w)) ->
                      In (se_event_type se) categories) ->
          0 < event_count r /\ category_sum r = event_count r).
Proof.
  intros Hf Hm Hd.
  destruct (settled_run E ds run_id w Hf Hm Hd)
    as [report [w' [Hrun [_ [_ [_ [Hp [Hfin _]]]]]]]].
  exists report, w'; unfold dest_rows; rewrite Hp, Hfin.
  split; [exact Hrun|].
  split; [apply select_aggregates_length|].
  split; [apply select_aggregates_length|].
  split; [apply select_aggregates_users|].
  split; [apply select_aggregates_users|].
  intros r Hr Hcat.
  apply select_aggregates_In in Hr; destruct Hr as [u [Hu ->]].
  simpl user_id in Hcat; split.
  - simpl event_count.
    apply joined_users, group_of_nonempty in Hu.
    destruct (group_of u (joined_on ds (db w))); [congruence | simpl; lia].
  - apply category_sum_group.
    intros x Hx; apply Hcat; eapply group_events; eauto.
Qed.

Lemma no_loss_aggregation_witness :
  source_distinct_users jan15 draining = 2
  /\ exists report w',
       dag_run (slow 10 noon20) jan15 "manual" (fresh draining)
       = (Returned report, w')
       /\ List.length (partition_rows jan15 (db w')) = 2
       /\ dest_rows jan15 (db w') = 2
       /\ (forall r, In r (partition_rows jan15 (db w')) ->
             category_sum r = event_count r).
Proof.
  split; [reflexivity|].
  destruct (no_loss_aggregation (slow 10 noon20) jan15 "manual" (fresh draining))
    as [report [w' [H1 [H2 [H3 [_ [H5 H6]]]]]]].
  - split; reflexivity.
  - intros m [<-|[]]; simpl; lia.
  - simpl; lia.
  - exists report, w'; split; [exact H1|].
    split; [exact H2|]. split; [exact H3|].
    intros r Hr; apply (H6 r Hr).
    intros se Hse; unfold user_events in Hse.
    apply filter_In in Hse; destruct Hse as [Hse _].
    destruct Hse as [<-|[<-|[<-|[]]]]; unfold categories; simpl; auto 7.
Defined.

(** C3 fails as stated.  A run in which the store needs 45 seconds for
    the delete returns with a passed check and leaves three rows on a
    date that has two distinct users, the row left behind for user 9
    being still readable.  And in the row of a user whose one event is of
    a type outside the six, the event is counted in the total and in none
    of the six columns. *)
Lemma no_loss_fails_on_survivors_and_other_types :
  (let run := dag_run (slow 45 noon20) jan15 "manual" (fresh leftover) in
   is_returned (fst run) = true
   /\ source_distinct_users jan15 leftover = 2
   /\ List.length (partition_rows jan15 (db (snd run))) = 3
   /\ dest_rows jan15 (db (snd run)) = 3)
  /\ (let run := dag_run (calm noon20) jan15 "manual" (fresh other_category) in
      is_returned (fst run) = true
      /\ List.length (user_events jan15 1 other_category) = 1
      /\ map (fun r => (user_id r, event_count r, category_sum r))
             (partition_rows jan15 (db (snd run)))
         = [(1%Z, 1, 0)]).
Proof.
  split.
  - intros run.
    split; [vm_compute; reflexivity|].
    split; [vm_compute; reflexivity|].
    split; [vm_compute; reflexivity|].
    vm_compute; reflexivity.
  - intros run.
    split; [vm_compute; reflexivity|].
    split; [vm_compute; reflexivity|].
    vm_compute; reflexivity.
Qed.

(** * Further properties of the code *)

(** ** What a computation leaves as it was *)

Section Preserves.

Context {X : Type} (f : world -> X).

Lemma preserves_ret {A} (a : A) : preserves f (ret a).
Proof. intros w; reflexivity. Qed.

Lemma preserves_raise {A} e : preserves f (@raise A e).
Proof. intros w; reflexivity. Qed.

Lemma preserves_bind {A B} (m : task A) (k : A -> task B) :
  preserves f m -> (forall a, preserves f (k a)) -> preserves f (bind m k).
Proof.
  intros Hm Hk w; unfold bind.
  pose proof (Hm w) as H1.
  destruct (m w) as [[a|e] w1]; simpl in H1 |- *; [|exact H1].
  rewrite (Hk a w1); exact H1.
Qed.

Lemma preserves_try_except {A} (m : task A) c (h : exn -> task A) :
  preserves f m -> (forall e, preserves f (h e)) ->
  preserves f (try_except m c h).
Proof.
  intros Hm Hh w; unfold try_except.
  pose proof (Hm w) as H1.
  destruct (m w) as [[a|e] w1]; simpl in H1 |- *; [exact H1|].
  destruct (c (exn_kind e)); simpl; [|exact H1].
  rewrite (Hh e w1); exact H1.
Qed.

Lemma preserves_driver_error {A} o (ok : task A) :
  preserves f ok -> preserves f (driver_error o ok).
Proof. intros Hok; destruct o; simpl; [apply preserves_raise | exact Hok]. Qed.

Lemma preserves_if {A} (b : bool) (m1 m2 : task A) :
  preserves f m1 -> preserves f m2 -> preserves f (if b then m1 else m2).
Proof. destruct b; auto. Qed.

End Preserves.

Ltac preserves_step :=
  first
    [ apply preserves_ret | apply preserves_raise
    | apply preserves_bind; [|intro]
    | apply preserves_try_except; [|intro]
    | apply preserves_driver_error
    | apply preserves_if
    | match goal with
      | |- preserves _ (logger _ _) => intros ?w; reflexivity
      | |- preserves _ (record_io _) => intros ?w; reflexivity
      | |- preserves _ (update_xcom _) => intros ?w; reflexivity
      | |- preserves _ (fun w => (Returned _, w)) => intros ?w; reflexivity
      | |- preserves _ (match ?x with _ => _ end) => destruct x
      end ].

Section PreservesOfHelpers.

Variable E : env.

Lemma iter_tick_silver n st :
  silver_events (Nat.iter n tick st) = silver_events st
  /\ silver_users (Nat.iter n tick st) = silver_users st.
Proof.
  induction n as [|n [IH1 IH2]]; [split; reflexivity|].
  simpl; split; assumption.
Qed.

Lemma apply_command_silver s st :
  silver_events (apply_command E s st) = silver_events st
  /\ silver_users (apply_command E s st) = silver_users st.
Proof. destruct s; split; reflexivity. Qed.

Lemma preserves_source_command s :
  preserves source_tables (client_command E s).
Proof.
  unfold client_command; repeat preserves_step.
  intros w; unfold source_tables; simpl.
  destruct (apply_command_silver s (db w)) as [-> ->]; reflexivity.
Qed.

Lemma preserves_source_sleep n : preserves source_tables (time_sleep n).
Proof.
  unfold time_sleep; repeat preserves_step.
  intros w; unfold source_tables; simpl.
  destruct (iter_tick_silver n (db w)) as [-> ->]; reflexivity.
Qed.

Section Generic.

Context {X : Type} (f : world -> X).
Hypothesis Hio : ignores_io f.

Lemma preserves_logger l msg : preserves f (logger l msg).
Proof. intros w; apply Hio. Qed.

Lemma preserves_record_io e : preserves f (record_io e).
Proof. intros w; apply Hio. Qed.

Lemma preserves_get_clickhouse_client t :
  preserves f (get_clickhouse_client E t).
Proof.
  unfold get_clickhouse_client, get_client.
  repeat first [ apply preserves_logger | preserves_step ].
Qed.

Lemma preserves_execute_query_with_result s :
  preserves f (execute_query_with_result E s).
Proof.
  unfold execute_query_with_result, client_query.
  repeat first [ apply preserves_logger | apply preserves_record_io
               | preserves_step ].
Qed.

Lemma preserves_execute_query s :
  (forall w, f (mkWorld (apply_command E s (db w)) (xcom w) (log w) (trace w))
             = f w) ->
  preserves f (execute_query E s).
Proof.
  intros Hcmd; unfold execute_query, client_command.
  repeat first [ apply preserves_logger | apply preserves_record_io
               | preserves_step ].
  exact Hcmd.
Qed.

Lemma preserves_wait_for_mutations n :
  (forall w, f (mkWorld (tick (db w)) (xcom w) (log w) (trace w)) = f w) ->
  preserves f (wait_for_mutations E n).
Proof.
  intros Htick; induction n as [|n IH].
  - apply preserves_ret.
  - unfold wait_for_mutations; fold wait_for_mutations.
    apply preserves_bind; [apply preserves_execute_query_with_result | intro].
    apply preserves_if; [apply preserves_ret|].
    apply preserves_bind; [|intro; exact IH].
    unfold time_sleep.
    apply preserves_bind; [apply preserves_record_io | intro].
    exact Htick.
Qed.

End Generic.

End PreservesOfHelpers.

Ltac preserves_task_with Hio tac :=
  repeat first
    [ tac
    | apply preserves_get_clickhouse_client; exact Hio
    | apply preserves_execute_query_with_result; exact Hio
    | apply preserves_logger; exact Hio
    | preserves_step ].

Ltac preserves_task Hio := preserves_task_with Hio fail.

Section PreservesOfTasks.

Variable E : env.
Variable ds : date.
Variable run_id : string.

Lemma source_tables_ignores_io : ignores_io source_tables.
Proof. intros w l t; reflexivity. Qed.

Lemma db_ignores_io : ignores_io db.
Proof. intros w l t; reflexivity. Qed.

Lemma preserves_source_execute_query s :
  preserves source_tables (execute_query E s).
Proof.
  apply preserves_execute_query; [apply source_tables_ignores_io|].
  intros w; unfold source_tables; simpl.
  destruct (apply_command_silver E s (db w)) as [-> ->]; reflexivity.
Qed.

End PreservesOfTasks.

(** X1.  Whatever the environment, and whether it returns or raises, a
    run of the DAG leaves the two source tables as it found them. *)
Theorem source_never_written E ds run_id :
  preserves source_tables (dag_run E ds run_id).
Proof.
  pose proof source_tables_ignores_io as Hio.
  unfold dag_run.
  apply preserves_bind; [|intro; apply preserves_bind; [|intro;
    apply preserves_bind; [|intro; apply preserves_bind; [|intro;
    apply preserves_bind; [|intro]]]]].
  - unfold validate_source_data; preserves_task Hio.
  - unfold delete_existing_partition.
    preserves_task_with Hio
      ltac:(first [ apply preserves_source_execute_query
                  | apply preserves_wait_for_mutations;
                    [exact Hio | intros w; reflexivity] ]).
  - unfold compute_aggregations.
    preserves_task_with Hio ltac:(apply preserves_source_execute_query).
  - unfold optimize_table.
    preserves_task_with Hio ltac:(apply preserves_source_execute_query).
  - unfold validate_results; preserves_task Hio.
  - intros w; reflexivity.
Qed.

(** X2.  The probe of the source, the validation of the results and the
    report are read-only: whatever the environment, and whether they
    return or raise, they leave the whole store as they found it. *)
Theorem probe_validation_report_read_only E ds run_id :
  preserves db (validate_source_data E ds)
  /\ preserves db (validate_results E ds)
  /\ preserves db (generate_report ds run_id).
Proof.
  pose proof db_ignores_io as Hio.
  split; [|split].
  - unfold validate_source_data; preserves_task Hio.
  - unfold validate_results; preserves_task Hio.
  - intros w; reflexivity.
Qed.

Ltac xcom_frame :=
  let Hio := fresh "Hio" in
  match goal with
  | |- preserves ?f _ =>
      assert (Hio : ignores_io f) by (intros ?w ?l ?t; reflexivity);
      preserves_task_with Hio
        ltac:(first [ apply preserves_execute_query;
                      [exact Hio | intros ?w; reflexivity]
                    | apply preserves_wait_for_mutations;
                      [exact Hio | intros ?w; reflexivity] ])
  end.

Section XcomFrames.

Variable E : env.
Variable ds : date.

Lemma xcom_frame_probe :
  preserves xcom_but_validation (validate_source_data E ds).
Proof. unfold validate_source_data; xcom_frame. Qed.

Lemma xcom_frame_delete :
  preserves xcom_but_deleted (delete_existing_partition E ds).
Proof. unfold delete_existing_partition; xcom_frame. Qed.

Lemma xcom_frame_compute :
  preserves xcom_but_aggregation (compute_aggregations E ds).
Proof. unfold compute_aggregations; xcom_frame. Qed.

Lemma xcom_frame_optimize : preserves xcom (optimize_table E ds).
Proof. unfold optimize_table; xcom_frame. Qed.

Lemma xcom_frame_validate :
  preserves xcom_but_final (validate_results E ds).
Proof. unfold validate_results; xcom_frame. Qed.

End XcomFrames.

(** X3.  Whatever the environment, and whether it returns or raises, a
    task changes no XCom slot but its own: the probe only
    [validation_result], the delete step only [deleted_rows], the compute
    step only [aggregation_result], the validation only
    [final_validation]; the OPTIMIZE step and the report change none. *)
Theorem tasks_write_own_xcom_slot E ds run_id :
  preserves xcom_but_validation (validate_source_data E ds)
  /\ preserves xcom_but_deleted (delete_existing_partition E ds)
  /\ preserves xcom_but_aggregation (compute_aggregations E ds)
  /\ preserves xcom (optimize_table E ds)
  /\ preserves xcom_but_final (validate_results E ds)
  /\ preserves xcom (generate_report ds run_id).
Proof.
  split; [apply xcom_frame_probe|].
  split; [apply xcom_frame_delete|].
  split; [apply xcom_frame_compute|].
  split; [apply xcom_frame_optimize|].
  split; [apply xcom_frame_validate|].
  intros w; reflexivity.
Qed.

(** ** What a returning run has pushed *)

Section OnReturn.

Lemma on_return_bind {A B} P (m : task A) (k : A -> task B) :
  (forall a, on_return P (k a)) -> on_return P (bind m k).
Proof.
  intros Hk w b w' Hr; apply bind_returned in Hr.
  destruct Hr as [a [w1 [_ Hr]]]; exact (Hk a w1 b w' Hr).
Qed.

Lemma on_return_update_xcom (P : world -> Prop) g :
  (forall w, P (mkWorld (db w) (g (xcom w)) (log w) (trace w))) ->
  on_return P (update_xcom g).
Proof. intros HP w a w' Hr; injection Hr as _ <-; apply HP. Qed.

Lemma on_return_push {A} (P : world -> Prop) g (v : A) :
  (forall w, P (mkWorld (db w) (g (xcom w)) (log w) (trace w))) ->
  on_return P (bind (update_xcom g) (fun _ => ret v)).
Proof. intros HP w a w' Hr; injection Hr as _ <-; apply HP. Qed.

End OnReturn.

Ltac on_return_step :=
  first
    [ apply on_return_push | apply on_return_update_xcom
    | apply on_return_bind; intro
    | match goal with
      | |- on_return _ (match ?x with _ => _ end) => destruct x
      end ].

Section Pushed.

Variable E : env.
Variable ds : date.

Lemma probe_pushes :
  on_return (fun w => validation_result (xcom w) <> None)
            (validate_source_data E ds).
Proof.
  unfold validate_source_data; repeat on_return_step.
  intros w; discriminate.
Qed.

Lemma delete_pushes :
  on_return (fun w => deleted_rows (xcom w) <> None)
            (delete_existing_partition E ds).
Proof.
  unfold delete_existing_partition; repeat on_return_step.
  intros w; discriminate.
Qed.

Lemma compute_pushes :
  on_return (fun w => aggregation_result (xcom w) <> None)
            (compute_aggregations E ds).
Proof.
  unfold compute_aggregations; repeat on_return_step.
  intros w; discriminate.
Qed.

Lemma validate_pushes w v w' :
  validate_results E ds w = (Returned v, w') ->
  final_validation (xcom w') = Some v /\ fv_validation_passed v = true.
Proof.
  destruct (connect_error E t_validate_results) as [m|] eqn:Hc;
    [unfold validate_results; unfold_task; rewrite Hc; simpl; discriminate|].
  destruct (query_error E (source_query ds)) as [m|] eqn:Hq1;
    [unfold validate_results; unfold_task; rewrite Hc, Hq1; simpl; discriminate|].
  destruct (query_error E (dest_query ds)) as [m|] eqn:Hq2;
    [unfold validate_results; unfold_task; rewrite Hc, Hq1; simpl;
     rewrite Hq2; simpl; discriminate|].
  destruct (validate_results_ok E ds w Hc Hq1 Hq2) as [lg Hok]; rewrite Hok.
  destruct (validation_passed _ _); [|discriminate].
  intros Heq; injection Heq as <- <-; split; reflexivity.
Qed.

End Pushed.

(** X4.  Whatever the environment, when a run of the DAG returns, the
    four XCom records have all been pushed and the final validation has
    passed; the report is compiled from these records, so none of its
    fields shows the absence marker, and its last field reads
    [Validation Passed: True]. *)
Theorem returned_run_report_complete E ds run_id w report w' :
  dag_run E ds run_id w = (Returned report, w') ->
  exists v d a f,
    xcom w' = mkContext (Some v) (Some d) (Some a) (Some f)
    /\ fv_validation_passed f = true
    /\ report = render_report ds run_id (xcom w')
    /\ nth_error (report_lines ds run_id (xcom w')) 20
       = Some "  - Validation Passed: True".
Proof.
  unfold dag_run; intros Hrun.
  apply bind_returned in Hrun; destruct Hrun as [r1 [w1 [H1 Hrun]]].
  apply bind_returned in Hrun; destruct Hrun as [r2 [w2 [H2 Hrun]]].
  apply bind_returned in Hrun; destruct Hrun as [r3 [w3 [H3 Hrun]]].
  apply bind_returned in Hrun; destruct Hrun as [r4 [w4 [H4 Hrun]]].
  apply bind_returned in Hrun; destruct Hrun as [r5 [w5 [H5 H6]]].
  rewrite generate_report_total in H6; injection H6 as <- <-; simpl xcom.
  pose proof (probe_pushes E ds _ _ _ H1) as P1.
  pose proof (delete_pushes E ds _ _ _ H2) as P2.
  pose proof (compute_pushes E ds _ _ _ H3) as P3.
  destruct (validate_pushes E ds _ _ _ H5) as [P5 Hpass].
  pose proof (xcom_frame_delete E ds w1) as F2; rewrite H2 in F2.
  pose proof (xcom_frame_compute E ds w2) as F3; rewrite H3 in F3.
  pose proof (xcom_frame_optimize E ds w3) as F4; rewrite H4 in F4.
  pose proof (xcom_frame_validate E ds w4) as F5; rewrite H5 in F5.
  unfold xcom_but_deleted, xcom_but_aggregation, xcom_but_final in *.
  simpl snd in *.
  injection F2 as F2v _ _; injection F3 as F3v F3d _; injection F5 as F5v F5d F5a.
  rewrite F4 in F5v, F5d, F5a.
  destruct (xcom w5) as [v5 d5 a5 f5]; simpl in *.
  subst f5.
  destruct v5 as [v|]; [|exfalso; apply P1; congruence].
  destruct d5 as [d|]; [|exfalso; apply P2; congruence].
  destruct a5 as [a|]; [|exfalso; apply P3; congruence].
  exists v, d, a, r5; repeat split; try assumption.
  unfold get_or_NA; rewrite Hpass; reflexivity.
Qed.

Lemma returned_run_report_complete_witness :
  exists report w' v d a f,
    dag_run (calm noon20) jan15 "manual" (fresh two_users) = (Returned report, w')
    /\ xcom w' = mkContext (Some v) (Some d) (Some a) (Some f)
    /\ fv_validation_passed f = true
    /\ report = render_report jan15 "manual" (xcom w').
Proof.
  destruct (dag_run (calm noon20) jan15 "manual" (fresh two_users))
    as [[report|e] w'] eqn:Hrun; [|vm_compute in Hrun; discriminate].
  destruct (returned_run_report_complete _ _ _ _ _ _ Hrun)
    as [v [d [a [f [Hx [Hp [Hr _]]]]]]].
  exists report, w', v, d, a, f.
  exact (conj eq_refl (conj Hx (conj Hp Hr))).
Defined.

(** ** Failures of the driver *)

Ltac connection_abort_tac H :=
  unfold connection_abort; unfold_task; rewrite H; simpl;
  repeat split; apply in_or_app; right; simpl; auto.

(** X5.  A task whose connection to the store fails raises the
    connectivity failure with the driver's error text and logs it; it
    issues no statement and leaves the store and the run context as they
    were.  A run whose first connection fails ends the same way. *)
Theorem connection_failure_aborts E ds run_id msg w :
  (connect_error E t_validate_source_data = Some msg ->
   connection_abort msg w (validate_source_data E ds w)
   /\ connection_abort msg w (dag_run E ds run_id w))
  /\ (connect_error E t_delete_existing_partition = Some msg ->
      connection_abort msg w (delete_existing_partition E ds w))
  /\ (connect_error E t_compute_aggregations = Some msg ->
      connection_abort msg w (compute_aggregations E ds w))
  /\ (connect_error E t_optimize_table = Some msg ->
      connection_abort msg w (optimize_table E ds w))
  /\ (connect_error E t_validate_results = Some msg ->
      connection_abort msg w (validate_results E ds w)).
Proof.
  split; [|split; [|split; [|split]]]; intros H.
  - split.
    + unfold validate_source_data; connection_abort_tac H.
    + unfold dag_run, validate_source_data; connection_abort_tac H.
  - unfold delete_existing_partition; connection_abort_tac H.
  - unfold compute_aggregations; connection_abort_tac H.
  - unfold optimize_table; connection_abort_tac H.
  - unfold validate_results; connection_abort_tac H.
Qed.

Lemma connection_failure_aborts_witness :
  connection_abort "Connection refused" (fresh two_users)
    (dag_run unreachable jan15 "manual" (fresh two_users))
  /\ connection_abort "Connection refused" (fresh two_users)
       (compute_aggregations unreachable jan15 (fresh two_users)).
Proof.
  pose proof (connection_failure_aborts unreachable jan15 "manual"
                "Connection refused" (fresh two_users)) as [H1 [_ [H3 _]]].
  exact (conj (proj2 (H1 eq_refl)) (H3 eq_refl)).
Defined.

Section RejectedInsert.

Variable E : env.
Variable ds : date.
Hypothesis Hc : forall t, connect_error E t = None.
Hypothesis Hq : forall s, is_insert s = false -> query_error E s = None.

Lemma insert_accepted_no_faults : no_faults (insert_accepted E).
Proof.
  split; [exact Hc|].
  intros s; destruct s; simpl; try reflexivity; apply Hq; reflexivity.
Qed.

Lemma validate_source_data_before_insert w :
  validate_source_data E ds w = validate_source_data (insert_accepted E) ds w.
Proof. reflexivity. Qed.

Lemma delete_existing_partition_before_insert w :
  delete_existing_partition E ds w
  = delete_existing_partition (insert_accepted E) ds w.
Proof. reflexivity. Qed.

(** The step when the store rejects the insert. *)
Lemma compute_aggregations_rejected msg w :
  query_error E (insert_query ds) = Some msg ->
  compute_aggregations E ds w
  = (Raised (mkExn AirflowException ("Query execution failed: " ++ msg)%string),
     mkWorld (db w) (xcom w)
       (log w
        ++ [ (INFO, ("Computing aggregations for date: " ++ date_str ds)%string);
             (INFO, "Successfully connected to ClickHouse");
             (ERROR, ("ClickHouse query failed: " ++ msg)%string) ])
       (trace w ++ [Issued (insert_query ds)])).
Proof.
  intros Hrej; unfold compute_aggregations; unfold_task; rewrite Hc; simpl.
  rewrite Hrej; simpl; rewrite <- !app_assoc; reflexivity.
Qed.

End RejectedInsert.

(** X6.  The delete and the insert are two statements, not one
    transaction.  When the driver connects, the store accepts every
    statement but the insert and rejects the insert, and every delete
    mutation, pending at the start or issued by the run, needs at most 30
    seconds, the run ends with the query failure, the rows the date had
    are gone and none have replaced them; the deleted-row count is in the
    run context, an aggregation result is not, and the insert is the last
    statement issued. *)
Theorem rejected_insert_leaves_gap E ds run_id msg w :
  (forall t, connect_error E t = None) ->
  (forall s, is_insert s = false -> query_error E s = None) ->
  query_error E (insert_query ds) = Some msg ->
  done_within 30 (db w) -> mutation_delay E <= 30 ->
  exists w',
    dag_run E ds run_id w
    = (Raised (mkExn AirflowException ("Query execution failed: " ++ msg)%string),
       w')
    /\ partition_rows ds (db w') = []
    /\ deleted_rows (xcom w') = Some (existing_count ds (db w))
    /\ aggregation_result (xcom w') = aggregation_result (xcom w)
    /\ last (trace w') (Issued wait_query) = Issued (insert_query ds).
Proof.
  intros Hc Hq Hrej Hm Hd.
  destruct (insert_accepted_no_faults E Hc Hq) as [Hc' Hq'].
  unfold dag_run.
  unfold bind at 1; rewrite validate_source_data_before_insert.
  destruct (validate_source_data_ok (insert_accepted E) ds Hc' Hq' w)
    as [v [lg1 H1]]; rewrite H1.
  unfold bind at 1; rewrite delete_existing_partition_before_insert.
  match goal with |- context [delete_existing_partition _ ds ?w1] =>
    destruct (delete_existing_partition_ok (insert_accepted E) ds Hc' Hq' w1)
      as [lg2 H2]; rewrite H2 end.
  unfold bind at 1; rewrite (compute_aggregations_rejected E ds Hc msg _ Hrej).
  eexists; split; [reflexivity|].
  cbn [db xcom trace deleted_rows aggregation_result insert_accepted
       mutation_delay].
  clear H1 H2.
  destruct (after_delete_settled E ds (db w) Hm Hd) as [G1 _].
  unfold after_delete in G1.
  split; [exact G1|].
  split; [reflexivity|]. split; [reflexivity|].
  apply last_last.
Qed.

Lemma rejected_insert_leaves_gap_witness :
  existing_count jan15 draining = 2
  /\ exists w',
       dag_run rejecting jan15 "manual" (fresh draining)
       = (Raised (mkExn AirflowException
                    "Query execution failed: Memory limit exceeded"), w')
       /\ partition_rows jan15 (db w') = []
       /\ deleted_rows (xcom w') = Some 2.
Proof.
  split; [reflexivity|].
  destruct (rejected_insert_leaves_gap rejecting jan15 "manual"
              "Memory limit exceeded" (fresh draining))
    as [w' [H1 [H2 [H3 _]]]].
  - reflexivity.
  - intros s; destruct s; simpl; intros; first [reflexivity | discriminate].
  - reflexivity.
  - intros m [<-|[]]; simpl; lia.
  - simpl; lia.
  - exists w'; split; [exact H1|]; split; [exact H2|exact H3].
Defined.

(** ** What the compute step reports *)

Section Verify.

Lemma sum_of_app l1 l2 : sum_of (l1 ++ l2) = sum_of l1 + sum_of l2.
Proof. induction l1 as [|x l1 IH]; simpl; [reflexivity | rewrite IH; lia]. Qed.

(** A plain SELECT of the date after the insert sees the rows it saw
    before, then the rows of the insert. *)
Lemma partition_rows_insert now d st :
  partition_rows d (exec_insert now d st)
  = partition_rows d st ++ select_aggregates d now st.
Proof.
  unfold partition_rows, gold_parts; simpl.
  rewrite !filter_app, select_aggregates_of_date, app_assoc; reflexivity.
Qed.

(** The step when it connects and its two statements are accepted. *)
Lemma compute_aggregations_answered E ds w :
  connect_error E t_compute_aggregations = None ->
  query_error E (insert_query ds) = None ->
  query_error E (verify_query ds) = None ->
  let rows := partition_rows ds (exec_insert (now64 E) ds (db w)) in
  let a := mkAggregation ds (List.length rows) (sum_of (map event_count rows))
                         (uniq (map user_id rows)) in
  exists lg,
    compute_aggregations E ds w
    = (Returned a,
       mkWorld (exec_insert (now64 E) ds (db w))
               (mkContext (validation_result (xcom w)) (deleted_rows (xcom w))
                          (Some a) (final_validation (xcom w)))
               lg
               (trace w ++ [Issued (insert_query ds); Issued (verify_query ds)])).
Proof.
  intros Hc Hq1 Hq2 rows a; unfold compute_aggregations.
  unfold_task; rewrite Hc; simpl; rewrite Hq1; simpl; rewrite Hq2; simpl.
  rewrite <- ?app_assoc; simpl; eexists; reflexivity.
Qed.

End Verify.

(** X7.  Whatever the environment, when the compute step returns, the
    store holds the rows of its insert on top of what it held, and the
    figures it pushes describe every row of the date a plain SELECT sees,
    not the insert alone: [rows_inserted] is the number of rows the date
    had before plus one per distinct user with an event on the date, and
    [total_events_aggregated] adds the event counts of both. *)
Theorem rows_inserted_counts_whole_date E ds w a w' :
  compute_aggregations E ds w = (Returned a, w') ->
  db w' = exec_insert (now64 E) ds (db w)
  /\ aggregation_result (xcom w') = Some a
  /\ ag_rows_inserted a
     = existing_count ds (db w) + source_distinct_users ds (db w)
  /\ ag_total_events_aggregated a
     = sum_of (map event_count (partition_rows ds (db w)))
       + sum_of (map event_count (select_aggregates ds (now64 E) (db w))).
Proof.
  destruct (connect_error E t_compute_aggregations) as [m|] eqn:Hc;
    [unfold compute_aggregations; unfold_task; rewrite Hc; simpl; discriminate|].
  destruct (query_error E (insert_query ds)) as [m|] eqn:Hq1;
    [unfold compute_aggregations; unfold_task; rewrite Hc; simpl;
     rewrite Hq1; simpl; discriminate|].
  destruct (query_error E (verify_query ds)) as [m|] eqn:Hq2;
    [unfold compute_aggregations; unfold_task; rewrite Hc; simpl;
     rewrite Hq1; simpl; rewrite Hq2; simpl; discriminate|].
  destruct (compute_aggregations_answered E ds w Hc Hq1 Hq2) as [lg Hok].
  rewrite Hok; intros Heq; injection Heq as <- <-.
  split; [reflexivity|]. split; [reflexivity|].
  simpl ag_rows_inserted; simpl ag_total_events_aggregated.
  rewrite partition_rows_insert, length_app, map_app, sum_of_app,
    select_aggregates_length.
  split; reflexivity.
Qed.

Lemma rows_inserted_counts_whole_date_witness :
  source_distinct_users jan15 leftover = 2
  /\ exists a w',
       compute_aggregations (calm 9) jan15 (fresh leftover) = (Returned a, w')
       /\ ag_rows_inserted a = 1 + 2.
Proof.
  split; [reflexivity|].
  destruct (compute_aggregations (calm 9) jan15 (fresh leftover))
    as [[a|e] w'] eqn:Hrun; [|vm_compute in Hrun; discriminate].
  exists a, w'; split; [reflexivity|].
  exact (proj1 (proj2 (proj2
           (rows_inserted_counts_whole_date _ _ _ _ _ Hrun)))).
Defined.

(** ** What the SELECT of the insert computes *)

Section JoinLaw.

(** Each event of the user on the date is joined once per row the
    dimension has for the user, and once when it has none. *)
Lemma group_length_fan_out d u st :
  List.length (group_of u (joined_on d st))
  = List.length (user_events d u st)
    * Nat.max 1 (List.length (dimension_rows u st)).
Proof.
  unfold group_of, joined_on, user_events.
  induction (silver_events st) as [|se evs IH]; [reflexivity|].
  replace (left_join (se :: evs) (silver_users st))
    with (left_join [se] (silver_users st) ++ left_join evs (silver_users st))
    by (unfold left_join; simpl; rewrite app_nil_r; reflexivity).
  rewrite !filter_app, length_app, IH; clear IH.
  assert (Hfst : forall r, In r (left_join [se] (silver_users st)) -> fst r = se).
  { intros r Hr; apply left_join_fst in Hr; destruct Hr as [<-|[]]; reflexivity. }
  rewrite (filter_all (fun r => on_date d (fst r)) (on_date d se))
    by (intros r Hr; rewrite (Hfst r Hr); reflexivity).
  replace (filter (fun e => on_date d e && (se_user_id e =? u)%Z) (se :: evs))
    with ((if on_date d se && (se_user_id se =? u)%Z then [se] else [])
          ++ filter (fun e => on_date d e && (se_user_id e =? u)%Z) evs)
    by (simpl; destruct (on_date d se && (se_user_id se =? u)%Z); reflexivity).
  rewrite length_app, Nat.mul_add_distr_r; f_equal.
  destruct (on_date d se); simpl andb; [|reflexivity].
  rewrite (filter_all (fun r => (se_user_id (fst r) =? u)%Z) (se_user_id se =? u)%Z)
    by (intros r Hr; rewrite (Hfst r Hr); reflexivity).
  destruct (se_user_id se =? u)%Z eqn:Hu; [|reflexivity].
  apply Z.eqb_eq in Hu; subst u; unfold dimension_rows.
  unfold left_join; simpl flat_map; rewrite app_nil_r.
  destruct (filter _ (silver_users st)) as [|m ms]; [reflexivity|].
  simpl; rewrite ?length_map; lia.
Qed.

Lemma group_covers d u st se :
  In se (user_events d u st) ->
  exists su, In (se, su) (group_of u (joined_on d st)).
Proof.
  unfold user_events, group_of, joined_on; intros Hse.
  apply filter_In in Hse; destruct Hse as [Hse Hb].
  apply andb_true_iff in Hb; destruct Hb as [Hd Hu].
  destruct (left_join_covers _ (silver_users st) _ Hse) as [su Hsu].
  exists su; apply filter_In; split; [|exact Hu].
  apply filter_In; split; [exact Hsu | exact Hd].
Qed.

(** The dimension side of a joined row of a user the dimension knows is
    one of the user's rows there, and each of them is joined. *)
Lemma group_snd_dimension d u st r :
  In r (group_of u (joined_on d st)) -> dimension_rows u st <> [] ->
  In (snd r) (dimension_rows u st).
Proof.
  unfold group_of, joined_on, dimension_rows; intros Hr Hne.
  apply filter_In in Hr; destruct Hr as [Hr Hu].
  apply filter_In in Hr; destruct Hr as [Hr _].
  unfold left_join in Hr; apply in_flat_map in Hr; destruct Hr as [se [_ Hr]].
  destruct (filter (fun su => (se_user_id se =? su_user_id su)%Z) (silver_users st))
    as [|m ms] eqn:Hf.
  - destruct Hr as [<-|[]]; simpl in Hu; apply Z.eqb_eq in Hu; subst u.
    contradiction.
  - apply in_map_iff in Hr; destruct Hr as [su [<- Hsu]]; simpl in Hu |- *.
    apply Z.eqb_eq in Hu; subst u; rewrite Hf; exact Hsu.
Qed.

Lemma group_has_dimension d u st su :
  In u (event_users d st) -> In su (dimension_rows u st) ->
  exists se, In (se, su) (group_of u (joined_on d st)).
Proof.
  unfold event_users, group_of, joined_on, dimension_rows; intros Hu Hsu.
  apply in_map_iff in Hu; destruct Hu as [se [Hid Hse]].
  apply filter_In in Hse; destruct Hse as [Hse Hd].
  exists se; apply filter_In; split; [|simpl; apply Z.eqb_eq; exact Hid].
  apply filter_In; split; [|exact Hd].
  unfold left_join; apply in_flat_map; exists se; split; [exact Hse|].
  rewrite Hid.
  destruct (filter (fun su0 => (u =? su_user_id su0)%Z) (silver_users st))
    as [|m ms]; [destruct Hsu|].
  apply in_map; exact Hsu.
Qed.

End JoinLaw.

Section Extremes.

Lemma fold_max_ge l : forall x0,
  (x0 <= fold_left Z.max l x0)%Z
  /\ forall x, In x l -> (x <= fold_left Z.max l x0)%Z.
Proof.
  induction l as [|y l IH]; intros x0; simpl; [split; [lia | tauto]|].
  destruct (IH (Z.max x0 y)) as [H1 H2]; split; [lia|].
  intros x [<-|Hx]; [lia | auto].
Qed.

Lemma fold_max_In l : forall x0,
  fold_left Z.max l x0 = x0 \/ In (fold_left Z.max l x0) l.
Proof.
  induction l as [|y l IH]; intros x0; simpl; [auto|].
  destruct (IH (Z.max x0 y)) as [H|H]; [|auto].
  rewrite H; destruct (Z.max_spec x0 y) as [[_ ->]|[_ ->]]; auto.
Qed.

Lemma max_of_In l : l <> [] -> In (max_of l) l.
Proof.
  destruct l as [|x l]; [congruence|]; intros _; simpl.
  destruct (fold_max_In l x) as [->|H]; auto.
Qed.

Lemma max_of_ge l x : In x l -> (x <= max_of l)%Z.
Proof.
  destruct l as [|y l]; [intros []|]; simpl.
  destruct (fold_max_ge l y) as [H1 H2]; intros [<-|Hx]; auto.
Qed.

(** [argMax] when one pair outranks every other pair of the list. *)
Lemma argMax_fold {A} (a : A) v rows : forall best,
  (forall x, In x rows -> (snd x < v)%Z \/ x = (a, v)) ->
  match best with
  | None => In (a, v) rows
  | Some b => b = (a, v) \/ ((snd b < v)%Z /\ In (a, v) rows)
  end ->
  fold_left argMax_step rows best = Some (a, v).
Proof.
  induction rows as [|x rows IH]; intros best Hall Hb; simpl.
  - destruct best as [b|]; [|destruct Hb].
    destruct Hb as [->|[_ []]]; reflexivity.
  - apply IH; [intros y Hy; apply Hall; simpl; auto|].
    pose proof (Hall x (or_introl eq_refl)) as Hx.
    destruct best as [[b vb]|]; simpl.
    + destruct (vb <? snd x)%Z eqn:Hlt.
      * apply Z.ltb_lt in Hlt.
        destruct Hx as [Hx| ->]; [|left; reflexivity].
        destruct Hb as [Hb|[_ [Hb|Hb]]].
        -- injection Hb as _ ->; lia.
        -- left; exact Hb.
        -- right; split; assumption.
      * apply Z.ltb_ge in Hlt.
        destruct Hb as [Hb|[Hvb [Hb|Hb]]]; [left; exact Hb | |].
        -- subst x; simpl in Hlt, Hvb; lia.
        -- right; split; assumption.
    + destruct Hx as [Hx| ->]; [|left; reflexivity].
      destruct Hb as [Hb|Hb]; [left; exact Hb|].
      right; split; assumption.
Qed.

Lemma argMax_strict {A} (a : A) v rows :
  In (a, v) rows ->
  (forall x, In x rows -> (snd x < v)%Z \/ x = (a, v)) ->
  argMax rows = Some a.
Proof.
  intros Hin Hall; unfold argMax.
  rewrite (argMax_fold a v rows None Hall Hin); reflexivity.
Qed.

Lemma argMax_nullable_strict {A} (a : A) v (rows : list (option A * Z)) :
  In (Some a, v) rows ->
  (forall x, In x rows -> (snd x < v)%Z \/ x = (Some a, v)) ->
  argMax_nullable rows = Some a.
Proof.
  intros Hin Hall; unfold argMax_nullable; apply (argMax_strict a v).
  - apply in_flat_map; exists (Some a, v); simpl; auto.
  - intros [a' v'] Hx; apply in_flat_map in Hx.
    destruct Hx as [[o w] [Hrow Hx]]; simpl in Hx.
    destruct o as [a0|]; [|destruct Hx].
    destruct Hx as [Hx|[]]; injection Hx as -> ->.
    destruct (Hall _ Hrow) as [Hlt|Heq]; [left; exact Hlt|].
    right; injection Heq as -> ->; reflexivity.
Qed.

End Extremes.

(** X8.  Every row of the SELECT of the insert counts each event of its
    user on the date once per row the dimension holds for the user (once
    when it holds none): [event_count] is the number of the user's events
    of the date times that number of dimension rows, the user has an
    event on the date, and when the events are of the six categories the
    per-category counts add up to [event_count]. *)
Theorem join_fan_out_law d now st r :
  In r (select_aggregates d now st) ->
  event_count r
  = List.length (user_events d (user_id r) st)
    * Nat.max 1 (List.length (dimension_rows (user_id r) st))
  /\ 0 < List.length (user_events d (user_id r) st)
  /\ ((forall se, In se (user_events d (user_id r) st) ->
                  In (se_event_type se) categories) ->
      category_sum r = event_count r).
Proof.
  intros Hr; apply select_aggregates_In in Hr; destruct Hr as [u [Hu ->]].
  simpl user_id.
  assert (Hlen : event_count (aggregate_group d now u (group_of u (joined_on d st)))
                 = List.length (user_events d u st)
                   * Nat.max 1 (List.length (dimension_rows u st)))
    by (simpl event_count; apply group_length_fan_out).
  split; [exact Hlen|]. split.
  - apply joined_users, group_of_nonempty in Hu.
    destruct (user_events d u st) as [|se l] eqn:He; [|simpl; lia].
    exfalso; apply Hu, length_zero_iff_nil.
    rewrite group_length_fan_out, He; reflexivity.
  - intros Hcat; apply category_sum_group.
    intros x Hx; apply Hcat; eapply group_events; eauto.
Qed.

Lemma join_fan_out_law_witness :
  exists r,
    In r (select_aggregates jan15 noon20 two_versions)
    /\ user_id r = 1%Z /\ event_count r = 1 * 2.
Proof.
  exists (aggregate_group jan15 noon20 1
            (group_of 1 (joined_on jan15 two_versions))).
  assert (Hin : In (aggregate_group jan15 noon20 1
                      (group_of 1 (joined_on jan15 two_versions)))
                   (select_aggregates jan15 noon20 two_versions))
    by (vm_compute; left; reflexivity).
  split; [exact Hin|]. split; [reflexivity|].
  exact (proj1 (join_fan_out_law _ _ _ _ Hin)).
Defined.

(** X9.  In every row of the SELECT of the insert,
    [last_event_timestamp] is the time of one of the user's events of the
    date, none of the user's events of the date is later, and it falls
    on the row's [activity_date]. *)
Theorem last_event_is_latest d now st r :
  In r (select_aggregates d now st) ->
  (exists se, In se (user_events d (user_id r) st)
              /\ se_event_timestamp se = last_event_timestamp r)
  /\ (forall se, In se (user_events d (user_id r) st) ->
                 (se_event_timestamp se <= last_event_timestamp r)%Z)
  /\ toDate (last_event_timestamp r) = activity_date r.
Proof.
  intros Hr; apply select_aggregates_In in Hr; destruct Hr as [u [Hu ->]].
  simpl user_id; simpl last_event_timestamp; simpl activity_date.
  set (g := group_of u (joined_on d st)).
  assert (Hmax : exists se, In se (user_events d u st)
                   /\ se_event_timestamp se
                      = max_of (map (fun r => se_event_timestamp (fst r)) g)).
  { assert (Hne : map (fun r => se_event_timestamp (fst r)) g <> []).
    { apply joined_users, group_of_nonempty in Hu; fold g in Hu.
      destruct g; [congruence | discriminate]. }
    apply max_of_In, in_map_iff in Hne; destruct Hne as [x [Hx Hin]].
    exists (fst x); split; [eapply group_events; exact Hin | exact Hx]. }
  split; [exact Hmax|]. split.
  - intros se Hse; destruct (group_covers _ _ _ _ Hse) as [su Hsu].
    apply max_of_ge, in_map_iff; exists (se, su); auto.
  - destruct Hmax as [se [Hse <-]].
    apply filter_In in Hse; destruct Hse as [_ Hb].
    apply andb_true_iff in Hb; destruct Hb as [Hd _].
    apply date_eqb_eq; exact Hd.
Qed.

Lemma last_event_is_latest_witness :
  exists r,
    In r (select_aggregates jan15 noon20 two_users)
    /\ user_id r = 1%Z
    /\ (forall se, In se (user_events jan15 1 two_users) ->
                   (se_event_timestamp se <= last_event_timestamp r)%Z)
    /\ last_event_timestamp r = (noon15 + 5)%Z.
Proof.
  exists (aggregate_group jan15 noon20 1 (group_of 1 (joined_on jan15 two_users))).
  assert (Hin : In (aggregate_group jan15 noon20 1
                      (group_of 1 (joined_on jan15 two_users)))
                   (select_aggregates jan15 noon20 two_users))
    by (vm_compute; left; reflexivity).
  split; [exact Hin|]. split; [reflexivity|].
  split; [exact (proj1 (proj2 (last_event_is_latest _ _ _ _ Hin)))|].
  vm_compute; reflexivity.
Defined.

(** X10.  When one row of the dimension for a user carries a version
    above that of every other row for the user, the SELECT of the insert
    enriches the user's row from it: the row is flagged active exactly
    when that version is not soft-deleted, and the name and the e-mail
    are the ones of that version when it has them. *)
Theorem latest_version_enriches d now st r su :
  In r (select_aggregates d now st) ->
  In su (dimension_rows (user_id r) st) ->
  (forall su', In su' (dimension_rows (user_id r) st) ->
               su' = su \/ (su__version su' < su__version su)%Z) ->
  (user_is_active r = 1%Z <-> su_is_deleted su = 0%Z)
  /\ (user_is_active r = 1%Z \/ user_is_active r = 0%Z)
  /\ (forall n, su_full_name su = Some n -> user_full_name r = n)
  /\ (forall m, su_email su = Some m -> user_email r = m).
Proof.
  intros Hr Hsu Hlatest.
  apply select_aggregates_In in Hr; destruct Hr as [u [Hu ->]].
  simpl user_id in Hsu, Hlatest.
  set (g := group_of u (joined_on d st)).
  destruct (group_has_dimension d u st su Hu Hsu) as [se Hse]; fold g in Hse.
  assert (Hne : dimension_rows u st <> [])
    by (intros Hnil; rewrite Hnil in Hsu; destruct Hsu).
  assert (Hdom : forall {B} (f : silver_user -> B) x,
             In x (map (fun r => (f (snd r), su__version (snd r))) g) ->
             (snd x < su__version su)%Z \/ x = (f su, su__version su)).
  { intros B f x Hx; apply in_map_iff in Hx; destruct Hx as [y [<- Hy]].
    apply group_snd_dimension in Hy; [|exact Hne].
    destruct (Hlatest _ Hy) as [->|Hlt]; [right; reflexivity | left; exact Hlt]. }
  assert (Hin : forall {B} (f : silver_user -> B),
             In (f su, su__version su)
                (map (fun r => (f (snd r), su__version (snd r))) g)).
  { intros B f; apply in_map_iff; exists (se, su); split; [reflexivity | exact Hse]. }
  simpl user_is_active; simpl user_full_name; simpl user_email; fold g.
  rewrite (argMax_strict (su_is_deleted su) (su__version su) _
             (Hin _ su_is_deleted) (Hdom _ su_is_deleted)).
  split; [|split; [|split]].
  - destruct (su_is_deleted su) as [|p|p]; split; intros H;
      first [reflexivity | discriminate].
  - destruct (su_is_deleted su) as [|p|p]; auto.
  - intros n Hn.
    rewrite (argMax_nullable_strict n (su__version su)); [reflexivity| |].
    + rewrite <- Hn; apply (Hin _ su_full_name).
    + rewrite <- Hn; apply (Hdom _ su_full_name).
  - intros m Hm.
    rewrite (argMax_nullable_strict m (su__version su)); [reflexivity| |].
    + rewrite <- Hm; apply (Hin _ su_email).
    + rewrite <- Hm; apply (Hdom _ su_email).
Qed.

Lemma latest_version_enriches_witness :
  exists r,
    In r (select_aggregates jan15 noon20 two_versions)
    /\ user_full_name r = "Ann B" /\ user_is_active r = 1%Z.
Proof.
  exists (aggregate_group jan15 noon20 1
            (group_of 1 (joined_on jan15 two_versions))).
  assert (Hin : In (aggregate_group jan15 noon20 1
                      (group_of 1 (joined_on jan15 two_versions)))
                   (select_aggregates jan15 noon20 two_versions))
    by (vm_compute; left; reflexivity).
  destruct (latest_version_enriches jan15 noon20 two_versions _
              (mkUser 1 (Some "Ann B") (Some "ann@example.com") 0 9) Hin)
    as [H1 [_ [H2 _]]].
  - vm_compute; right; left; reflexivity.
  - intros su' Hsu'; vm_compute in Hsu'.
    destruct Hsu' as [<-|[<-|[]]]; [right; reflexivity | left; reflexivity].
  - split; [exact Hin|]. split; [apply H2; reflexivity | apply H1; reflexivity].
Defined.

(** X11.  A user with an event on the date and no row in the dimension
    gets a row that is flagged active, the join filling the missing
    deletion flag with 0, and that counts each of the user's events of
    the date once. *)
Theorem unknown_user_flagged_active d now st r :
  In r (select_aggregates d now st) ->
  (forall su, In su (silver_users st) -> su_user_id su <> user_id r) ->
  user_is_active r = 1%Z
  /\ event_count r = List.length (user_events d (user_id r) st).
Proof.
  intros Hr Hno.
  apply select_aggregates_In in Hr; destruct Hr as [u [Hu ->]].
  simpl user_id in Hno |- *; split.
  - simpl user_is_active.
    set (g := group_of u (joined_on d st)).
    assert (Hall : forall x,
               In x (map (fun r => (su_is_deleted (snd r), su__version (snd r))) g) ->
               x = (0%Z, 0%Z)).
    { intros x Hx; apply in_map_iff in Hx; destruct Hx as [y [<- Hy]].
      rewrite (group_unmatched _ _ _ _ Hno Hy); reflexivity. }
    rewrite (argMax_strict 0%Z 0%Z); [reflexivity| |].
    + apply joined_users, group_of_nonempty in Hu; fold g in Hu.
      destruct g as [|y g']; [congruence|].
      rewrite <- (Hall _ (or_introl eq_refl)); simpl; auto.
    + intros x Hx; right; apply Hall; exact Hx.
  - simpl event_count; rewrite group_length_fan_out.
    replace (dimension_rows u st) with (@nil silver_user); [simpl; lia|].
    symmetry; apply filter_none; intros su Hsu.
    apply Z.eqb_neq; intros ->; exact (Hno su Hsu eq_refl).
Qed.

Lemma unknown_user_flagged_active_witness :
  exists r,
    In r (select_aggregates jan15 noon20 two_users)
    /\ user_id r = 2%Z /\ user_is_active r = 1%Z /\ event_count r = 1.
Proof.
  exists (aggregate_group jan15 noon20 2 (group_of 2 (joined_on jan15 two_users))).
  assert (Hin : In (aggregate_group jan15 noon20 2
                      (group_of 2 (joined_on jan15 two_users)))
                   (select_aggregates jan15 noon20 two_users))
    by (vm_compute; right; left; reflexivity).
  destruct (unknown_user_flagged_active jan15 noon20 two_users _ Hin) as [H1 H2].
  - intros su [<-|[]]; discriminate.
  - split; [exact Hin|]. split; [reflexivity|]. split; [exact H1 | exact H2].
Defined.

(** ** The delete step and the probe *)

Section DeleteStep.

Variable E : env.

Lemma iter_tick_gold n st :
  gold_user_activity (Nat.iter n tick st) = gold_user_activity st.
Proof. induction n as [|n IH]; [reflexivity | exact IH]. Qed.

(** Whatever the environment and however it ends, the polling loop of
    [n] attempts lets at most [n] seconds of background work pass, issues
    polls only and leaves the run context alone. *)
Lemma wait_for_mutations_effect n : forall w r w',
  wait_for_mutations E n w = (r, w') ->
  exists k ext,
    k <= n
    /\ db w' = Nat.iter k tick (db w)
    /\ xcom w' = xcom w
    /\ trace w' = trace w ++ ext
    /\ (forall s, In (Issued s) ext -> s = wait_query).
Proof.
  assert (Hpoll : forall s, In (Issued s) [Issued wait_query] -> s = wait_query)
    by (intros s [Hs|[]]; injection Hs as <-; reflexivity).
  induction n as [|n IH]; intros w r w'.
  - intros Hr; injection Hr as _ <-.
    exists 0, []; rewrite app_nil_r.
    refine (conj (le_n 0) (conj eq_refl (conj eq_refl (conj eq_refl _)))).
    intros s [].
  - rewrite wait_for_mutations_S; unfold_task.
    destruct (query_error E wait_query) as [msg|] eqn:Hq; simpl.
    + intros Hr; injection Hr as _ <-.
      exists 0, [Issued wait_query].
      refine (conj _ (conj eq_refl (conj eq_refl (conj eq_refl Hpoll)))); lia.
    + destruct (List.length (mutations (db w)) =? 0)%nat.
      * intros Hr; injection Hr as _ <-.
        exists 0, [Issued wait_query].
        refine (conj _ (conj eq_refl (conj eq_refl (conj eq_refl Hpoll)))); lia.
      * unfold time_sleep; unfold_task; simpl.
        intros Hr; apply IH in Hr.
        destruct Hr as [k [ext [Hk [Hdb [Hx [Htr Hext]]]]]]; simpl in *.
        exists (S k), (Issued wait_query :: Slept 1 :: ext).
        rewrite Hdb, Hx, Htr, <- !app_assoc, Nat.iter_succ_r.
        refine (conj _ (conj eq_refl (conj eq_refl (conj eq_refl _)))); [lia|].
        intros s [Hs|[Hs|Hs]];
          [injection Hs as <-; reflexivity | discriminate | auto].
Qed.

End DeleteStep.

(** X12.  Whatever the environment, when the delete step returns, the
    [deleted_rows] it pushes is the number of rows a plain SELECT saw for
    the date before the step.  With no such row the step issues the count
    only and leaves the store as it found it.  Otherwise it issues the
    delete, then polls only, while at most 30 seconds of background work
    pass on the store the delete left; the table proper then holds no row
    of the date, whether or not the mutation is done. *)
Theorem delete_step_reports_prior_count E ds w u w' :
  delete_existing_partition E ds w = (Returned u, w') ->
  deleted_rows (xcom w') = Some (existing_count ds (db w))
  /\ (existing_count ds (db w) = 0 ->
      db w' = db w /\ trace w' = trace w ++ [Issued (count_query ds)])
  /\ (0 < existing_count ds (db w) ->
      exists k ext,
        k <= 30
        /\ db w' = Nat.iter k tick (exec_delete (mutation_delay E) ds (db w))
        /\ trace w'
           = trace w ++ Issued (count_query ds) :: Issued (delete_query ds) :: ext
        /\ (forall s, In (Issued s) ext -> s = wait_query)
        /\ filter (of_date ds) (gold_user_activity (db w')) = []).
Proof.
  destruct (connect_error E t_delete_existing_partition) as [m|] eqn:Hc;
    [unfold delete_existing_partition; unfold_task; rewrite Hc; simpl;
     discriminate|].
  destruct (query_error E (count_query ds)) as [m|] eqn:Hq1;
    [unfold delete_existing_partition; unfold_task; rewrite Hc; simpl;
     rewrite Hq1; simpl; discriminate|].
  unfold delete_existing_partition; unfold_task; rewrite Hc; simpl.
  rewrite Hq1; simpl.
  change (List.length (filter (of_date ds) (gold_parts (db w))))
    with (existing_count ds (db w)).
  destruct (0 <? existing_count ds (db w))%nat eqn:Hx; simpl.
  - apply Nat.ltb_lt in Hx.
    destruct (query_error E (delete_query ds)) as [m|] eqn:Hq2; simpl;
      [discriminate|].
    match goal with |- context [wait_for_mutations E 30 ?w2] =>
      destruct (wait_for_mutations E 30 w2) as [[u2|e] w3] eqn:Hw end;
      [|discriminate].
    apply wait_for_mutations_effect in Hw.
    destruct Hw as [k [ext [Hk [Hdb [Hxc [Htr Hext]]]]]]; simpl in Hdb, Hxc, Htr.
    intros Hr; injection Hr as _ <-; simpl.
    split; [reflexivity|].
    split; [intros Hz; lia|].
    intros _; exists k, ext; rewrite Hdb, Htr, <- !app_assoc; simpl.
    repeat split; auto.
    rewrite iter_tick_gold; simpl.
    apply filter_none; intros r Hr; apply filter_In in Hr.
    destruct Hr as [_ Hr]; apply negb_true_iff; exact Hr.
  - apply Nat.ltb_ge in Hx.
    intros Hr; injection Hr as _ <-; simpl.
    split; [reflexivity|].
    split; [intros _; rewrite <- ?app_assoc; split; reflexivity | intros Hp; lia].
Qed.

Lemma delete_step_reports_prior_count_witness :
  exists u w',
    delete_existing_partition (slow 45 0) jan15 (fresh stale_only)
    = (Returned u, w')
    /\ deleted_rows (xcom w') = Some 1
    /\ filter (of_date jan15) (gold_user_activity (db w')) = []
    /\ partition_rows jan15 (db w') = [stale_row jan15 9 1000].
Proof.
  destruct (delete_existing_partition (slow 45 0) jan15 (fresh stale_only))
    as [[u|e] w'] eqn:Hrun; [|vm_compute in Hrun; discriminate].
  destruct (delete_step_reports_prior_count _ _ _ _ _ Hrun) as [H1 [_ H3]].
  destruct H3 as [k [ext [_ [_ [_ [_ H4]]]]]]; [vm_compute; lia|].
  exists u, w'; split; [reflexivity|].
  split; [exact H1|]. split; [exact H4|].
  vm_compute in Hrun; injection Hrun as _ <-; reflexivity.
Defined.

(** X13.  The probe never fails for lack of data: when it connects and
    its two queries are answered it returns and pushes its record, which
    carries the number of events of the date and of their distinct
    users, and [has_data] exactly when there is an event; it logs a
    warning exactly when there is none. *)
Theorem probe_warns_on_empty_date E ds w :
  connect_error E t_validate_source_data = None ->
  query_error E (events_query ds) = None ->
  query_error E users_query = None ->
  exists v w' ext,
    validate_source_data E ds w = (Returned v, w')
    /\ validation_result (xcom w') = Some v
    /\ sv_event_count v = List.length (filter (on_date ds) (silver_events (db w)))
    /\ sv_unique_users v = source_distinct_users ds (db w)
    /\ sv_has_data v = negb (sv_event_count v =? 0)%nat
    /\ log w' = log w ++ ext
    /\ ((exists msg, In (WARNING, msg) ext) <-> sv_event_count v = 0).
Proof.
  intros Hc Hq1 Hq2; unfold validate_source_data.
  unfold_task; rewrite Hc; simpl; rewrite Hq1; simpl; rewrite Hq2; simpl.
  unfold event_times; rewrite length_map.
  destruct (List.length (filter (on_date ds) (silver_events (db w))))
    as [|n] eqn:Hn; simpl; rewrite <- ?app_assoc; simpl;
    do 3 eexists;
    (split; [reflexivity|]); (split; [reflexivity|]); simpl;
    (split; [reflexivity|]); (split; [reflexivity|]);
    (split; [reflexivity|]); (split; [reflexivity|]).
  - split; [reflexivity|].
    intros _; eexists; simpl; do 4 right; left; reflexivity.
  - split; [|discriminate].
    intros [msg Hin]; simpl in Hin.
    repeat (destruct Hin as [Hin|Hin]; [discriminate Hin|]); destruct Hin.
Qed.

Lemma probe_warns_on_empty_date_witness :
  exists v w' ext,
    validate_source_data (calm 0) jan15 (fresh stale_only) = (Returned v, w')
    /\ sv_has_data v = false
    /\ log w' = ext
    /\ exists msg, In (WARNING, msg) ext.
Proof.
  destruct (probe_warns_on_empty_date (calm 0) jan15 (fresh stale_only)
              eq_refl eq_refl eq_refl)
    as [v [w' [ext [H1 [_ [H3 [_ [H5 [H6 H7]]]]]]]]].
  exists v, w', ext; split; [exact H1|].
  split; [rewrite H5, H3; reflexivity|].
  split; [exact H6|].
  apply H7; rewrite H3; reflexivity.
Defined.

(** ** Dates without events and the final count *)

Section MergedCount.

Lemma distinct_keys_users d l :
  (forall r, In r l -> activity_date r = d) -> distinct_keys l ->
  NoDup (map user_id l).
Proof.
  induction l as [|r l IH]; simpl; intros Hd Hk; [constructor|].
  destruct Hk as [Hr Hl]; constructor; [|apply IH; auto].
  intros Hin; apply in_map_iff in Hin; destruct Hin as [a [Hu Ha]].
  pose proof (Hr a Ha) as Hf; unfold same_key in Hf.
  rewrite (Hd r (or_introl eq_refl)), (Hd a (or_intror Ha)), date_eqb_refl,
    Hu, Z.eqb_refl in Hf.
  discriminate.
Qed.

Lemma uniq_le l : uniq l <= List.length l.
Proof.
  unfold uniq; induction l as [|x l IH]; simpl; [lia|].
  destruct (in_dec Z.eq_dec x l); simpl; lia.
Qed.

(** Of the rows of one date the merge keeps one per user. *)
Lemma merged_user_count d l :
  (forall r, In r l -> activity_date r = d) ->
  List.length (replacing_merge l) = uniq (map user_id l).
Proof.
  intros Hd.
  assert (Hnd : NoDup (map user_id (replacing_merge l))).
  { apply (distinct_keys_users d); [|apply distinct_keys_replacing_merge].
    intros r Hr; apply Hd, replacing_merge_In, Hr. }
  rewrite <- (length_map user_id), <- (nodup_fixed_point Z.eq_dec Hnd).
  apply nodup_same_length; intros u; rewrite !in_map_iff; split.
  - intros [r [Hu Hr]]; exists r; split; [exact Hu|].
    apply replacing_merge_In, Hr.
  - intros [r [Hu Hr]].
    destruct (merge_key_of l [] r (or_intror Hr)) as [y [Hy Hk]].
    exists y; split; [|exact Hy].
    rewrite (same_key_user _ _ Hk); exact Hu.
Qed.

Lemma dest_rows_distinct_users d st :
  dest_rows d st = uniq (map user_id (partition_rows d st)).
Proof.
  unfold dest_rows, gold_final; rewrite filter_replacing_merge.
  apply (merged_user_count d).
  intros r Hr; apply filter_In in Hr; destruct Hr as [_ Hr].
  apply date_eqb_eq; exact Hr.
Qed.

End MergedCount.

(** X14.  A date without events is cleared: when nothing fails, no
    mutation is pending at the start and the store is done with the
    delete within the wait, the run returns, no row of the date is left
    whatever the destination held for it, and the final check has passed
    on 0 source users and 0 destination rows. *)
Theorem empty_date_is_cleared E ds run_id w :
  no_faults E -> mutations (db w) = [] -> mutation_delay E <= 30 ->
  (forall se, In se (silver_events (db w)) ->
              toDate (se_event_timestamp se) <> ds) ->
  exists report w',
    dag_run E ds run_id w = (Returned report, w')
    /\ partition_rows ds (db w') = []
    /\ final_validation (xcom w') = Some (mkFinalCheck ds 0 0 0 true).
Proof.
  intros Hf Hm Hd Hnone.
  assert (Hsrc : source_distinct_users ds (db w) = 0).
  { unfold source_distinct_users, event_users.
    rewrite filter_none; [reflexivity|].
    intros se Hse; apply date_eqb_neq, Hnone, Hse. }
  assert (Hsel : select_aggregates ds (now64 E) (db w) = []).
  { apply length_zero_iff_nil; rewrite select_aggregates_length; exact Hsrc. }
  destruct (clean_run E ds run_id w Hf Hm Hd)
    as [report [w' [Hrun [_ [_ [_ [Hp Hfv]]]]]]].
  exists report, w'; split; [exact Hrun|].
  rewrite Hp, Hfv, Hsel, Hsrc; split; reflexivity.
Qed.

Lemma empty_date_is_cleared_witness :
  partition_rows jan15 stale_only = [stale_row jan15 9 1000]
  /\ exists report w',
       dag_run (slow 3 noon20) jan15 "manual" (fresh stale_only)
       = (Returned report, w')
       /\ partition_rows jan15 (db w') = []
       /\ final_validation (xcom w') = Some (mkFinalCheck jan15 0 0 0 true).
Proof.
  split; [reflexivity|].
  apply (empty_date_is_cleared (slow 3 noon20) jan15 "manual" (fresh stale_only)).
  - split; reflexivity.
  - reflexivity.
  - simpl; lia.
  - intros se [].
Defined.

(** X16.  Whatever the environment, when the validation of the results
    returns, the source count of its record is the number of distinct
    users with an event on the date, and the destination count, read with
    FINAL, is the number of distinct users among the rows of the date
    that a plain SELECT sees, rows awaiting a pending delete included; it
    never exceeds the number of those rows. *)
Theorem final_check_counts_distinct_users E ds w v w' :
  validate_results E ds w = (Returned v, w') ->
  fv_source_unique_users v = source_distinct_users ds (db w)
  /\ fv_destination_rows v = uniq (map user_id (partition_rows ds (db w)))
  /\ fv_destination_rows v <= existing_count ds (db w)
  /\ fv_destination_total_events v
     = sum_of (map event_count (filter (of_date ds) (gold_final (db w)))).
Proof.
  destruct (connect_error E t_validate_results) as [m|] eqn:Hc;
    [unfold validate_results; unfold_task; rewrite Hc; simpl; discriminate|].
  destruct (query_error E (source_query ds)) as [m|] eqn:Hq1;
    [unfold validate_results; unfold_task; rewrite Hc, Hq1; simpl; discriminate|].
  destruct (query_error E (dest_query ds)) as [m|] eqn:Hq2;
    [unfold validate_results; unfold_task; rewrite Hc, Hq1; simpl;
     rewrite Hq2; simpl; discriminate|].
  destruct (validate_results_ok E ds w Hc Hq1 Hq2) as [lg Hok]; rewrite Hok.
  destruct (validation_passed _ _); [|discriminate].
  intros Heq; injection Heq as <- _; simpl.
  change (List.length (filter (of_date ds) (gold_final (db w))))
    with (dest_rows ds (db w)).
  rewrite dest_rows_distinct_users.
  split; [reflexivity|]. split; [reflexivity|]. split; [|reflexivity].
  unfold existing_count; rewrite <- (length_map user_id); apply uniq_le.
Qed.

Lemma final_check_counts_distinct_users_witness :
  existing_count jan20 doubled = 2
  /\ exists v w',
       validate_results (calm 0) jan20
         (fresh (mkStore [mkEvent noon20 5 "login"] [] (gold_user_activity doubled) []))
       = (Returned v, w')
       /\ fv_destination_rows v = 1.
Proof.
  split; [reflexivity|].
  destruct (validate_results (calm 0) jan20
              (fresh (mkStore [mkEvent noon20 5 "login"] []
                              (gold_user_activity doubled) [])))
    as [[v|e] w'] eqn:Hrun; [|vm_compute in Hrun; discriminate].
  exists v, w'; split; [reflexivity|].
  exact (proj1 (proj2 (final_check_counts_distinct_users _ _ _ _ _ Hrun))).
Defined.

(** ** Other dates, and tasks that fail *)

Section OtherDates.

(** What a run leaves of another date whose rows have distinct keys. *)
Lemma run_db_other_date E ds st d' :
  mutations st = [] -> mutation_delay E <= 30 ->
  d' <> ds -> distinct_keys (partition_rows d' st) ->
  partition_rows d' (run_db E ds st) = partition_rows d' st.
Proof.
  intros Hm Hd Hne Hk.
  destruct (run_db_clean E ds st Hm Hd) as [H1 _].
  unfold partition_rows, gold_parts in Hk |- *.
  rewrite H1; rewrite Hm in Hk |- *; simpl flat_map in Hk |- *.
  rewrite !app_nil_l in Hk |- *.
  assert (Hins : filter (of_date d')
                   (gold_user_activity
                      (exec_insert (now64 E) ds (after_delete E ds st)))
                 = filter (of_date d') (gold_user_activity st)).
  { simpl gold_user_activity.
    rewrite filter_app, select_aggregates_other_date by exact Hne.
    rewrite app_nil_r; unfold after_delete.
    destruct (0 <? existing_count ds st)%nat; [|reflexivity].
    destruct (wait_db_tables 30 (exec_delete (mutation_delay E) ds st))
      as [_ [_ ->]].
    simpl; apply filter_kept_date; exact Hne. }
  unfold run_db; rewrite optimize_partition_rows, Hins.
  destruct (toYYYYMM d' =? toYYYYMM ds)%Z; [|reflexivity].
  apply replacing_merge_distinct; exact Hk.
Qed.

End OtherDates.

(** X17.  Backfilling a date leaves the others alone where they are
    clean: when nothing fails, no mutation is pending at the start and
    the store is done with the delete within the wait, the run returns
    and every other date whose rows have distinct keys, in the same month
    or not, holds exactly the rows it held. *)
Theorem backfill_leaves_clean_dates E ds run_id w d' :
  no_faults E -> mutations (db w) = [] -> mutation_delay E <= 30 ->
  d' <> ds -> distinct_keys (partition_rows d' (db w)) ->
  exists report w',
    dag_run E ds run_id w = (Returned report, w')
    /\ partition_rows d' (db w') = partition_rows d' (db w).
Proof.
  intros [Hc Hq] Hm Hd Hne Hk.
  destruct (run_db_clean E ds (db w) Hm Hd) as [_ [H2 [_ [_ H5]]]].
  destruct (dag_run_ok E ds Hc Hq run_id w) as [report [w' [Hrun [Hdb _]]]].
  { rewrite H5, select_aggregates_length.
    rewrite (source_distinct_users_silver ds _ _ H2).
    apply validation_passed_same. }
  exists report, w'; split; [exact Hrun|].
  rewrite Hdb; apply run_db_other_date; assumption.
Qed.

Lemma backfill_leaves_clean_dates_witness :
  let st := mkStore (silver_events two_users) (silver_users two_users)
                    [stale_row jan20 5 1000] [] in
  toYYYYMM jan20 = toYYYYMM jan15
  /\ exists report w',
       dag_run (slow 3 noon20) jan15 "backfill" (fresh st) = (Returned report, w')
       /\ partition_rows jan20 (db w') = [stale_row jan20 5 1000].
Proof.
  intros st; split; [reflexivity|].
  destruct (backfill_leaves_clean_dates (slow 3 noon20) jan15 "backfill"
              (fresh st) jan20) as [report [w' [H1 H2]]].
  - split; reflexivity.
  - reflexivity.
  - simpl; lia.
  - discriminate.
  - simpl; split; [intros a [] | exact I].
  - exists report, w'; split; [exact H1 | exact H2].
Defined.

Section FailedTask.

Lemma no_push_of_preserves {A} (m : task A) :
  preserves xcom m -> pushes_nothing_on_raise m.
Proof. intros Hm w e w' Hr; pose proof (Hm w) as H; rewrite Hr in H; exact H. Qed.

Lemma no_push_bind {A B} (m : task A) (k : A -> task B) :
  preserves xcom m -> (forall a, pushes_nothing_on_raise (k a)) ->
  pushes_nothing_on_raise (bind m k).
Proof.
  intros Hm Hk w e w' Hr; unfold bind in Hr.
  pose proof (Hm w) as H1.
  destruct (m w) as [[a|e1] w1]; simpl in H1.
  - rewrite <- H1; exact (Hk a w1 e w' Hr).
  - injection Hr as _ <-; exact H1.
Qed.

Lemma no_push_update g : pushes_nothing_on_raise (update_xcom g).
Proof. intros w e w' Hr; discriminate Hr. Qed.

Lemma no_push_final {A} g (v : A) :
  pushes_nothing_on_raise (bind (update_xcom g) (fun _ => ret v)).
Proof. intros w e w' Hr; discriminate Hr. Qed.

End FailedTask.

Ltac no_push_task :=
  repeat first
    [ apply no_push_final | apply no_push_update
    | apply no_push_bind; [xcom_frame | intro]
    | match goal with
      | |- pushes_nothing_on_raise (match ?x with _ => _ end) => destruct x
      end ].

(** X18.  Whatever the environment, a task that raises has pushed
    nothing: each task pushes its record as its last action, so the run
    context after a failed attempt is the one before it. *)
Theorem failed_task_pushes_nothing E ds run_id :
  pushes_nothing_on_raise (validate_source_data E ds)
  /\ pushes_nothing_on_raise (delete_existing_partition E ds)
  /\ pushes_nothing_on_raise (compute_aggregations E ds)
  /\ pushes_nothing_on_raise (optimize_table E ds)
  /\ pushes_nothing_on_raise (validate_results E ds)
  /\ pushes_nothing_on_raise (generate_report ds run_id).
Proof.
  split; [unfold validate_source_data; no_push_task|].
  split; [unfold delete_existing_partition; no_push_task|].
  split; [unfold compute_aggregations; no_push_task|].
  split; [apply no_push_of_preserves, xcom_frame_optimize|].
  split; [unfold validate_results; no_push_task|].
  intros w e w' Hr; discriminate Hr.
Qed.

(** ** Retries *)

Section Attempts.

Context {A : Type} (callable : env -> task A).

(** An attempt that returns is the last one. *)
Lemma run_attempts_returned E later w a w' :
  callable E w = (Returned a, w') ->
  run_attempts callable E later w = (Returned a, w').
Proof.
  intros Hr; destruct later as [|x rest]; simpl; [exact Hr|].
  unfold try_except; rewrite Hr; reflexivity.
Qed.

(** An attempt that raises is followed by the pause and the next one. *)
Lemma run_attempts_raised E x rest w e w' :
  callable E w = (Raised e, w') ->
  run_attempts callable E (x :: rest) w
  = run_attempts callable (at_env x) rest
      (mkWorld (Nat.iter (at_pause x) tick (db w')) (xcom w') (log w') (trace w')).
Proof. intros Hr; simpl; unfold try_except; rewrite Hr; reflexivity. Qed.

Lemma emits_run_attempts p n :
  (forall E, emits_le p n (callable E)) ->
  forall later E,
    emits_le p (S (List.length later) * n) (run_attempts callable E later).
Proof.
  intros Hc; induction later as [|x rest IH]; intros E; simpl run_attempts.
  - eapply emits_weaken; [apply Hc | simpl; lia].
  - eapply emits_weaken.
    + eapply emits_try_except; [apply Hc | intro].
      eapply emits_bind; [apply emits_update_db | intro; apply IH].
    + simpl; lia.
Qed.

Lemma emits_with_retries p n :
  (forall E, emits_le p n (callable E)) ->
  forall later E, emits_le p (4 * n) (with_retries callable E later).
Proof.
  intros Hc later E; unfold with_retries.
  eapply emits_weaken; [apply emits_run_attempts; exact Hc|].
  pose proof (firstn_le_length retries later) as Hl.
  unfold retries in *.
  apply Nat.mul_le_mono_r; lia.
Qed.

End Attempts.

Section RetriedSteps.

Lemma iter_tick_settled n st :
  mutations st = [] -> mutations (Nat.iter n tick st) = [].
Proof.
  intros Hm; induction n as [|n IH]; [exact Hm|].
  simpl; rewrite IH; reflexivity.
Qed.

(** The compute step when the insert is accepted and the verification
    is rejected: the rows of the insert stay. *)
Lemma compute_aggregations_unverified E ds msg w :
  connect_error E t_compute_aggregations = None ->
  query_error E (insert_query ds) = None ->
  query_error E (verify_query ds) = Some msg ->
  exists lg,
    compute_aggregations E ds w
    = (Raised (mkExn AirflowException ("Query execution failed: " ++ msg)%string),
       mkWorld (exec_insert (now64 E) ds (db w)) (xcom w) lg
               (trace w ++ [Issued (insert_query ds); Issued (verify_query ds)])).
Proof.
  intros Hc Hq1 Hq2; unfold compute_aggregations.
  unfold_task; rewrite Hc; simpl; rewrite Hq1; simpl; rewrite Hq2; simpl.
  rewrite <- ?app_assoc; simpl; eexists; reflexivity.
Qed.

End RetriedSteps.

(** X19.  A retry of the compute step is not a no-op.  When no
    mutation is pending, the first attempt connects and has its insert
    accepted and its verification rejected, and the second attempt
    connects and has both accepted, the retried step returns, the table
    holds the rows of both inserts on top of what it held, and the
    [rows_inserted] it pushes counts the rows the date had before plus two
    per distinct user of the date. *)
Theorem retried_compute_inserts_again E1 a2 rest ds msg w :
  connect_error E1 t_compute_aggregations = None ->
  query_error E1 (insert_query ds) = None ->
  query_error E1 (verify_query ds) = Some msg ->
  connect_error (at_env a2) t_compute_aggregations = None ->
  query_error (at_env a2) (insert_query ds) = None ->
  query_error (at_env a2) (verify_query ds) = None ->
  mutations (db w) = [] ->
  exists a w',
    with_retries (fun E => compute_aggregations E ds) E1 (a2 :: rest) w
    = (Returned a, w')
    /\ gold_user_activity (db w')
       = gold_user_activity (db w)
         ++ select_aggregates ds (now64 E1) (db w)
         ++ select_aggregates ds (now64 (at_env a2)) (db w)
    /\ ag_rows_inserted a
       = existing_count ds (db w) + 2 * source_distinct_users ds (db w)
    /\ aggregation_result (xcom w') = Some a
    /\ trace w'
       = trace w ++ [ Issued (insert_query ds); Issued (verify_query ds);
                      Issued (insert_query ds); Issued (verify_query ds) ].
Proof.
  intros Hc1 Hi1 Hv1 Hc2 Hi2 Hv2 Hm.
  destruct (compute_aggregations_unverified E1 ds msg w Hc1 Hi1 Hv1) as [lg1 H1].
  unfold with_retries; simpl firstn.
  rewrite (run_attempts_raised (fun E => compute_aggregations E ds) _ _ _ _ _ _ H1).
  simpl db; simpl xcom; simpl log; simpl trace.
  set (st1 := Nat.iter (at_pause a2) tick (exec_insert (now64 E1) ds (db w))).
  destruct (compute_aggregations_answered (at_env a2) ds
              (mkWorld st1 (xcom w) lg1
                 (trace w ++ [Issued (insert_query ds); Issued (verify_query ds)]))
              Hc2 Hi2 Hv2) as [lg2 H2].
  rewrite (run_attempts_returned (fun E => compute_aggregations E ds) _ _ _ _ _ H2).
  assert (Hse : silver_events st1 = silver_events (db w)
                /\ silver_users st1 = silver_users (db w))
    by (unfold st1; destruct (iter_tick_silver (at_pause a2)
                               (exec_insert (now64 E1) ds (db w))) as [-> ->];
        split; reflexivity).
  assert (Hg : gold_user_activity st1
               = gold_user_activity (db w) ++ select_aggregates ds (now64 E1) (db w))
    by (unfold st1; rewrite iter_tick_gold; reflexivity).
  assert (Hm1 : mutations st1 = [])
    by (unfold st1; apply iter_tick_settled; exact Hm).
  assert (Hsel : select_aggregates ds (now64 (at_env a2)) st1
                 = select_aggregates ds (now64 (at_env a2)) (db w))
    by (apply select_aggregates_silver; tauto).
  do 2 eexists; split; [reflexivity|].
  simpl db; simpl xcom; simpl trace; simpl ag_rows_inserted.
  split; [simpl gold_user_activity; rewrite Hg, Hsel, <- app_assoc; reflexivity|].
  split.
  - rewrite partition_rows_insert, length_app, Hsel, select_aggregates_length.
    unfold partition_rows at 1, gold_parts; rewrite Hm1, Hg; simpl flat_map.
    rewrite app_nil_l, filter_app, length_app, select_aggregates_of_date,
      select_aggregates_length.
    unfold existing_count, partition_rows, gold_parts; rewrite Hm; simpl; lia.
  - split; [reflexivity|].
    rewrite <- app_assoc; reflexivity.
Qed.

Lemma retried_compute_inserts_again_witness :
  source_distinct_users jan15 two_users = 2
  /\ exists a w',
       with_retries (fun E => compute_aggregations E jan15) verify_down
         [mkAttempt (calm (noon20 + 1)) retry_delay] (fresh two_users)
       = (Returned a, w')
       /\ ag_rows_inserted a = 0 + 2 * 2
       /\ List.length (gold_user_activity (db w')) = 4.
Proof.
  split; [reflexivity|].
  destruct (retried_compute_inserts_again verify_down
              (mkAttempt (calm (noon20 + 1)) retry_delay) [] jan15
              "Timeout exceeded" (fresh two_users)
              eq_refl eq_refl eq_refl eq_refl eq_refl eq_refl eq_refl)
    as [a [w' [H1 [H2 [H3 _]]]]].
  exists a, w'; split; [exact H1|]. split; [exact H3|].
  rewrite H2; reflexivity.
Defined.

(** X20.  With the retries of [DEFAULT_ARGS] a task function is called
    at most four times: whatever the environments of the attempts, a run
    of the DAG issues the insert, the delete and the OPTIMIZE at most four
    times each, polls the mutation status at most 120 times, and never
    rewrites the trace it started with. *)
Theorem retries_bound_the_statements first later ds run_id w :
  exists ext,
    trace (snd (dag_run_retrying first later ds run_id w)) = trace w ++ ext
    /\ count_io is_insert_io ext <= 4
    /\ count_io is_delete_io ext <= 4
    /\ count_io is_optimize_io ext <= 4
    /\ polls ext <= 120.
Proof.
  assert (Hall : forall p,
            emits_le p
              (4 * (cost p (Issued (events_query ds)) + cost p (Issued users_query))
               + (4 * (cost p (Issued (count_query ds))
                       + cost p (Issued (delete_query ds))
                       + 30 * (cost p (Issued wait_query) + cost p (Slept 1)))
                  + (4 * (cost p (Issued (insert_query ds))
                          + cost p (Issued (verify_query ds)))
                     + (4 * cost p (Issued (optimize_query (toYYYYMM ds)))
                        + (4 * (cost p (Issued (source_query ds))
                                + cost p (Issued (dest_query ds)))
                           + 4 * 0)))))
              (dag_run_retrying first later ds run_id)).
  { intros p; unfold dag_run_retrying.
    eapply emits_bind;
      [apply emits_with_retries; intro; apply emits_validate_source_data | intro].
    eapply emits_bind;
      [apply emits_with_retries; intro; apply emits_delete_existing_partition
      | intro].
    eapply emits_bind;
      [apply emits_with_retries; intro; apply emits_compute_aggregations | intro].
    eapply emits_bind;
      [apply emits_with_retries; intro; apply emits_optimize_table | intro].
    eapply emits_bind;
      [apply emits_with_retries; intro; apply emits_validate_results | intro].
    apply emits_with_retries; intro; apply emits_generate_report. }
  destruct (Hall is_insert_io w) as [ext [Htr Hi]].
  destruct (Hall is_delete_io w) as [ext1 [Htr1 Hd]].
  destruct (Hall is_optimize_io w) as [ext2 [Htr2 Ho]].
  destruct (Hall is_poll w) as [ext3 [Htr3 Hp]].
  rewrite Htr in Htr1, Htr2, Htr3.
  apply app_inv_head in Htr1, Htr2, Htr3; subst ext1 ext2 ext3.
  exists ext; split; [exact Htr|].
  unfold cost in Hi, Hd, Ho, Hp; simpl in Hi, Hd, Ho, Hp.
  unfold polls; repeat split; lia.
Qed.

Section RetriedValidation.

Lemma validation_passed_zero_pos n : validation_passed 0 (S n) = false.
Proof. reflexivity. Qed.

Lemma source_without_events ds st :
  (forall se, In se (silver_events st) -> toDate (se_event_timestamp se) <> ds) ->
  uniq (event_users ds st) = 0.
Proof.
  intros Hnone; unfold event_users.
  rewrite filter_none; [reflexivity|].
  intros se Hse; apply date_eqb_neq, Hnone, Hse.
Qed.

End RetriedValidation.

(** X21.  A retry of the validation can pass where the first attempt
    failed.  On a date without events whose former rows are still in the
    hands of a pending delete, the first attempt raises the mismatch;
    when the mutations are done within the pause before the second
    attempt, that attempt passes on 0 source users and 0 destination rows,
    and the retried step returns. *)
Theorem retried_validation_passes_after_delete E1 a2 rest ds w :
  connect_error E1 t_validate_results = None ->
  query_error E1 (source_query ds) = None ->
  query_error E1 (dest_query ds) = None ->
  connect_error (at_env a2) t_validate_results = None ->
  query_error (at_env a2) (source_query ds) = None ->
  query_error (at_env a2) (dest_query ds) = None ->
  (forall se, In se (silver_events (db w)) ->
              toDate (se_event_timestamp se) <> ds) ->
  partition_rows ds (db w) <> [] ->
  filter (of_date ds) (gold_user_activity (db w)) = [] ->
  0 < at_pause a2 ->
  (forall m, In m (mutations (db w)) -> mut_remaining m <= at_pause a2) ->
  (exists w1,
      validate_results E1 ds w
      = (Raised (mkExn AirflowException
                   ("Validation failed: Source had " ++ str_nat 0
                    ++ " users but destination has "
                    ++ str_nat (dest_rows ds (db w)) ++ " rows")%string), w1))
  /\ exists v w',
       with_retries (fun E => validate_results E ds) E1 (a2 :: rest) w
       = (Returned v, w')
       /\ v = mkFinalCheck ds 0 0 0 true
       /\ final_validation (xcom w') = Some v
       /\ partition_rows ds (db w') = [].
Proof.
  intros Hc1 Hs1 Hd1 Hc2 Hs2 Hd2 Hnone Hrows Hgold Hpos Hdone.
  destruct (validate_results_ok E1 ds w Hc1 Hs1 Hd1) as [lg1 H1].
  rewrite (source_without_events ds (db w) Hnone) in H1.
  change (List.length (filter (of_date ds) (gold_final (db w))))
    with (dest_rows ds (db w)) in H1.
  destruct (dest_rows ds (db w)) as [|n] eqn:Hn;
    [apply dest_rows_zero in Hn; contradiction|].
  rewrite validation_passed_zero_pos in H1.
  split; [eexists; exact H1|].
  unfold with_retries; simpl firstn.
  rewrite (run_attempts_raised (fun E => validate_results E ds) _ _ _ _ _ _ H1).
  simpl db; simpl xcom; simpl log; simpl trace.
  set (st1 := Nat.iter (at_pause a2) tick (db w)).
  assert (Hm1 : mutations st1 = []).
  { unfold st1; destruct (at_pause a2) as [|t]; [lia|].
    apply drained; exact Hdone. }
  assert (Hp1 : partition_rows ds st1 = []).
  { unfold partition_rows, gold_parts; rewrite Hm1; simpl.
    unfold st1; rewrite iter_tick_gold; exact Hgold. }
  assert (Hsrc : uniq (event_users ds st1) = 0).
  { apply source_without_events; intros se Hse; apply Hnone.
    unfold st1 in Hse.
    destruct (iter_tick_silver (at_pause a2) (db w)) as [He _].
    rewrite He in Hse; exact Hse. }
  match goal with |- context [run_attempts _ _ _ ?w1] =>
    destruct (validate_results_ok (at_env a2) ds w1 Hc2 Hs2 Hd2) as [lg2 H2] end.
  simpl db in H2; simpl xcom in H2; simpl trace in H2.
  rewrite Hsrc in H2.
  assert (Hdest : filter (of_date ds) (gold_final st1) = []).
  { apply length_zero_iff_nil.
    change (dest_rows ds st1 = 0); apply dest_rows_zero; exact Hp1. }
  rewrite Hdest in H2; simpl in H2.
  rewrite (run_attempts_returned (fun E => validate_results E ds) _ _ _ _ _ H2).
  do 2 eexists; split; [reflexivity|].
  split; [reflexivity|]. split; [reflexivity|]. exact Hp1.
Qed.

Lemma retried_validation_passes_after_delete_witness :
  partition_rows jan15 lagging = [stale_row jan15 9 1000]
  /\ is_returned (fst (validate_results (calm 0) jan15 (fresh lagging))) = false
  /\ exists v w',
       with_retries (fun E => validate_results E jan15) (calm 0)
         [mkAttempt (calm 0) retry_delay] (fresh lagging)
       = (Returned v, w')
       /\ v = mkFinalCheck jan15 0 0 0 true.
Proof.
  destruct (retried_validation_passes_after_delete (calm 0)
              (mkAttempt (calm 0) retry_delay) [] jan15 (fresh lagging)
              eq_refl eq_refl eq_refl eq_refl eq_refl eq_refl)
    as [[w1 H1] [v [w' [H2 [H3 _]]]]].
  - intros se [].
  - discriminate.
  - reflexivity.
  - unfold retry_delay; simpl; lia.
  - intros m [<-|[]]; unfold retry_delay; simpl; lia.
  - split; [reflexivity|].
    split; [rewrite H1; reflexivity|].
    exists v, w'; split; [exact H2 | exact H3].
Defined.

(** ** The figures of the report *)

Section Figures.

Variable E : env.
Variable ds : date.
Hypothesis Hc : forall t, connect_error E t = None.
Hypothesis Hq : forall s, query_error E s = None.

(** The probe when it connects and its queries are answered. *)
Lemma validate_source_data_answered w :
  let v := mkSourceValidation ds
             (List.length (event_times ds (db w))) (uniq (event_users ds (db w)))
             (Some (datetime_str (min_of (event_times ds (db w)))))
             (Some (datetime_str (max_of (event_times ds (db w)))))
             (known_users (db w))
             (0 <? List.length (event_times ds (db w)))%nat in
  exists lg,
    validate_source_data E ds w
    = (Returned v,
       mkWorld (db w)
               (mkContext (Some v) (deleted_rows (xcom w))
                          (aggregation_result (xcom w)) (final_validation (xcom w)))
               lg (trace w ++ [Issued (events_query ds); Issued users_query])).
Proof.
  intros v; unfold validate_source_data; run_task Hc Hq.
  destruct (List.length (event_times ds (db w)) =? 0)%nat; simpl;
    rewrite <- ?app_assoc; simpl; eexists; reflexivity.
Qed.

(** The run context a run leaves when nothing fails and the check
    passes. *)
Lemma dag_run_context run_id w :
  let st2 := after_delete E ds (db w) in
  let st3 := exec_insert (now64 E) ds st2 in
  let st' := run_db E ds (db w) in
  let rows := partition_rows ds st3 in
  let dest := filter (of_date ds) (gold_final st') in
  validation_passed (source_distinct_users ds st') (List.length dest) = true ->
  exists report w' mn mx known has,
    dag_run E ds run_id w = (Returned report, w')
    /\ report = render_report ds run_id (xcom w')
    /\ xcom w'
       = mkContext
           (Some (mkSourceValidation ds (List.length (event_times ds (db w)))
                    (uniq (event_users ds (db w))) mn mx known has))
           (Some (existing_count ds (db w)))
           (Some (mkAggregation ds (List.length rows)
                    (sum_of (map event_count rows)) (uniq (map user_id rows))))
           (Some (mkFinalCheck ds (source_distinct_users ds st') (List.length dest)
                    (sum_of (map event_count dest)) true)).
Proof.
  intros st2 st3 st' rows dest Hpass; unfold dag_run.
  unfold bind at 1.
  destruct (validate_source_data_answered w) as [lg1 H1]; rewrite H1.
  unfold bind at 1.
  match goal with |- context [delete_existing_partition E ds ?w1] =>
    destruct (delete_existing_partition_ok E ds Hc Hq w1) as [lg2 H2];
      rewrite H2 end.
  unfold bind at 1.
  match goal with |- context [compute_aggregations E ds ?w2] =>
    destruct (compute_aggregations_answered E ds w2 (Hc _) (Hq _) (Hq _))
      as [lg3 H3]; rewrite H3 end.
  unfold bind at 1.
  match goal with |- context [optimize_table E ds ?w3] =>
    destruct (optimize_table_ok E ds Hc Hq w3) as [lg4 H4]; rewrite H4 end.
  unfold bind at 1.
  match goal with |- context [validate_results E ds ?w4] =>
    destruct (validate_results_ok E ds w4 (Hc _) (Hq _) (Hq _)) as [lg5 H5];
      rewrite H5 end.
  simpl db.
  change (if (0 <? existing_count ds (db w))%nat
          then wait_db 30 (exec_delete (mutation_delay E) ds (db w))
          else db w) with st2.
  change (exec_insert (now64 E) ds st2) with st3.
  change (exec_optimize (toYYYYMM ds) st3) with st'.
  fold dest.
  unfold source_distinct_users in Hpass; rewrite Hpass.
  rewrite generate_report_total.
  do 6 eexists; split; [reflexivity|]; split; reflexivity.
Qed.

End Figures.

(** X23.  In a run in which nothing fails, no mutation is pending at
    the start and the store is done with the delete within the wait, the
    report tells what happened: its lines give the number of events of
    the date, the number of rows the date held before the delete, one
    inserted row per distinct user of the date, the sum of the event
    counts of the inserted rows, and a passed validation. *)
Theorem clean_run_report_figures E ds run_id w :
  no_faults E -> mutations (db w) = [] -> mutation_delay E <= 30 ->
  exists report w',
    dag_run E ds run_id w = (Returned report, w')
    /\ report = render_report ds run_id (xcom w')
    /\ nth_error (report_lines ds run_id (xcom w')) 7
       = Some ("  - Events Found: "
               ++ str_nat (List.length
                             (filter (on_date ds) (silver_events (db w)))))%string
    /\ nth_error (report_lines ds run_id (xcom w')) 12
       = Some ("  - Rows Deleted: " ++ str_nat (existing_count ds (db w)))%string
    /\ nth_error (report_lines ds run_id (xcom w')) 15
       = Some ("  - Rows Inserted: "
               ++ str_nat (source_distinct_users ds (db w)))%string
    /\ nth_error (report_lines ds run_id (xcom w')) 16
       = Some ("  - Total Events Aggregated: "
               ++ str_nat (sum_of (map event_count
                                     (select_aggregates ds (now64 E) (db w)))))%string
    /\ nth_error (report_lines ds run_id (xcom w')) 20
       = Some "  - Validation Passed: True".
Proof.
  intros [Hc Hq] Hm Hd.
  destruct (run_db_clean E ds (db w) Hm Hd) as [_ [H2 [_ [_ H5]]]].
  destruct (after_delete_clean E ds (db w) Hm Hd) as [G1 [G2 [G3 G4]]].
  destruct (dag_run_context E ds Hc Hq run_id w)
    as [report [w' [mn [mx [known [has [Hrun [Hrep Hx]]]]]]]].
  { rewrite H5, select_aggregates_length.
    rewrite (source_distinct_users_silver ds _ _ H2).
    apply validation_passed_same. }
  assert (Hrows : partition_rows ds
                    (exec_insert (now64 E) ds (after_delete E ds (db w)))
                  = select_aggregates ds (now64 E) (db w)).
  { rewrite partition_rows_insert.
    unfold partition_rows at 1, gold_parts; rewrite G1; simpl flat_map.
    rewrite app_nil_l, G2, app_nil_l.
    apply select_aggregates_silver; assumption. }
  rewrite Hrows in Hx.
  exists report, w'; split; [exact Hrun|]. split; [exact Hrep|].
  rewrite Hx; unfold report_lines, get_or_NA.
  cbn [validation_result deleted_rows aggregation_result final_validation
       sv_event_count ag_rows_inserted ag_total_events_aggregated
       fv_validation_passed nth_error str_bool].
  unfold event_times; rewrite length_map, select_aggregates_length.
  repeat split.
Qed.

Lemma clean_run_report_figures_witness :
  exists report w',
    dag_run (slow 3 noon20) jan15 "manual" (fresh leftover) = (Returned report, w')
    /\ nth_error (report_lines jan15 "manual" (xcom w')) 7
       = Some "  - Events Found: 3"
    /\ nth_error (report_lines jan15 "manual" (xcom w')) 12
       = Some "  - Rows Deleted: 1"
    /\ nth_error (report_lines jan15 "manual" (xcom w')) 15
       = Some "  - Rows Inserted: 2".
Proof.
  destruct (clean_run_report_figures (slow 3 noon20) jan15 "manual" (fresh leftover))
    as [report [w' [H1 [_ [H3 [H4 [H5 _]]]]]]].
  - split; reflexivity.
  - reflexivity.
  - simpl; lia.
  - exists report, w'; split; [exact H1|].
    split; [rewrite H3; vm_compute; reflexivity|].
    split; [rewrite H4; vm_compute; reflexivity|].
    rewrite H5; vm_compute; reflexivity.
Defined.
